(** * Inventory fulfillment and stock-deduction engine (stapolin/framed)

    A shallow embedding of the server-side stock engine: the ID normalizer and
    the fulfillment calculator of [GET /api/orders/fulfillment-status], the
    order stock processor of [POST /api/process-order-stock], the purchase
    order receiving route with [receivePurchaseOrderItems], the manual
    add-stock and set-stock routes, the direct stock updates, the soft
    deletion of materials and variations, the ledger listing, the deletion
    and the status update of purchase orders, and the storage functions they
    call ([DatabaseStorage]).

    Conventions of the embedding.
    - Integers held in [integer] columns and JS numbers that carry them are
      [Z]; a nullable column or an optional JS value is an [option].
    - A table is the list of its rows in insertion order.  A [select ... where]
      is a [filter], [.limit(1)] takes the first row, an [update ... where]
      rewrites every row that matches, in its place.  PostgreSQL does not
      promise the order of the rows of a select without [ORDER BY], and an
      update may move a row behind the others: what is stated of the lines
      that a receipt has written is stated of each line and up to
      permutation, and lists of rows are compared in order only where no
      write has touched them.  Uniqueness of a key is a hypothesis of the
      lemmas that need it, not a property of the type.
    - PostgreSQL checks what it is given: an [integer] column or parameter
      holds the numbers from -2^31 to 2^31-1 ([Storage.int4]) and a
      [varchar(n)] column the texts of at most n characters.  A write that
      carries another value is refused: the store stays as it is and the
      storage call throws.  Stock and ledger are written one after the other,
      outside any transaction, so a route that is stopped by a throw leaves
      behind what it had written before.  What a route does with a throw is
      modelled as its [try]/[catch] has it; the answer 500 is [ServerError].
    - The numbers of a request are integers.  The id in the path of a route
      is an id as the store hands them out; the ids in the body of
      process-order-stock are any integers, and the route model checks them
      where the store would.  I/O failures are outside the model, and
      requests run one after the other.
    - The time of a request is a parameter [now]; it supplies [processedAt]
      and [receivedDate].
    - A JS [Map] that is only read with [get] and written with [set] is a
      [gmap]; a [Map] whose iteration order is observable is an association
      list in insertion order.
    - The stock-pool key [`${materialId}-${variationId}`] is the pair of its
      two components; the text ['null'] is [None].  The template string
      determines the pair, so two keys are equal strings exactly when they
      are equal pairs. *)

From stdpp Require Import gmap strings list fin_maps pretty.
From Stdlib Require Import ZArith Lia Permutation Sorted.

Local Open Scope Z_scope.

(** ** JavaScript idioms used by the routes *)

Module JS.

(** Truthiness of a [number | null | undefined]. *)
Definition truthy (o : option Z) : bool :=
  match o with
  | Some v => negb (bool_decide (v = 0))
  | None => false
  end.

(** [x || 0] *)
Definition orZero (o : option Z) : Z := default 0 o.

(** [x || null] *)
Definition orNull (o : option Z) : option Z :=
  if truthy o then o else None.

(** [new Map(entries)]: a later entry overrides an earlier one. *)
Definition newMap `{Countable K} {V : Type} (entries : list (K * V)) : gmap K V :=
  foldl (λ m kv, <[kv.1 := kv.2]> m) ∅ entries.

(** [Array.prototype.find] *)
Definition find {A : Type} (p : A → bool) (l : list A) : option A :=
  List.find p l.

(** Replace the first element that satisfies [p]: the effect of mutating
    the object returned by [find]. *)
Fixpoint updateFound {A : Type} (p : A → bool) (f : A → A) (l : list A) : list A :=
  match l with
  | [] => []
  | x :: l' => if p x then f x :: l' else x :: updateFound p f l'
  end.

(** The way a piece of code ends: normally, or by a [throw] that it does
    not catch.  Either way it leaves a state behind. *)
Inductive Outcome (S : Type) :=
| Normal (st : S)
| Thrown (st : S).

Arguments Normal {S} st.
Arguments Thrown {S} st.

Definition stateOf {S : Type} (outcome : Outcome S) : S :=
  match outcome with
  | Normal st => st
  | Thrown st => st
  end.

(** [for (const x of l) { body }] with a body that may throw: the throw ends
    the loop. *)
Fixpoint forOf {S A : Type} (body : S → A → Outcome S) (st : S) (l : list A)
    : Outcome S :=
  match l with
  | [] => Normal st
  | x :: l' =>
      match body st x with
      | Normal st' => forOf body st' l'
      | Thrown st' => Thrown st'
      end
  end.

(** Stable insertion into a list sorted by [key]. *)
Fixpoint insertBy {A : Type} (key : A → Z) (x : A) (l : list A) : list A :=
  match l with
  | [] => [x]
  | y :: l' => if key x <=? key y then x :: y :: l' else y :: insertBy key x l'
  end.

(** [[...l].sort((a, b) => key(a) - key(b))]; the sort is stable. *)
Definition sortBy {A : Type} (key : A → Z) (l : list A) : list A :=
  foldr (insertBy key) [] l.

End JS.

(** ** shared/schema.ts: rows of the tables *)

Module Schema.

(** [rawMaterials] *)
Record RawMaterial := {
  rm_id : Z;
  rm_woocommerceId : option Z;
  rm_name : string;
  rm_type : string;
  rm_stockQuantity : option Z;
  rm_manageStock : bool;
  rm_isActive : bool
}.

(** [rawMaterialVariations] *)
Record RawMaterialVariation := {
  rv_id : Z;
  rv_materialId : Z;
  rv_woocommerceId : option Z;
  rv_name : string;
  rv_stockQuantity : option Z;
  rv_manageStock : bool;
  rv_isActive : bool
}.

(** [LocalRawMaterialWithVariations]: the row spread together with
    [variations], which is [undefined] when the material has none. *)
Record LocalRawMaterialWithVariations := {
  lm_row : RawMaterial;
  lm_variations : option (list RawMaterialVariation)
}.

Definition lm_id (m : LocalRawMaterialWithVariations) : Z := rm_id (lm_row m).
Definition lm_woocommerceId m : option Z := rm_woocommerceId (lm_row m).
Definition lm_name m : string := rm_name (lm_row m).
Definition lm_type m : string := rm_type (lm_row m).
Definition lm_stockQuantity m : option Z := rm_stockQuantity (lm_row m).
Definition lm_manageStock m : bool := rm_manageStock (lm_row m).

(** [materialProductMappings] *)
Record MaterialProductMapping := {
  mp_id : Z;
  mp_productId : Z;
  mp_variationId : option Z;
  mp_materialProductId : Z;
  mp_materialVariationId : option Z;
  mp_quantityUsed : Z
}.

(** [InsertStockLedger]: the values of a [stockLedger] row. *)
Record InsertStockLedger := {
  sl_materialProductId : Z;
  sl_materialVariationId : option Z;
  sl_orderId : option Z;
  sl_orderNumber : option string;
  sl_quantityChange : Z;
  sl_previousStock : option Z;
  sl_newStock : option Z;
  sl_reason : string;
  sl_notes : option string
}.

(** [stockLedger]: the values with the serial [id]; the rows are kept in
    order of creation. *)
Record StockLedgerEntry := {
  sl_id : Z;
  sl_values : InsertStockLedger
}.

(** [processedOrders] *)
Record ProcessedOrder := {
  pr_orderId : Z;
  pr_orderNumber : option string;
  pr_processedAt : Z
}.

(** [purchaseOrderStatusEnum] *)
Inductive PurchaseOrderStatus :=
| draft | ordered | partially_received | received | cancelled.

(** [purchaseOrders] (the monetary columns play no part in receiving). *)
Record PurchaseOrder := {
  po_id : Z;
  po_poNumber : string;
  po_status : PurchaseOrderStatus;
  po_receivedDate : option Z
}.

(** [purchaseOrderItems] *)
Record PurchaseOrderItem := {
  poi_id : Z;
  poi_purchaseOrderId : Z;
  poi_materialProductId : Z;
  poi_materialVariationId : option Z;
  poi_materialName : string;
  poi_quantityOrdered : Z;
  poi_quantityReceived : Z
}.

(** [PurchaseOrderWithDetails] *)
Record PurchaseOrderWithDetails := {
  pd_row : PurchaseOrder;
  pd_items : list PurchaseOrderItem
}.

(** A line item of an order, as the order feed and the request body of
    process-order-stock carry it. *)
Record LineItem := {
  li_product_id : Z;
  li_variation_id : option Z;
  li_quantity : Z;
  li_name : string
}.

(** An order of the feed; [ord_date_created] is
    [new Date(order.date_created).getTime()]. *)
Record Order := {
  ord_id : Z;
  ord_status : string;
  ord_date_created : Z;
  ord_line_items : list LineItem
}.

#[global] Instance PurchaseOrderStatus_eq_dec : EqDecision PurchaseOrderStatus.
Proof. solve_decision. Defined.

End Schema.

Import Schema.

(** ** ID normalizer and fulfillment calculator
    (GET /api/orders/fulfillment-status) *)

Module Fulfillment.

(** The pool key [`${materialId}-${variationId}`]. *)
Definition Key : Type := Z * option Z.

Section WithMaterials.

Variable localMaterials : list LocalRawMaterialWithVariations.

Definition materialsByLocalId : gmap Z LocalRawMaterialWithVariations :=
  JS.newMap (map (λ m, (lm_id m, m)) localMaterials).

Definition materialsByWooId : gmap (option Z) LocalRawMaterialWithVariations :=
  JS.newMap (map (λ m, (lm_woocommerceId m, m)) localMaterials).

Definition findMaterial (id : Z) : option LocalRawMaterialWithVariations :=
  match materialsByLocalId !! id with
  | Some m => Some m
  | None => materialsByWooId !! Some id
  end.

Definition normalizeId (id : Z) : Z :=
  match materialsByLocalId !! id with
  | Some byLocal => lm_id byLocal
  | None =>
      match materialsByWooId !! Some id with
      | Some byWoo => lm_id byWoo
      | None => id
      end
  end.

End WithMaterials.

(** [v.id === varId || v.woocommerceId === varId] for a number [varId]. *)
Definition variationMatches (varId : Z) (v : RawMaterialVariation) : bool :=
  bool_decide (rv_id v = varId) || bool_decide (rv_woocommerceId v = Some varId).

Definition normalizeVariationId (material : LocalRawMaterialWithVariations)
    (varId : option Z) : option Z :=
  match varId, lm_variations material with
  | Some vid, Some variations =>
      if JS.truthy varId then
        match JS.find (variationMatches vid) variations with
        | Some variation => Some (rv_id variation)
        | None => varId
        end
      else varId
  | _, _ => varId
  end.

(** One value of the per-order [materialsNeeded] map. *)
Record Needed := {
  nd_needed : Z;
  nd_materialName : string;
  nd_materialId : Z;
  nd_variationId : option Z
}.

Record MissingMaterial := {
  mm_materialId : Z;
  mm_variationId : option Z;
  mm_materialName : string;
  mm_needed : Z;
  mm_available : Z
}.

(** One value of the [fulfillmentStatus] record that the route returns. *)
Record FulfillmentEntry := {
  canFulfill : bool;
  missingMaterials : list MissingMaterial;
  isProcessed : bool
}.

(** The entry of an order that is already processed. *)
Definition processedEntry : FulfillmentEntry :=
  {| canFulfill := true; missingMaterials := []; isProcessed := true |}.

(** Every key with a committed claim is within its pool. *)
Definition withinPool (materialsMap cumulativeStockUsed : gmap Key Z) : Prop :=
  ∀ key, is_Some (cumulativeStockUsed !! key) →
         JS.orZero (cumulativeStockUsed !! key) ≤ JS.orZero (materialsMap !! key).

(** The inner loop of the stock map construction, over the variations of one
    variable material: the map and [totalVariationStock]. *)
Definition seedVariations (materialId : Z) (variations : list RawMaterialVariation)
    (materialsMap : gmap Key Z) : gmap Key Z * Z :=
  foldl (λ '(materialsMap, totalVariationStock) variation,
           let stock := JS.orZero (rv_stockQuantity variation) in
           (<[(materialId, Some (rv_id variation)) := stock]> materialsMap,
            totalVariationStock + stock))
        (materialsMap, 0) variations.

Definition isVariableWithVariations (material : LocalRawMaterialWithVariations) : bool :=
  bool_decide (lm_type material = "variable") &&
  match lm_variations material with
  | Some variations => bool_decide (0 < length variations)%nat
  | None => false
  end.

Definition seedMaterial (materialsMap : gmap Key Z)
    (material : LocalRawMaterialWithVariations) : gmap Key Z :=
  if isVariableWithVariations material then
    let '(materialsMap, totalVariationStock) :=
      seedVariations (lm_id material) (default [] (lm_variations material)) materialsMap in
    <[(lm_id material, None) := totalVariationStock]> materialsMap
  else
    <[(lm_id material, None) := JS.orZero (lm_stockQuantity material)]> materialsMap.

(** The stock map [materialsMap] of the route, under canonical local ids. *)
Definition buildStockMap (localMaterials : list LocalRawMaterialWithVariations)
    : gmap Key Z :=
  foldl seedMaterial ∅ localMaterials.

Definition fulfillmentStatuses : list string :=
  ["pending"; "order-received"; "production"].

Definition relevantOrders (orders : list Order) : list Order :=
  List.filter (λ order, bool_decide (ord_status order ∈ fulfillmentStatuses)) orders.

Definition sortedOrders (orders : list Order) : list Order :=
  JS.sortBy ord_date_created (relevantOrders orders).

(** The inline filter over [allMappings] for one line item. *)
Definition itemMappings (allMappings : list MaterialProductMapping) (item : LineItem)
    : list MaterialProductMapping :=
  let productId := li_product_id item in
  let variationId := JS.orNull (li_variation_id item) in
  List.filter (λ m,
    bool_decide (mp_productId m = productId) &&
    (if JS.truthy variationId
     then bool_decide (mp_variationId m = variationId)
     else bool_decide (mp_variationId m = None)))
    allMappings.

(** [materialName], with the variation's name appended when the mapping
    names a variation that the material has. *)
Definition displayName (material : LocalRawMaterialWithVariations)
    (materialVariationId : option Z) : string :=
  match materialVariationId, lm_variations material with
  | Some vid, Some variations =>
      if JS.truthy materialVariationId then
        match JS.find (variationMatches vid) variations with
        | Some variation => lm_name material +:+ " - " +:+ rv_name variation
        | None => lm_name material
        end
      else lm_name material
  | _, _ => lm_name material
  end.

Definition hasKey (key : Key) (e : Key * Needed) : bool := bool_decide (e.1 = key).

Definition addQuantity (quantityNeeded : Z) (e : Key * Needed) : Key * Needed :=
  (e.1, {| nd_needed := nd_needed e.2 + quantityNeeded;
           nd_materialName := nd_materialName e.2;
           nd_materialId := nd_materialId e.2;
           nd_variationId := nd_variationId e.2 |}).

(** [materialsNeeded.get(key)] followed by [existing.needed += ...] or by
    [materialsNeeded.set(key, ...)]; the list keeps insertion order. *)
Definition addNeeded (key : Key) (quantityNeeded : Z) (fresh : Needed)
    (materialsNeeded : list (Key * Needed)) : list (Key * Needed) :=
  match JS.find (hasKey key) materialsNeeded with
  | Some _ => JS.updateFound (hasKey key) (addQuantity quantityNeeded) materialsNeeded
  | None => materialsNeeded ++ [(key, fresh)]
  end.

Section WithCatalog.

Variable localMaterials : list LocalRawMaterialWithVariations.
Variable allMappings : list MaterialProductMapping.
Variable processedOrdersList : list ProcessedOrder.

Definition processedOrderIds : gset Z :=
  list_to_set (pr_orderId <$> processedOrdersList).

(** The body of [for (const mapping of itemMappings)]. *)
Definition needMapping (item : LineItem) (materialsNeeded : list (Key * Needed))
    (mapping : MaterialProductMapping) : list (Key * Needed) :=
  match findMaterial localMaterials (mp_materialProductId mapping) with
  | None => materialsNeeded
  | Some material =>
      let normalizedMaterialId :=
        normalizeId localMaterials (mp_materialProductId mapping) in
      let normalizedVariationId :=
        normalizeVariationId material (mp_materialVariationId mapping) in
      let key := (normalizedMaterialId, JS.orNull normalizedVariationId) in
      let quantityNeeded := mp_quantityUsed mapping * li_quantity item in
      addNeeded key quantityNeeded
        {| nd_needed := quantityNeeded;
           nd_materialName := displayName material (mp_materialVariationId mapping);
           nd_materialId := normalizedMaterialId;
           nd_variationId := normalizedVariationId |}
        materialsNeeded
  end.

(** The [materialsNeeded] map of one order. *)
Definition materialsNeededFor (order : Order) : list (Key * Needed) :=
  foldl (λ materialsNeeded item,
           foldl (needMapping item) materialsNeeded (itemMappings allMappings item))
        [] (ord_line_items order).

(** The availability check: [canFulfill] and [orderMissingMaterials]. *)
Definition checkStock (materialsMap cumulativeStockUsed : gmap Key Z)
    (materialsNeeded : list (Key * Needed)) : bool * list MissingMaterial :=
  foldl (λ '(canFulfill, orderMissingMaterials) '(key, n),
           let originalStock := JS.orZero (materialsMap !! key) in
           let alreadyUsed := JS.orZero (cumulativeStockUsed !! key) in
           let availableStock := originalStock - alreadyUsed in
           if availableStock <? nd_needed n then
             (false,
              orderMissingMaterials ++
              [{| mm_materialId := nd_materialId n;
                  mm_variationId := nd_variationId n;
                  mm_materialName := nd_materialName n;
                  mm_needed := nd_needed n;
                  mm_available := Z.max 0 availableStock |}])
           else (canFulfill, orderMissingMaterials))
        (true, []) materialsNeeded.

(** [cumulativeStockUsed.set(key, current + needed)] for every entry. *)
Definition commitUsage (cumulativeStockUsed : gmap Key Z)
    (materialsNeeded : list (Key * Needed)) : gmap Key Z :=
  foldl (λ used '(key, n), <[key := JS.orZero (used !! key) + nd_needed n]> used)
        cumulativeStockUsed materialsNeeded.

(** The body of [for (const order of sortedOrders)] on the pair of
    [cumulativeStockUsed] and [fulfillmentStatus]. *)
Definition processOrder (materialsMap : gmap Key Z)
    (st : gmap Key Z * gmap Z FulfillmentEntry) (order : Order)
    : gmap Key Z * gmap Z FulfillmentEntry :=
  let '(cumulativeStockUsed, fulfillmentStatus) := st in
  if bool_decide (ord_id order ∈ processedOrderIds) then
    (cumulativeStockUsed, <[ord_id order := processedEntry]> fulfillmentStatus)
  else
    let materialsNeeded := materialsNeededFor order in
    let '(canFulfill, orderMissingMaterials) :=
      checkStock materialsMap cumulativeStockUsed materialsNeeded in
    (if canFulfill then commitUsage cumulativeStockUsed materialsNeeded
     else cumulativeStockUsed,
     <[ord_id order := {| canFulfill := canFulfill;
                          missingMaterials := orderMissingMaterials;
                          isProcessed := false |}]> fulfillmentStatus).

(** The whole pass: the final [cumulativeStockUsed] and the
    [fulfillmentStatus] that is sent back. *)
Definition runFulfillment (orders : list Order)
    : gmap Key Z * gmap Z FulfillmentEntry :=
  foldl (processOrder (buildStockMap localMaterials)) (∅, ∅) (sortedOrders orders).

Definition fulfillmentStatus (orders : list Order) : gmap Z FulfillmentEntry :=
  (runFulfillment orders).2.

(** The quantity that a [materialsNeeded] map holds for a key. *)
Definition neededOf (materialsNeeded : list (Key * Needed)) (key : Key) : Z :=
  match JS.find (hasKey key) materialsNeeded with
  | Some e => nd_needed e.2
  | None => 0
  end.

(** The quantity of a key that an order claims according to the report
    [status]: what it needs, when it is reported fulfillable and is not
    a processed order; nothing otherwise. *)
Definition claimedBy (status : gmap Z FulfillmentEntry) (order : Order) (key : Key)
    : Z :=
  match status !! ord_id order with
  | Some entry =>
      if canFulfill entry && negb (isProcessed entry)
      then neededOf (materialsNeededFor order) key
      else 0
  | None => 0
  end.

(** The sum of the quantities of a key claimed by the orders. *)
Definition claimedTotal (status : gmap Z FulfillmentEntry) (orders : list Order)
    (key : Key) : Z :=
  foldr Z.add 0 (map (λ order, claimedBy status order key) orders).

(** The quantity of a material that an order claims according to the
    report, over all the keys of the material. *)
Definition claimedUnitsBy (status : gmap Z FulfillmentEntry) (order : Order)
    (materialId : Z) : Z :=
  match status !! ord_id order with
  | Some entry =>
      if canFulfill entry && negb (isProcessed entry)
      then foldr Z.add 0
             (map (λ e : Key * Needed,
                     if bool_decide (e.1.1 = materialId) then nd_needed e.2 else 0)
                  (materialsNeededFor order))
      else 0
  | None => 0
  end.

Definition claimedUnits (status : gmap Z FulfillmentEntry) (orders : list Order)
    (materialId : Z) : Z :=
  foldr Z.add 0 (map (λ order, claimedUnitsBy status order materialId) orders).

End WithCatalog.

(** The units of a material that are in stock, as the stock map counts
    them: the total over the variations of a variable material that has
    variations, the material's own [stockQuantity] otherwise. *)
Definition unitsInStock (material : LocalRawMaterialWithVariations) : Z :=
  if isVariableWithVariations material then
    foldr Z.add 0
      (map (λ v, JS.orZero (rv_stockQuantity v)) (default [] (lm_variations material)))
  else JS.orZero (lm_stockQuantity material).

(** The catalog entry [material] with its [manageStock] flags, and those
    of its variations, replaced by the values that [fm] and [fv] give. *)
Definition withManageStock (fm : RawMaterial → bool) (fv : RawMaterialVariation → bool)
    (material : LocalRawMaterialWithVariations) : LocalRawMaterialWithVariations :=
  {| lm_row :=
       {| rm_id := lm_id material; rm_woocommerceId := lm_woocommerceId material;
          rm_name := lm_name material; rm_type := lm_type material;
          rm_stockQuantity := lm_stockQuantity material;
          rm_manageStock := fm (lm_row material);
          rm_isActive := rm_isActive (lm_row material) |};
     lm_variations :=
       map (λ v, {| rv_id := rv_id v; rv_materialId := rv_materialId v;
                    rv_woocommerceId := rv_woocommerceId v; rv_name := rv_name v;
                    rv_stockQuantity := rv_stockQuantity v;
                    rv_manageStock := fv v; rv_isActive := rv_isActive v |})
       <$> lm_variations material |}.

End Fulfillment.

(** ** server storage: DatabaseStorage *)

Module Storage.

Record DB := {
  rawMaterials : list RawMaterial;
  rawMaterialVariations : list RawMaterialVariation;
  materialProductMappings : list MaterialProductMapping;
  stockLedger : list StockLedgerEntry;
  processedOrders : list ProcessedOrder;
  purchaseOrders : list PurchaseOrder;
  purchaseOrderItems : list PurchaseOrderItem
}.

Definition with_rawMaterials (rows : list RawMaterial) (db : DB) : DB :=
  {| rawMaterials := rows;
     rawMaterialVariations := rawMaterialVariations db;
     materialProductMappings := materialProductMappings db;
     stockLedger := stockLedger db;
     processedOrders := processedOrders db;
     purchaseOrders := purchaseOrders db;
     purchaseOrderItems := purchaseOrderItems db |}.

Definition with_rawMaterialVariations (rows : list RawMaterialVariation) (db : DB) : DB :=
  {| rawMaterials := rawMaterials db;
     rawMaterialVariations := rows;
     materialProductMappings := materialProductMappings db;
     stockLedger := stockLedger db;
     processedOrders := processedOrders db;
     purchaseOrders := purchaseOrders db;
     purchaseOrderItems := purchaseOrderItems db |}.

Definition with_stockLedger (rows : list StockLedgerEntry) (db : DB) : DB :=
  {| rawMaterials := rawMaterials db;
     rawMaterialVariations := rawMaterialVariations db;
     materialProductMappings := materialProductMappings db;
     stockLedger := rows;
     processedOrders := processedOrders db;
     purchaseOrders := purchaseOrders db;
     purchaseOrderItems := purchaseOrderItems db |}.

Definition with_processedOrders (rows : list ProcessedOrder) (db : DB) : DB :=
  {| rawMaterials := rawMaterials db;
     rawMaterialVariations := rawMaterialVariations db;
     materialProductMappings := materialProductMappings db;
     stockLedger := stockLedger db;
     processedOrders := rows;
     purchaseOrders := purchaseOrders db;
     purchaseOrderItems := purchaseOrderItems db |}.

Definition with_purchaseOrders (rows : list PurchaseOrder) (db : DB) : DB :=
  {| rawMaterials := rawMaterials db;
     rawMaterialVariations := rawMaterialVariations db;
     materialProductMappings := materialProductMappings db;
     stockLedger := stockLedger db;
     processedOrders := processedOrders db;
     purchaseOrders := rows;
     purchaseOrderItems := purchaseOrderItems db |}.

Definition with_purchaseOrderItems (rows : list PurchaseOrderItem) (db : DB) : DB :=
  {| rawMaterials := rawMaterials db;
     rawMaterialVariations := rawMaterialVariations db;
     materialProductMappings := materialProductMappings db;
     stockLedger := stockLedger db;
     processedOrders := processedOrders db;
     purchaseOrders := purchaseOrders db;
     purchaseOrderItems := rows |}.

(** [update(t).set(...).where(p)] *)
Definition updateWhere {A : Type} (p : A → bool) (f : A → A) (rows : list A) : list A :=
  map (λ row, if p row then f row else row) rows.

Definition getMaterialMappings (db : DB) : list MaterialProductMapping :=
  materialProductMappings db.

Definition getMaterialMappingsForProduct (productId : Z) (variationId : option Z)
    (db : DB) : list MaterialProductMapping :=
  if JS.truthy variationId then
    List.filter (λ m, bool_decide (mp_productId m = productId) &&
                      bool_decide (mp_variationId m = variationId))
                (materialProductMappings db)
  else
    List.filter (λ m, bool_decide (mp_productId m = productId))
                (materialProductMappings db).

(** The numbers that an [integer] column or parameter holds. *)
Definition int4 (z : Z) : bool := (-2147483648 <=? z) && (z <=? 2147483647).

(** A nullable [integer] column. *)
Definition int4OrNull (o : option Z) : bool :=
  match o with
  | Some z => int4 z
  | None => true
  end.

(** A nullable [varchar(n)] column. *)
Definition varchar (n : nat) (o : option string) : bool :=
  match o with
  | Some text => bool_decide (String.length text ≤ n)%nat
  | None => true
  end.

(** The rows that [stockLedger] accepts. *)
Definition ledgerAccepts (entry : InsertStockLedger) : bool :=
  int4 (sl_materialProductId entry) && int4OrNull (sl_materialVariationId entry) &&
  int4OrNull (sl_orderId entry) && varchar 50 (sl_orderNumber entry) &&
  int4 (sl_quantityChange entry) && int4OrNull (sl_previousStock entry) &&
  int4OrNull (sl_newStock entry) && varchar 255 (Some (sl_reason entry)).

(** [insert(stockLedger).values(entry).returning()] of a row that the table
    accepts.  The ledger is append-only and the model numbers its rows
    consecutively: the serial id of a new row is the number of rows plus
    one. *)
Definition insertStockLedger (entry : InsertStockLedger) (db : DB)
    : StockLedgerEntry * DB :=
  let result := {| sl_id := Z.of_nat (length (stockLedger db)) + 1;
                   sl_values := entry |} in
  (result, with_stockLedger (stockLedger db ++ [result]) db).

(** [createStockLedgerEntry]; the result is [None] where it throws because
    the table refuses the row. *)
Definition createStockLedgerEntry (entry : InsertStockLedger) (db : DB)
    : option StockLedgerEntry * DB :=
  if ledgerAccepts entry then
    let '(result, db) := insertStockLedger entry db in (Some result, db)
  else (None, db).

Definition getProcessedOrder (orderId : Z) (db : DB) : option ProcessedOrder :=
  head (List.filter (λ p, bool_decide (pr_orderId p = orderId)) (processedOrders db)).

Definition getAllProcessedOrders (db : DB) : list ProcessedOrder :=
  processedOrders db.

(** [insert(processedOrders).values(data).returning()] of a row that the
    table accepts; [processedAt] defaults to the time of the insert, [now]. *)
Definition insertProcessedOrder (now : Z) (orderId : Z) (orderNumber : option string)
    (db : DB) : ProcessedOrder * DB :=
  let result := {| pr_orderId := orderId; pr_orderNumber := orderNumber;
                   pr_processedAt := now |} in
  (result, with_processedOrders (processedOrders db ++ [result]) db).

(** [markOrderProcessed]; the result is [None] where it throws because the
    table refuses the row: [orderId] is an [integer] column with a unique
    constraint, [orderNumber] a [varchar(50)]. *)
Definition markOrderProcessed (now : Z) (orderId : Z) (orderNumber : option string)
    (db : DB) : option ProcessedOrder * DB :=
  if int4 orderId && varchar 50 orderNumber &&
     bool_decide (orderId ∉ pr_orderId <$> processedOrders db)
  then let '(result, db) := insertProcessedOrder now orderId orderNumber db in
       (Some result, db)
  else (None, db).

(** [getPurchaseOrder]: the row of the order and, from a select without
    [ORDER BY], its lines, here in table order. *)
Definition getPurchaseOrder (id : Z) (db : DB) : option PurchaseOrderWithDetails :=
  match head (List.filter (λ po, bool_decide (po_id po = id)) (purchaseOrders db)) with
  | None => None
  | Some row =>
      Some {| pd_row := row;
              pd_items := List.filter (λ i, bool_decide (poi_purchaseOrderId i = id))
                                      (purchaseOrderItems db) |}
  end.

(** The active materials, each with its active variations ([undefined] when
    there is none).  The [orderBy(name)] of the source is left out, the
    collation of the store being outside the model: the rows are in table
    order.  The processor keys them by id; the calculator, in which the order
    decides which material an external id shared by two materials resolves
    to, takes its list of materials as a parameter. *)
Definition getLocalRawMaterials (db : DB) : list LocalRawMaterialWithVariations :=
  map (λ material,
         let variations :=
           List.filter (λ v, bool_decide (rv_materialId v = rm_id material) &&
                             rv_isActive v)
                       (rawMaterialVariations db) in
         {| lm_row := material;
            lm_variations :=
              if bool_decide (0 < length variations)%nat then Some variations else None |})
      (List.filter rm_isActive (rawMaterials db)).

Definition getLocalRawMaterial (id : Z) (db : DB)
    : option LocalRawMaterialWithVariations :=
  match head (List.filter (λ m, bool_decide (rm_id m = id)) (rawMaterials db)) with
  | None => None
  | Some material =>
      let variations :=
        List.filter (λ v, bool_decide (rv_materialId v = id)) (rawMaterialVariations db) in
      Some {| lm_row := material;
              lm_variations :=
                if bool_decide (0 < length variations)%nat then Some variations else None |}
  end.

Definition setMaterialStock (newStock : Z) (m : RawMaterial) : RawMaterial :=
  {| rm_id := rm_id m; rm_woocommerceId := rm_woocommerceId m; rm_name := rm_name m;
     rm_type := rm_type m; rm_stockQuantity := Some newStock;
     rm_manageStock := rm_manageStock m; rm_isActive := rm_isActive m |}.

Definition setVariationStock (newStock : Z) (v : RawMaterialVariation)
    : RawMaterialVariation :=
  {| rv_id := rv_id v; rv_materialId := rv_materialId v;
     rv_woocommerceId := rv_woocommerceId v; rv_name := rv_name v;
     rv_stockQuantity := Some newStock; rv_manageStock := rv_manageStock v;
     rv_isActive := rv_isActive v |}.

(** [update(rawMaterials).set({ stockQuantity: newStock }).where(eq(id))]
    with values that the store accepts. *)
Definition storeMaterialStock (id : Z) (newStock : Z) (db : DB) : DB :=
  with_rawMaterials
    (updateWhere (λ m, bool_decide (rm_id m = id)) (setMaterialStock newStock)
                 (rawMaterials db)) db.

(** [updateLocalRawMaterialStock]: [None] where it throws because the store
    refuses a value, otherwise the first row that [returning()] gives back,
    if any. *)
Definition updateLocalRawMaterialStock (id : Z) (newStock : Z) (db : DB)
    : option (option RawMaterial) * DB :=
  if int4 id && int4 newStock then
    let db := storeMaterialStock id newStock db in
    (Some (head (List.filter (λ m, bool_decide (rm_id m = id)) (rawMaterials db))), db)
  else (None, db).

Definition getLocalRawMaterialVariation (id : Z) (db : DB)
    : option RawMaterialVariation :=
  head (List.filter (λ v, bool_decide (rv_id v = id)) (rawMaterialVariations db)).

Definition storeVariationStock (id : Z) (newStock : Z) (db : DB) : DB :=
  with_rawMaterialVariations
    (updateWhere (λ v, bool_decide (rv_id v = id)) (setVariationStock newStock)
                 (rawMaterialVariations db)) db.

(** [updateLocalRawMaterialVariationStock], in the same way. *)
Definition updateLocalRawMaterialVariationStock (id : Z) (newStock : Z) (db : DB)
    : option (option RawMaterialVariation) * DB :=
  if int4 id && int4 newStock then
    let db := storeVariationStock id newStock db in
    (Some (getLocalRawMaterialVariation id db), db)
  else (None, db).

Definition setQuantityReceived (q : Z) (i : PurchaseOrderItem) : PurchaseOrderItem :=
  {| poi_id := poi_id i; poi_purchaseOrderId := poi_purchaseOrderId i;
     poi_materialProductId := poi_materialProductId i;
     poi_materialVariationId := poi_materialVariationId i;
     poi_materialName := poi_materialName i;
     poi_quantityOrdered := poi_quantityOrdered i;
     poi_quantityReceived := q |}.

Definition setStatus (status : PurchaseOrderStatus) (receivedDate : option Z)
    (po : PurchaseOrder) : PurchaseOrder :=
  {| po_id := po_id po; po_poNumber := po_poNumber po;
     po_status := status; po_receivedDate := receivedDate |}.

(** One supplied pair of [receivePurchaseOrderItems]. *)
Record ItemReceipt := {
  rc_itemId : Z;
  rc_quantityReceived : Z
}.

(** The body of the first loop of [receivePurchaseOrderItems]; it throws
    where the store refuses the new [quantityReceived]. *)
Definition applyReceipt (db : DB) (receipt : ItemReceipt) : JS.Outcome DB :=
  match head (List.filter (λ i, bool_decide (poi_id i = rc_itemId receipt))
                          (purchaseOrderItems db)) with
  | Some item =>
      if 0 <? rc_quantityReceived receipt then
        let newQuantityReceived := poi_quantityReceived item + rc_quantityReceived receipt in
        if int4 (rc_itemId receipt) && int4 newQuantityReceived then
          JS.Normal
            (with_purchaseOrderItems
               (updateWhere (λ i, bool_decide (poi_id i = rc_itemId receipt))
                            (setQuantityReceived newQuantityReceived)
                            (purchaseOrderItems db)) db)
        else JS.Thrown db
      else JS.Normal db
  | None => JS.Normal db
  end.

Definition allReceived (items : list PurchaseOrderItem) : bool :=
  forallb (λ item, poi_quantityOrdered item <=? poi_quantityReceived item) items.

Definition someReceived (items : list PurchaseOrderItem) : bool :=
  existsb (λ item, 0 <? poi_quantityReceived item) items.

Definition newStatus (po : PurchaseOrderWithDetails) : PurchaseOrderStatus :=
  if allReceived (pd_items po) then received
  else if someReceived (pd_items po) then partially_received
  else po_status (pd_row po).

(** [receivePurchaseOrderItems]; the result is [None] where it throws:
    "Purchase order not found", or the error of a refused update. *)
Definition receivePurchaseOrderItems (now : Z) (purchaseOrderId : Z)
    (itemReceipts : list ItemReceipt) (db : DB)
    : option PurchaseOrderWithDetails * DB :=
  match JS.forOf applyReceipt db itemReceipts with
  | JS.Thrown db => (None, db)
  | JS.Normal db =>
      match getPurchaseOrder purchaseOrderId db with
      | None => (None, db)
      | Some po =>
          let db :=
            if bool_decide (newStatus po ≠ po_status (pd_row po)) then
              with_purchaseOrders
                (updateWhere (λ row, bool_decide (po_id row = purchaseOrderId))
                   (setStatus (newStatus po)
                              (if allReceived (pd_items po) then Some now else None))
                   (purchaseOrders db)) db
            else db in
          (getPurchaseOrder purchaseOrderId db, db)
      end
  end.

End Storage.

Import Storage.

(** ** The order stock processor (POST /api/process-order-stock) *)

Module OrderStock.

(** The request body. *)
Record Body := {
  orderId : Z;
  orderNumber : string;
  lineItems : list LineItem
}.

Record DeductionResult := {
  dr_materialId : Z;
  dr_materialVariationId : option Z;
  dr_materialName : string;
  dr_previousStock : Z;
  dr_newStock : Z;
  dr_quantityDeducted : Z;
  dr_ledgerEntryId : Z;
  dr_lineItemName : string
}.

Record SkippedItem := {
  sk_productId : Z;
  sk_variationId : option Z;
  sk_name : string;
  sk_materialId : Z;
  sk_materialVariationId : option Z;
  sk_materialName : option string;
  sk_reason : string
}.

Record UnmappedItem := {
  um_productId : Z;
  um_variationId : option Z;
  um_name : string;
  um_quantity : Z;
  um_reason : string
}.

(** An entry of [failedUpdates], pushed by the [catch] around the stock
    update and the ledger insert.  Its [reason] is
    ['Local stock update failed: '] followed by the message of the error
    that the store raised, which the model does not hold. *)
Record FailedUpdate := {
  fu_productId : Z;
  fu_variationId : option Z;
  fu_name : string;
  fu_materialId : Z;
  fu_materialName : string
}.

(** The state of one invocation: the store, the prefetched [materialsMap]
    whose objects the loop mutates, and the four report lists. *)
Record Run := {
  run_db : DB;
  run_materialsMap : gmap Z LocalRawMaterialWithVariations;
  run_results : list DeductionResult;
  run_skippedItems : list SkippedItem;
  run_unmappedItems : list UnmappedItem;
  run_failedUpdates : list FailedUpdate
}.

Definition skip (item : SkippedItem) (st : Run) : Run :=
  {| run_db := run_db st; run_materialsMap := run_materialsMap st;
     run_results := run_results st;
     run_skippedItems := run_skippedItems st ++ [item];
     run_unmappedItems := run_unmappedItems st;
     run_failedUpdates := run_failedUpdates st |}.

Definition unmapped (item : UnmappedItem) (st : Run) : Run :=
  {| run_db := run_db st; run_materialsMap := run_materialsMap st;
     run_results := run_results st;
     run_skippedItems := run_skippedItems st;
     run_unmappedItems := run_unmappedItems st ++ [item];
     run_failedUpdates := run_failedUpdates st |}.

(** [failedUpdates.push(...)] *)
Definition failed (item : FailedUpdate) (st : Run) : Run :=
  {| run_db := run_db st; run_materialsMap := run_materialsMap st;
     run_results := run_results st;
     run_skippedItems := run_skippedItems st;
     run_unmappedItems := run_unmappedItems st;
     run_failedUpdates := run_failedUpdates st ++ [item] |}.

(** [material.stockQuantity = newStock] *)
Definition setStockInMemory (newStock : Z) (material : LocalRawMaterialWithVariations)
    : LocalRawMaterialWithVariations :=
  {| lm_row := setMaterialStock newStock (lm_row material);
     lm_variations := lm_variations material |}.

(** [variation.stockQuantity = newStock] on the variation that [find]
    returned, inside the material's [variations] array. *)
Definition setVariationStockInMemory (variationId : Z) (newStock : Z)
    (material : LocalRawMaterialWithVariations) : LocalRawMaterialWithVariations :=
  {| lm_row := lm_row material;
     lm_variations :=
       JS.updateFound (λ v, bool_decide (rv_id v = variationId))
                      (setVariationStock newStock) <$> lm_variations material |}.

(** The variation lookup of one mapping: [None] when the mapping is
    skipped because its variation is not among the material's variations,
    otherwise the value of the variable [variation] ([null] or the
    variation found). *)
Definition resolveVariation (material : LocalRawMaterialWithVariations)
    (mapping : MaterialProductMapping) : option (option RawMaterialVariation) :=
  match mp_materialVariationId mapping, lm_variations material with
  | Some vid, Some variations =>
      match JS.find (λ v, bool_decide (rv_id v = vid)) variations with
      | Some variation => Some (Some variation)
      | None => None
      end
  | _, _ => Some None
  end.

(** The guard [isVariationMapping && variation] of the conditionals that
    choose between the variation and the parent material: the mapping's
    variation id and the variation, when both are there. *)
Definition variationTarget (mapping : MaterialProductMapping)
    (variation : option RawMaterialVariation) : option (Z * RawMaterialVariation) :=
  match mp_materialVariationId mapping, variation with
  | Some materialVariationId, Some variation => Some (materialVariationId, variation)
  | _, _ => None
  end.

Definition displayName (material : LocalRawMaterialWithVariations)
    (mapping : MaterialProductMapping) (variation : option RawMaterialVariation)
    : string :=
  match variationTarget mapping variation with
  | Some (_, variation) => lm_name material +:+ " - " +:+ rv_name variation
  | None => lm_name material
  end.

Definition effectiveManageStock (material : LocalRawMaterialWithVariations)
    (mapping : MaterialProductMapping) (variation : option RawMaterialVariation)
    : bool :=
  match variationTarget mapping variation with
  | Some (_, variation) => rv_manageStock variation
  | None => lm_manageStock material
  end.

Section Invocation.

Variable body : Body.

(** The entry that the [catch] pushes on [failedUpdates]. *)
Definition failedUpdate (item : LineItem) (mapping : MaterialProductMapping)
    (displayName : string) : FailedUpdate :=
  {| fu_productId := li_product_id item;
     fu_variationId := li_variation_id item;
     fu_name := li_name item;
     fu_materialId := mp_materialProductId mapping;
     fu_materialName := displayName |}.

(** The values of the ledger entry of a deduction. *)
Definition deductionValues (item : LineItem) (mapping : MaterialProductMapping)
    (quantityToDeduct previousStock newStock : Z) : InsertStockLedger :=
  {| sl_materialProductId := mp_materialProductId mapping;
     sl_materialVariationId := JS.orNull (mp_materialVariationId mapping);
     sl_orderId := Some (orderId body);
     sl_orderNumber := Some (orderNumber body);
     sl_quantityChange := - quantityToDeduct;
     sl_previousStock := Some previousStock;
     sl_newStock := Some newStock;
     sl_reason := "order";
     sl_notes := Some ("Order #" +:+ orderNumber body +:+ " - " +:+ li_name item
                       +:+ " x" +:+ pretty (li_quantity item)) |}.

(** The stock update at the head of the [try] and the in-memory update that
    follows it: the store and the material object afterwards, or [None] where
    the update throws (nothing is written or mutated then). *)
Definition updateStock (mapping : MaterialProductMapping)
    (material : LocalRawMaterialWithVariations)
    (variation : option RawMaterialVariation) (newStock : Z) (db : DB)
    : option (DB * LocalRawMaterialWithVariations) :=
  match variationTarget mapping variation with
  | Some (materialVariationId, _) =>
      match updateLocalRawMaterialVariationStock materialVariationId newStock db with
      | (Some _, db) =>
          Some (db, setVariationStockInMemory materialVariationId newStock material)
      | (None, _) => None
      end
  | None =>
      match updateLocalRawMaterialStock (mp_materialProductId mapping) newStock db with
      | (Some _, db) => Some (db, setStockInMemory newStock material)
      | (None, _) => None
      end
  end.

(** The deduction of one mapping once its material and variation are
    resolved and stock is managed: the [try] with the stock update, the
    in-memory update, the ledger entry and the result, and the [catch], which
    pushes on [failedUpdates] and undoes nothing. *)
Definition deduct (item : LineItem) (mapping : MaterialProductMapping)
    (material : LocalRawMaterialWithVariations)
    (variation : option RawMaterialVariation) (st : Run) : Run :=
  let quantityToDeduct := mp_quantityUsed mapping * li_quantity item in
  let previousStock :=
    match variationTarget mapping variation with
    | Some (_, variation) => JS.orZero (rv_stockQuantity variation)
    | None => JS.orZero (lm_stockQuantity material)
    end in
  let newStock := previousStock - quantityToDeduct in
  let failure := failedUpdate item mapping (displayName material mapping variation) in
  match updateStock mapping material variation newStock (run_db st) with
  | None => failed failure st
  | Some (db, updated) =>
      let materialsMap :=
        <[mp_materialProductId mapping := updated]> (run_materialsMap st) in
      match createStockLedgerEntry
              (deductionValues item mapping quantityToDeduct previousStock newStock)
              db with
      | (None, db) =>
          {| run_db := db;
             run_materialsMap := materialsMap;
             run_results := run_results st;
             run_skippedItems := run_skippedItems st;
             run_unmappedItems := run_unmappedItems st;
             run_failedUpdates := run_failedUpdates st ++ [failure] |}
      | (Some ledgerEntry, db) =>
          {| run_db := db;
             run_materialsMap := materialsMap;
             run_results := run_results st ++
               [{| dr_materialId := mp_materialProductId mapping;
                   dr_materialVariationId := JS.orNull (mp_materialVariationId mapping);
                   dr_materialName := displayName material mapping variation;
                   dr_previousStock := previousStock;
                   dr_newStock := newStock;
                   dr_quantityDeducted := quantityToDeduct;
                   dr_ledgerEntryId := sl_id ledgerEntry;
                   dr_lineItemName := li_name item |}];
             run_skippedItems := run_skippedItems st;
             run_unmappedItems := run_unmappedItems st;
             run_failedUpdates := run_failedUpdates st |}
      end
  end.

(** The three entries that the loop pushes on [skippedItems]. *)
Definition missingMaterial (item : LineItem) (mapping : MaterialProductMapping)
    : SkippedItem :=
  {| sk_productId := li_product_id item;
     sk_variationId := li_variation_id item;
     sk_name := li_name item;
     sk_materialId := mp_materialProductId mapping;
     sk_materialVariationId := None;
     sk_materialName := None;
     sk_reason := "Material product no longer exists in inventory" |}.

Definition missingVariation (item : LineItem) (mapping : MaterialProductMapping)
    : SkippedItem :=
  {| sk_productId := li_product_id item;
     sk_variationId := li_variation_id item;
     sk_name := li_name item;
     sk_materialId := mp_materialProductId mapping;
     sk_materialVariationId := mp_materialVariationId mapping;
     sk_materialName := None;
     sk_reason := "Material variation no longer exists in inventory" |}.

Definition stockNotManaged (item : LineItem) (mapping : MaterialProductMapping)
    (displayName : string) : SkippedItem :=
  {| sk_productId := li_product_id item;
     sk_variationId := li_variation_id item;
     sk_name := li_name item;
     sk_materialId := mp_materialProductId mapping;
     sk_materialVariationId := None;
     sk_materialName := Some displayName;
     sk_reason := "Material does not have stock management enabled" |}.

(** The body of [for (const mapping of mappings)]. *)
Definition processMapping (item : LineItem) (st : Run)
    (mapping : MaterialProductMapping) : Run :=
  match run_materialsMap st !! mp_materialProductId mapping with
  | None => skip (missingMaterial item mapping) st
  | Some material =>
      match resolveVariation material mapping with
      | None => skip (missingVariation item mapping) st
      | Some variation =>
          let manageStock := effectiveManageStock material mapping variation in
          if negb manageStock then
            skip (stockNotManaged item mapping (displayName material mapping variation))
                 st
          else deduct item mapping material variation st
      end
  end.

(** The store takes the query of [getMaterialMappingsForProduct] for this
    line item: [product_id] is an [integer] parameter, and so is
    [variation_id] when it is truthy. *)
Definition lookupAccepted (item : LineItem) : bool :=
  int4 (li_product_id item) &&
  (if JS.truthy (li_variation_id item) then int4OrNull (li_variation_id item) else true).

(** The body of the loop over [lineItems].  The lookup of the mappings is
    outside the [try] of the deductions: where the store refuses it, the
    error ends the loop and reaches the [catch] of the route. *)
Definition processLineItem (st : Run) (item : LineItem) : JS.Outcome Run :=
  if negb (lookupAccepted item) then JS.Thrown st
  else
    let mappings :=
      getMaterialMappingsForProduct (li_product_id item) (li_variation_id item)
                                    (run_db st) in
    if bool_decide (length mappings = 0%nat) then
      JS.Normal
        (unmapped {| um_productId := li_product_id item;
                     um_variationId := li_variation_id item;
                     um_name := li_name item;
                     um_quantity := li_quantity item;
                     um_reason :=
                       "No material mapping found for this product/variation" |} st)
    else JS.Normal (foldl (processMapping item) st mappings).

Definition start (db : DB) : Run :=
  {| run_db := db;
     run_materialsMap := JS.newMap (map (λ m, (lm_id m, m)) (getLocalRawMaterials db));
     run_results := []; run_skippedItems := [];
     run_unmappedItems := []; run_failedUpdates := [] |}.

(** The loop over all line items. *)
Definition processLineItems (db : DB) : JS.Outcome Run :=
  JS.forOf processLineItem (start db) (lineItems body).

(** The states that the loops of one invocation on [db] pass through. *)
Inductive Reachable (db : DB) : Run → Prop :=
| reach_start : Reachable db (start db)
| reach_mapping st item mapping :
    Reachable db st → Reachable db (processMapping item st mapping)
| reach_unmapped st item :
    Reachable db st → Reachable db (unmapped item st).

End Invocation.

(** No active row of [rawMaterials] has this id: the id is not a local id
    at all (an external id, say) or the material is soft-deleted. *)
Definition notInInventory (db : DB) (id : Z) : Prop :=
  ∀ m, m ∈ rawMaterials db → rm_id m = id → rm_isActive m = false.

(** What the processing loop leaves alone in the store. *)
Definition sameOrders (db db' : DB) : Prop :=
  processedOrders db' = processedOrders db ∧
  materialProductMappings db' = materialProductMappings db ∧
  purchaseOrders db' = purchaseOrders db ∧
  purchaseOrderItems db' = purchaseOrderItems db.

Definition alreadyProcessedError : string :=
  "This order has already been processed for inventory".

Record Report := {
  results : list DeductionResult;
  unmappedItems : list UnmappedItem;
  skippedItems : list SkippedItem;
  failedUpdates : list FailedUpdate
}.

(** [ServerError] is the answer of the [catch] of the route: status 500
    with the message of the error. *)
Inductive Response :=
| Success (report : Report)
| AlreadyProcessed (status : Z) (error : string) (processedAt : Z)
| ServerError.

(** The route; [now] is the time of the request.  The store refuses the
    query of [getProcessedOrder] for an [orderId] that is no [integer]. *)
Definition processOrderStock (now : Z) (body : Body) (db : DB) : Response * DB :=
  if negb (int4 (orderId body)) then (ServerError, db)
  else
    match getProcessedOrder (orderId body) db with
    | Some existingProcessed =>
        (AlreadyProcessed 400 alreadyProcessedError (pr_processedAt existingProcessed),
         db)
    | None =>
        match processLineItems body db with
        | JS.Thrown st => (ServerError, run_db st)
        | JS.Normal st =>
            match markOrderProcessed now (orderId body) (Some (orderNumber body))
                                     (run_db st) with
            | (None, db) => (ServerError, db)
            | (Some _, db) =>
                (Success {| results := run_results st;
                            unmappedItems := run_unmappedItems st;
                            skippedItems := run_skippedItems st;
                            failedUpdates := run_failedUpdates st |}, db)
            end
        end
    end.

End OrderStock.

(** ** Purchase order receiving (POST /api/purchase-orders/:id/receive) *)

Module Receiving.

Record ReceiptResult := {
  rr_itemId : Z;
  rr_materialName : string;
  rr_quantityReceived : Z;
  rr_previousStock : Z;
  rr_newStock : Z
}.

(** The loop state: the store, [results] and [validatedReceipts]. *)
Record Run := {
  run_db : DB;
  run_results : list ReceiptResult;
  run_validatedReceipts : list ItemReceipt
}.

Section Route.

(** The purchase order as fetched before the loop. *)
Variable order : PurchaseOrderWithDetails.

Definition ledgerValues (item : PurchaseOrderItem) (materialVariationId : option Z)
    (quantityToReceive previousStock newStock : Z) : InsertStockLedger :=
  {| sl_materialProductId := poi_materialProductId item;
     sl_materialVariationId := materialVariationId;
     sl_orderId := None;
     sl_orderNumber := Some (po_poNumber (pd_row order));
     sl_quantityChange := quantityToReceive;
     sl_previousStock := Some previousStock;
     sl_newStock := Some newStock;
     sl_reason := "purchase_order";
     sl_notes := Some ("PO " +:+ po_poNumber (pd_row order) +:+ " - "
                       +:+ poi_materialName item +:+ " received") |}.

(** The ledger insert of a receipt.  The table accepts the row: when the
    insert is reached, [newStock] has just been accepted by the stock update,
    [previousStock] was read from the store, [quantityToReceive] is positive
    and at most [quantityOrdered - quantityReceived] of a line of the store,
    whose [quantityReceived] the routes never make negative, and the PO
    number comes from a [varchar(50)] column. *)
Definition recordReceipt (values : InsertStockLedger) (db : DB) : DB :=
  (insertStockLedger values db).2.

(** The branch [if (item.materialVariationId)] of one accepted receipt;
    [None] where the stock update throws. *)
Definition stockInVariation (item : PurchaseOrderItem) (materialVariationId : Z)
    (quantityToReceive : Z) (db : DB) : option (ReceiptResult * DB) :=
  let variation := getLocalRawMaterialVariation materialVariationId db in
  let previousStock := JS.orZero (variation ≫= rv_stockQuantity) in
  let newStock := previousStock + quantityToReceive in
  match updateLocalRawMaterialVariationStock materialVariationId newStock db with
  | (None, _) => None
  | (Some _, db) =>
      let db := recordReceipt (ledgerValues item (Some materialVariationId)
                                            quantityToReceive previousStock newStock)
                              db in
      Some ({| rr_itemId := poi_id item; rr_materialName := poi_materialName item;
               rr_quantityReceived := quantityToReceive;
               rr_previousStock := previousStock; rr_newStock := newStock |}, db)
  end.

(** The [else] branch. *)
Definition stockInMaterial (item : PurchaseOrderItem) (quantityToReceive : Z) (db : DB)
    : option (ReceiptResult * DB) :=
  let material := getLocalRawMaterial (poi_materialProductId item) db in
  let previousStock := JS.orZero (material ≫= lm_stockQuantity) in
  let newStock := previousStock + quantityToReceive in
  match updateLocalRawMaterialStock (poi_materialProductId item) newStock db with
  | (None, _) => None
  | (Some _, db) =>
      let db := recordReceipt (ledgerValues item None quantityToReceive previousStock
                                            newStock) db in
      Some ({| rr_itemId := poi_id item; rr_materialName := poi_materialName item;
               rr_quantityReceived := quantityToReceive;
               rr_previousStock := previousStock; rr_newStock := newStock |}, db)
  end.

(** The stock update and ledger entry of one accepted receipt. *)
Definition stockIn (item : PurchaseOrderItem) (quantityToReceive : Z) (db : DB)
    : option (ReceiptResult * DB) :=
  match poi_materialVariationId item with
  | Some materialVariationId =>
      if JS.truthy (poi_materialVariationId item)
      then stockInVariation item materialVariationId quantityToReceive db
      else stockInMaterial item quantityToReceive db
  | None => stockInMaterial item quantityToReceive db
  end.

(** The body of [for (const receipt of validated.items)]; a stock update
    that throws ends the loop. *)
Definition receiveOne (st : Run) (receipt : ItemReceipt) : JS.Outcome Run :=
  match JS.find (λ i, bool_decide (poi_id i = rc_itemId receipt)) (pd_items order) with
  | None => JS.Normal st
  | Some item =>
      if rc_quantityReceived receipt <=? 0 then JS.Normal st
      else
        let remainingToReceive := poi_quantityOrdered item - poi_quantityReceived item in
        let quantityToReceive := Z.min (rc_quantityReceived receipt) remainingToReceive in
        if quantityToReceive <=? 0 then JS.Normal st
        else
          match stockIn item quantityToReceive (run_db st) with
          | None => JS.Thrown st
          | Some (result, db) =>
              JS.Normal
                {| run_db := db;
                   run_results := run_results st ++ [result];
                   run_validatedReceipts := run_validatedReceipts st ++
                     [{| rc_itemId := rc_itemId receipt;
                         rc_quantityReceived := quantityToReceive |}] |}
          end
  end.

Definition receiveAll (items : list ItemReceipt) (db : DB) : JS.Outcome Run :=
  JS.forOf receiveOne
           {| run_db := db; run_results := []; run_validatedReceipts := [] |} items.

End Route.

(** [ServerError] is the answer 500 of the [catch] of the route, with the
    message of the error. *)
Inductive Response :=
| Received (order : PurchaseOrderWithDetails) (results : list ReceiptResult)
| Failed (status : Z) (error : string)
| ServerError.

(** The position of a status in the receiving lifecycle
    draft, ordered, partially_received, received; [cancelled] is terminal. *)
Definition statusRank (status : PurchaseOrderStatus) : Z :=
  match status with
  | draft => 0
  | ordered => 1
  | partially_received => 2
  | received => 3
  | cancelled => 4
  end.

(** [receiveItemsRequestSchema]: every quantity is at least 0. *)
Definition validRequest (items : list ItemReceipt) : bool :=
  forallb (λ receipt, 0 <=? rc_quantityReceived receipt) items.

(** The route; [now] is the time of the request. *)
Definition receive (now : Z) (id : Z) (items : list ItemReceipt) (db : DB)
    : Response * DB :=
  if negb (validRequest items) then (Failed 400 "Invalid receive data", db)
  else
    match getPurchaseOrder id db with
    | None => (Failed 404 "Purchase order not found", db)
    | Some order =>
        match po_status (pd_row order) with
        | cancelled => (Failed 400 "Cannot receive items for a cancelled order", db)
        | received => (Failed 400 "This order has already been fully received", db)
        | _ =>
            match receiveAll order items db with
            | JS.Thrown st => (ServerError, run_db st)
            | JS.Normal st =>
                match receivePurchaseOrderItems now id (run_validatedReceipts st)
                                                (run_db st) with
                | (Some updatedOrder, db) =>
                    (Received updatedOrder (run_results st), db)
                | (None, db) => (ServerError, db)
                end
            end
        end
    end.

End Receiving.

(** ** Manual stock adjustments
    (POST add-stock and set-stock, under /api/local-materials and under
    /api/raw-materials) *)

Module StockAdjust.

(** The two families of routes do the same work with other wording.  The
    amount of a request ([quantity], [newStockLevel]) is the number that the
    body carries.  For a body whose amount is no number the local-materials
    routes answer 400 ([typeof] guard); the raw-materials routes have no such
    guard and go on with the value as it is (a text is concatenated to the
    stock by [+]), which is not modelled: what is stated of the raw-materials
    routes is stated of bodies that carry a number. *)
Inductive Family :=
| LocalMaterials
| RawMaterials.

Definition addReason (family : Family) : string :=
  match family with
  | LocalMaterials => "manual"
  | RawMaterials => "stock_in"
  end.

Definition addNotes (family : Family) : string :=
  match family with
  | LocalMaterials => "Stock added manually"
  | RawMaterials => "Stock received from supplier"
  end.

Definition setNotes (family : Family) : string :=
  match family with
  | LocalMaterials => "Stock level set during stock take"
  | RawMaterials => "Stock take adjustment"
  end.

Definition levelError (family : Family) : string :=
  match family with
  | LocalMaterials => "Stock level must be a non-negative number"
  | RawMaterials => "New stock level must be a non-negative number"
  end.

(** [ServerError] is the answer 500 of the [catch] of a route, with the
    message of the error. *)
Inductive Response :=
| Adjusted (previousStock : Z) (quantityChange : Z) (newStock : Z)
| Rejected (status : Z) (error : string)
| ServerError.

Definition manualValues (materialProductId : Z) (materialVariationId : option Z)
    (quantityChange previousStock newStock : Z) (reason : string) (notes : string)
    : InsertStockLedger :=
  {| sl_materialProductId := materialProductId;
     sl_materialVariationId := materialVariationId;
     sl_orderId := None;
     sl_orderNumber := None;
     sl_quantityChange := quantityChange;
     sl_previousStock := Some previousStock;
     sl_newStock := Some newStock;
     sl_reason := reason;
     sl_notes := Some notes |}.

(** [notes || fallback] *)
Definition notesOr (notes : option string) (fallback : string) : string :=
  match notes with
  | Some n => if bool_decide (n = "") then fallback else n
  | None => fallback
  end.

(** The two writes of a manual adjustment, and the answer: the stock
    update, then the ledger insert.  An error of either reaches the [catch]
    of the route; the stock update is not undone when the insert throws. *)
Definition adjustMaterial (id : Z) (values : InsertStockLedger)
    (previousStock quantityChange newStock : Z) (db : DB) : Response * DB :=
  match updateLocalRawMaterialStock id newStock db with
  | (None, db) => (ServerError, db)
  | (Some _, db) =>
      match createStockLedgerEntry values db with
      | (None, db) => (ServerError, db)
      | (Some _, db) => (Adjusted previousStock quantityChange newStock, db)
      end
  end.

Definition adjustVariation (variationId : Z) (values : InsertStockLedger)
    (previousStock quantityChange newStock : Z) (db : DB) : Response * DB :=
  match updateLocalRawMaterialVariationStock variationId newStock db with
  | (None, db) => (ServerError, db)
  | (Some _, db) =>
      match createStockLedgerEntry values db with
      | (None, db) => (ServerError, db)
      | (Some _, db) => (Adjusted previousStock quantityChange newStock, db)
      end
  end.

(** POST /api/local-materials/:id/add-stock and
    POST /api/raw-materials/:productId/add-stock *)
Definition addStock (family : Family) (id : Z) (quantity : Z) (notes : option string)
    (db : DB) : Response * DB :=
  if quantity <=? 0 then (Rejected 400 "Quantity must be a positive number", db)
  else
    match getLocalRawMaterial id db with
    | None => (Rejected 404 "Material not found", db)
    | Some material =>
        let previousStock := JS.orZero (lm_stockQuantity material) in
        let newStock := previousStock + quantity in
        adjustMaterial id
          (manualValues id None quantity previousStock newStock
                        (addReason family) (notesOr notes (addNotes family)))
          previousStock quantity newStock db
    end.

(** POST /api/local-materials/:id/set-stock and
    POST /api/raw-materials/:productId/set-stock *)
Definition setStock (family : Family) (id : Z) (newStockLevel : Z)
    (notes : option string) (db : DB) : Response * DB :=
  if newStockLevel <? 0 then (Rejected 400 (levelError family), db)
  else
    match getLocalRawMaterial id db with
    | None => (Rejected 404 "Material not found", db)
    | Some material =>
        let previousStock := JS.orZero (lm_stockQuantity material) in
        let quantityChange := newStockLevel - previousStock in
        adjustMaterial id
          (manualValues id None quantityChange previousStock newStockLevel
                        "stock_take" (notesOr notes (setNotes family)))
          previousStock quantityChange newStockLevel db
    end.

(** The variation of the two variation routes: the local-materials routes
    require the material to exist and to own the variation; the
    raw-materials routes look the variation up by id alone. *)
Definition lookupVariation (family : Family) (materialId variationId : Z) (db : DB)
    : RawMaterialVariation + Response :=
  match family with
  | LocalMaterials =>
      match getLocalRawMaterial materialId db with
      | None => inr (Rejected 404 "Material not found")
      | Some _ =>
          match getLocalRawMaterialVariation variationId db with
          | Some variation =>
              if bool_decide (rv_materialId variation = materialId) then inl variation
              else inr (Rejected 404 "Variation not found")
          | None => inr (Rejected 404 "Variation not found")
          end
      end
  | RawMaterials =>
      match getLocalRawMaterialVariation variationId db with
      | Some variation => inl variation
      | None => inr (Rejected 404 "Variation not found")
      end
  end.

(** POST .../:materialId/variations/:variationId/add-stock *)
Definition addVariationStock (family : Family) (materialId variationId : Z)
    (quantity : Z) (notes : option string) (db : DB) : Response * DB :=
  if quantity <=? 0 then (Rejected 400 "Quantity must be a positive number", db)
  else
    match lookupVariation family materialId variationId db with
    | inr response => (response, db)
    | inl variation =>
        let previousStock := JS.orZero (rv_stockQuantity variation) in
        let newStock := previousStock + quantity in
        adjustVariation variationId
          (manualValues materialId (Some variationId) quantity previousStock
                        newStock (addReason family) (notesOr notes (addNotes family)))
          previousStock quantity newStock db
    end.

(** POST .../:materialId/variations/:variationId/set-stock *)
Definition setVariationStock (family : Family) (materialId variationId : Z)
    (newStockLevel : Z) (notes : option string) (db : DB) : Response * DB :=
  if newStockLevel <? 0 then (Rejected 400 (levelError family), db)
  else
    match lookupVariation family materialId variationId db with
    | inr response => (response, db)
    | inl variation =>
        let previousStock := JS.orZero (rv_stockQuantity variation) in
        let quantityChange := newStockLevel - previousStock in
        adjustVariation variationId
          (manualValues materialId (Some variationId) quantityChange
                        previousStock newStockLevel "stock_take"
                        (notesOr notes (setNotes family)))
          previousStock quantityChange newStockLevel db
    end.

End StockAdjust.

(** ** The ledger consistency invariant *)

Module Ledger.

(** The record whose stock a ledger entry accounts for: the variation when
    the entry names one, the parent material otherwise. *)
Inductive Target :=
| Material (id : Z)
| Variation (id : Z).

#[global] Instance Target_eq_dec : EqDecision Target.
Proof. solve_decision. Defined.

Definition target (e : InsertStockLedger) : Target :=
  match sl_materialVariationId e with
  | Some variationId => Variation variationId
  | None => Material (sl_materialProductId e)
  end.

(** The [stockQuantity] column of the target's row, when the row exists. *)
Definition stockOf (db : DB) (t : Target) : option (option Z) :=
  match t with
  | Material id =>
      rm_stockQuantity <$>
        head (List.filter (λ m, bool_decide (rm_id m = id)) (rawMaterials db))
  | Variation id => rv_stockQuantity <$> getLocalRawMaterialVariation id db
  end.

(** The most recent ledger entry of a target. *)
Definition lastEntry (t : Target) (ledger : list StockLedgerEntry)
    : option StockLedgerEntry :=
  last (List.filter (λ e, bool_decide (target (sl_values e) = t)) ledger).

Definition consistentAt (db : DB) (t : Target) : bool :=
  match lastEntry t (stockLedger db), stockOf db t with
  | Some e, Some stock => bool_decide (stock = sl_newStock (sl_values e))
  | _, _ => true
  end.

(** For every material and variation that has ledger entries,
    [stockQuantity] is the [newStock] of the most recent one. *)
Definition consistent (db : DB) : Prop :=
  ∀ t, consistentAt db t = true.

(** [newStock = previousStock + quantityChange] *)
Definition balanced (e : StockLedgerEntry) : Prop :=
  ∃ previousStock newStock,
    sl_previousStock (sl_values e) = Some previousStock ∧
    sl_newStock (sl_values e) = Some newStock ∧
    newStock = previousStock + sl_quantityChange (sl_values e).

(** The stock update of a mutation on the target [t], once accepted. *)
Definition writeStock (t : Target) (newStock : Z) (db : DB) : DB :=
  match t with
  | Material id => storeMaterialStock id newStock db
  | Variation id => storeVariationStock id newStock db
  end.

(** The record that the processor updates for a mapping: the variation
    when the mapping names one and it was found among the loaded variations,
    the parent material otherwise. *)
Definition deductionTarget (mapping : MaterialProductMapping)
    (variation : option RawMaterialVariation) : Target :=
  match OrderStock.variationTarget mapping variation with
  | Some (materialVariationId, _) => Variation materialVariationId
  | None => Material (mp_materialProductId mapping)
  end.

(** A mapping whose ledger entry is filed under the record that the
    processor updates: it names no variation, or it names a variation (with
    a truthy id) and the material was loaded with its variations. *)
Definition aligned (material : LocalRawMaterialWithVariations)
    (mapping : MaterialProductMapping) : Prop :=
  match mp_materialVariationId mapping with
  | None => True
  | Some materialVariationId =>
      materialVariationId ≠ 0 ∧ is_Some (lm_variations material)
  end.

End Ledger.

(** ** Scenarios
    Concrete catalogs, orders and stores on which the routes are run. *)

Module Scenario.

Definition simpleMaterial (id : Z) (name : string) (stock : Z) (manageStock : bool)
    : RawMaterial :=
  {| rm_id := id; rm_woocommerceId := None; rm_name := name; rm_type := "simple";
     rm_stockQuantity := Some stock; rm_manageStock := manageStock;
     rm_isActive := true |}.

Definition withoutVariations (row : RawMaterial) : LocalRawMaterialWithVariations :=
  {| lm_row := row; lm_variations := None |}.

Definition mapping (id productId : Z) (variationId : option Z)
    (materialProductId : Z) (materialVariationId : option Z) (quantityUsed : Z)
    : MaterialProductMapping :=
  {| mp_id := id; mp_productId := productId; mp_variationId := variationId;
     mp_materialProductId := materialProductId;
     mp_materialVariationId := materialVariationId;
     mp_quantityUsed := quantityUsed |}.

(** A line item of a simple product: WooCommerce sends [variation_id: 0]. *)
Definition simpleItem (productId quantity : Z) : LineItem :=
  {| li_product_id := productId; li_variation_id := Some 0;
     li_quantity := quantity; li_name := "Frame" |}.

Definition order (id : Z) (status : string) (created : Z) (items : list LineItem)
    : Order :=
  {| ord_id := id; ord_status := status; ord_date_created := created;
     ord_line_items := items |}.

(** Material M with 10 units in stock, stock managed; product 100 uses 6
    units of it. *)
Definition materialM : LocalRawMaterialWithVariations :=
  withoutVariations (simpleMaterial 1 "M" 10 true).

Definition sixOfM : MaterialProductMapping := mapping 1 100 None 1 None 6.

(** Order #500 of the store below: three units of product 100, which uses
    two units of material X each, and one unit of the unmapped product 200. *)
Definition materialX : RawMaterial := simpleMaterial 1 "X" 20 true.

Definition stockedDB : DB :=
  {| rawMaterials := [materialX]; rawMaterialVariations := [];
     materialProductMappings := [mapping 1 100 None 1 None 2]; stockLedger := [];
     processedOrders := []; purchaseOrders := []; purchaseOrderItems := [] |}.

(** Purchase order 1 on material X: one line, 20 units ordered, none
    received yet. *)
Definition lineOf20 : PurchaseOrderItem :=
  {| poi_id := 1; poi_purchaseOrderId := 1; poi_materialProductId := 1;
     poi_materialVariationId := None; poi_materialName := "X";
     poi_quantityOrdered := 20; poi_quantityReceived := 0 |}.

Definition purchaseDB : DB :=
  {| rawMaterials := [materialX]; rawMaterialVariations := [];
     materialProductMappings := []; stockLedger := [];
     processedOrders := [];
     purchaseOrders := [{| po_id := 1; po_poNumber := "PO-2026-0001";
                           po_status := ordered; po_receivedDate := None |}];
     purchaseOrderItems := [lineOf20] |}.

(** Material "Cord" whose only variation, 7, is soft-deleted, with the
    stock-take entries that set the two stock levels, and product 100 mapped
    to variation 7. *)
Definition cord : RawMaterial :=
  {| rm_id := 1; rm_woocommerceId := None; rm_name := "Cord"; rm_type := "variable";
     rm_stockQuantity := Some 10; rm_manageStock := true; rm_isActive := true |}.

Definition cordBlack : RawMaterialVariation :=
  {| rv_id := 7; rv_materialId := 1; rv_woocommerceId := None; rv_name := "Black";
     rv_stockQuantity := Some 5; rv_manageStock := true; rv_isActive := false |}.

Definition stockTake (id materialId : Z) (variationId : option Z) (level : Z)
    : StockLedgerEntry :=
  {| sl_id := id;
     sl_values := StockAdjust.manualValues materialId variationId level 0 level
                    "stock_take" "Stock level set during stock take" |}.

Definition cordDB : DB :=
  {| rawMaterials := [cord]; rawMaterialVariations := [cordBlack];
     materialProductMappings := [mapping 1 100 None 1 (Some 7) 1];
     stockLedger := [stockTake 1 1 None 10; stockTake 2 1 (Some 7) 5];
     processedOrders := []; purchaseOrders := []; purchaseOrderItems := [] |}.

Definition order600 : OrderStock.Body :=
  {| OrderStock.orderId := 600; OrderStock.orderNumber := "600";
     OrderStock.lineItems := [simpleItem 100 3] |}.

(** Material "Glue": out of stock, stock not managed; product 300 uses one
    unit of it. *)
Definition glue : RawMaterial := simpleMaterial 2 "Glue" 0 false.

Definition glueDB : DB :=
  {| rawMaterials := [glue]; rawMaterialVariations := [];
     materialProductMappings := [mapping 1 300 None 2 None 1]; stockLedger := [];
     processedOrders := []; purchaseOrders := []; purchaseOrderItems := [] |}.

Definition order700 : OrderStock.Body :=
  {| OrderStock.orderId := 700; OrderStock.orderNumber := "700";
     OrderStock.lineItems := [simpleItem 300 1] |}.

Definition receipt (itemId quantity : Z) : ItemReceipt :=
  {| rc_itemId := itemId; rc_quantityReceived := quantity |}.

(** Material "Foil" is oversold: its stock is 3 below zero. *)
Definition foil : LocalRawMaterialWithVariations :=
  withoutVariations (simpleMaterial 3 "Foil" (-3) true).

(** Material X was imported from the external catalog as product 9001;
    material "Old" is soft-deleted. Product 110 is mapped to X by its
    external id, product 111 to "Old". *)
Definition importedX : RawMaterial :=
  {| rm_id := 1; rm_woocommerceId := Some 9001; rm_name := "X"; rm_type := "simple";
     rm_stockQuantity := Some 20; rm_manageStock := true; rm_isActive := true |}.

Definition old : RawMaterial :=
  {| rm_id := 2; rm_woocommerceId := None; rm_name := "Old"; rm_type := "simple";
     rm_stockQuantity := Some 8; rm_manageStock := true; rm_isActive := false |}.

Definition byExternalId : MaterialProductMapping := mapping 1 110 None 9001 None 1.
Definition toDeleted : MaterialProductMapping := mapping 2 111 None 2 None 1.

Definition orphanDB : DB :=
  {| rawMaterials := [importedX; old]; rawMaterialVariations := [];
     materialProductMappings := [byExternalId; toDeleted]; stockLedger := [];
     processedOrders := []; purchaseOrders := []; purchaseOrderItems := [] |}.

Definition order800 : OrderStock.Body :=
  {| OrderStock.orderId := 800; OrderStock.orderNumber := "800";
     OrderStock.lineItems := [simpleItem 110 1; simpleItem 111 1] |}.

(** Product 100 is mapped to material X for its variation 55 only; order
    #900 has three units of product 100 without a variation. *)
Definition forVariation55 : MaterialProductMapping := mapping 1 100 (Some 55) 1 None 2.

Definition variantOnlyDB : DB :=
  {| rawMaterials := [materialX]; rawMaterialVariations := [];
     materialProductMappings := [forVariation55]; stockLedger := [];
     processedOrders := []; purchaseOrders := []; purchaseOrderItems := [] |}.

Definition order900 : OrderStock.Body :=
  {| OrderStock.orderId := 900; OrderStock.orderNumber := "900";
     OrderStock.lineItems := [simpleItem 100 3] |}.

Definition order500 : OrderStock.Body :=
  {| OrderStock.orderId := 500; OrderStock.orderNumber := "500";
     OrderStock.lineItems := [simpleItem 100 3; simpleItem 200 1] |}.

End Scenario.

(** ** Soft deletion
    (DELETE /api/local-materials/:id and
    DELETE /api/local-material-variations/:id; the routes call the storage
    function and answer 204) *)

Module SoftDelete.

Definition setMaterialActive (isActive : bool) (m : RawMaterial) : RawMaterial :=
  {| rm_id := rm_id m; rm_woocommerceId := rm_woocommerceId m; rm_name := rm_name m;
     rm_type := rm_type m; rm_stockQuantity := rm_stockQuantity m;
     rm_manageStock := rm_manageStock m; rm_isActive := isActive |}.

Definition setVariationActive (isActive : bool) (v : RawMaterialVariation)
    : RawMaterialVariation :=
  {| rv_id := rv_id v; rv_materialId := rv_materialId v;
     rv_woocommerceId := rv_woocommerceId v; rv_name := rv_name v;
     rv_stockQuantity := rv_stockQuantity v; rv_manageStock := rv_manageStock v;
     rv_isActive := isActive |}.

Definition deleteLocalRawMaterial (id : Z) (db : DB) : DB :=
  with_rawMaterials
    (updateWhere (λ m, bool_decide (rm_id m = id)) (setMaterialActive false)
                 (rawMaterials db)) db.

Definition deleteLocalRawMaterialVariation (id : Z) (db : DB) : DB :=
  with_rawMaterialVariations
    (updateWhere (λ v, bool_decide (rv_id v = id)) (setVariationActive false)
                 (rawMaterialVariations db)) db.

End SoftDelete.

(** ** Direct stock updates
    (PATCH /api/local-materials/:id/stock and
    PATCH /api/local-material-variations/:id/stock) *)

Module DirectStock.

(** [ServerError] is the answer 500 of the [catch] of a route, with the
    message of the error. *)
Inductive Response (Row : Type) :=
| Updated (row : Row)
| Rejected (status : Z) (error : string)
| ServerError.

Arguments Updated {Row} row.
Arguments Rejected {Row} status error.
Arguments ServerError {Row}.

(** [stockQuantity] is [None] for a body whose [stockQuantity] is not a
    number. The update runs before the row is looked at: [row] is the
    first row that [returning()] gives back. *)
Definition patchStock (id : Z) (stockQuantity : option Z) (db : DB)
    : Response RawMaterial * DB :=
  match stockQuantity with
  | None => (Rejected 400 "stockQuantity must be a number", db)
  | Some stockQuantity =>
      match updateLocalRawMaterialStock id stockQuantity db with
      | (None, db) => (ServerError, db)
      | (Some None, db) => (Rejected 404 "Material not found", db)
      | (Some (Some material), db) => (Updated material, db)
      end
  end.

Definition patchVariationStock (id : Z) (stockQuantity : option Z) (db : DB)
    : Response RawMaterialVariation * DB :=
  match stockQuantity with
  | None => (Rejected 400 "stockQuantity must be a number", db)
  | Some stockQuantity =>
      match updateLocalRawMaterialVariationStock id stockQuantity db with
      | (None, db) => (ServerError, db)
      | (Some None, db) => (Rejected 404 "Variation not found", db)
      | (Some (Some variation), db) => (Updated variation, db)
      end
  end.

(** The [newStock] of the most recent ledger entry of a target. *)
Definition latestNewStock (db : DB) (t : Ledger.Target) : option (option Z) :=
  (λ e, sl_newStock (sl_values e)) <$> Ledger.lastEntry t (stockLedger db).

End DirectStock.

(** ** Ledger listing (GET /api/stock-ledger) *)

Module LedgerListing.

(** [createdAt] is the time of the insert, so [orderBy(createdAt)] gives the
    rows in order of creation, which is the order of the table. A negative
    [limit] is refused by PostgreSQL and is outside the model. *)
Definition getStockLedgerEntries (materialProductId : option Z) (limit : Z) (db : DB)
    : list StockLedgerEntry :=
  match materialProductId with
  | Some id =>
      if JS.truthy materialProductId then
        take (Z.to_nat limit)
             (List.filter (λ e, bool_decide (sl_materialProductId (sl_values e) = id))
                          (stockLedger db))
      else take (Z.to_nat limit) (stockLedger db)
  | None => take (Z.to_nat limit) (stockLedger db)
  end.

(** The route: the two query parameters as parsed, [None] when absent. *)
Definition ledgerRoute (materialProductId limit : option Z) (db : DB)
    : list StockLedgerEntry :=
  getStockLedgerEntries materialProductId (default 100 limit) db.

End LedgerListing.

(** ** Purchase order maintenance
    (DELETE /api/purchase-orders/:id and PATCH /api/purchase-orders/:id/status) *)

Module PurchaseOrders.

Definition deletePurchaseOrder (id : Z) (db : DB) : DB :=
  let db :=
    with_purchaseOrderItems
      (List.filter (λ i, negb (bool_decide (poi_purchaseOrderId i = id)))
                   (purchaseOrderItems db)) db in
  with_purchaseOrders
    (List.filter (λ po, negb (bool_decide (po_id po = id))) (purchaseOrders db)) db.

Inductive Response :=
| Deleted
| Updated (order : option PurchaseOrderWithDetails)
| Failed (status : Z) (error : string).

Definition deleteError : string :=
  "Only draft or cancelled purchase orders can be deleted".

(** DELETE /api/purchase-orders/:id *)
Definition deleteOrder (id : Z) (db : DB) : Response * DB :=
  match getPurchaseOrder id db with
  | None => (Failed 404 "Purchase order not found", db)
  | Some order =>
      if bool_decide (po_status (pd_row order) ≠ draft) &&
         bool_decide (po_status (pd_row order) ≠ cancelled)
      then (Failed 400 deleteError, db)
      else (Deleted, deletePurchaseOrder id db)
  end.

(** [updatePurchaseOrder(id, { status })], the call of the status route:
    [status] is the only column set (besides [updatedAt], which the model
    does not hold) and no items are passed. *)
Definition updatePurchaseOrder (id : Z) (status : PurchaseOrderStatus) (db : DB)
    : option PurchaseOrderWithDetails * DB :=
  let db :=
    with_purchaseOrders
      (updateWhere (λ po, bool_decide (po_id po = id))
                   (λ po, setStatus status (po_receivedDate po) po)
                   (purchaseOrders db)) db in
  match head (List.filter (λ po, bool_decide (po_id po = id)) (purchaseOrders db)) with
  | None => (None, db)
  | Some updatedPO => (getPurchaseOrder id db, db)
  end.

(** [validStatuses.includes(status)], with the status that the text names. *)
Definition validStatus (status : string) : option PurchaseOrderStatus :=
  if bool_decide (status = "draft") then Some draft
  else if bool_decide (status = "ordered") then Some ordered
  else if bool_decide (status = "partially_received") then Some partially_received
  else if bool_decide (status = "received") then Some received
  else if bool_decide (status = "cancelled") then Some cancelled
  else None.

(** PATCH /api/purchase-orders/:id/status *)
Definition patchStatus (id : Z) (status : string) (db : DB) : Response * DB :=
  match validStatus status with
  | None => (Failed 400 "Invalid status", db)
  | Some status =>
      match getPurchaseOrder id db with
      | None => (Failed 404 "Purchase order not found", db)
      | Some order =>
          let '(updatedOrder, db) := updatePurchaseOrder id status db in
          (Updated updatedOrder, db)
      end
  end.

End PurchaseOrders.

(** ** Predicates and measures in which the properties of the routes are
    stated *)

Module Reports.

(** The ledger entry [e] is the one that the deduction [r] of an invocation
    for [body] reports. *)
Definition deductionRecorded (body : OrderStock.Body) (r : OrderStock.DeductionResult)
    (e : StockLedgerEntry) : Prop :=
  sl_id e = OrderStock.dr_ledgerEntryId r ∧
  sl_materialProductId (sl_values e) = OrderStock.dr_materialId r ∧
  sl_materialVariationId (sl_values e) = OrderStock.dr_materialVariationId r ∧
  sl_orderId (sl_values e) = Some (OrderStock.orderId body) ∧
  sl_reason (sl_values e) = "order" ∧
  sl_quantityChange (sl_values e) = - OrderStock.dr_quantityDeducted r ∧
  sl_previousStock (sl_values e) = Some (OrderStock.dr_previousStock r) ∧
  sl_newStock (sl_values e) = Some (OrderStock.dr_newStock r) ∧
  OrderStock.dr_newStock r
  = OrderStock.dr_previousStock r - OrderStock.dr_quantityDeducted r.

(** The ledger entry [e] is the one that the receipt [r] on the purchase
    order [order] reports. *)
Definition receiptRecorded (order : PurchaseOrderWithDetails)
    (r : Receiving.ReceiptResult) (e : StockLedgerEntry) : Prop :=
  sl_orderNumber (sl_values e) = Some (po_poNumber (pd_row order)) ∧
  sl_reason (sl_values e) = "purchase_order" ∧
  sl_quantityChange (sl_values e) = Receiving.rr_quantityReceived r ∧
  sl_previousStock (sl_values e) = Some (Receiving.rr_previousStock r) ∧
  sl_newStock (sl_values e) = Some (Receiving.rr_newStock r) ∧
  Receiving.rr_newStock r
  = Receiving.rr_previousStock r + Receiving.rr_quantityReceived r.

(** The receipt [r] is for a pair of the request [items] and a line of
    [order], and its quantity is positive, at most the quantity of the pair
    and at most what remained of the line when the order was fetched. *)
Definition receiptClamped (order : PurchaseOrderWithDetails) (items : list ItemReceipt)
    (r : Receiving.ReceiptResult) : Prop :=
  ∃ receipt line,
    receipt ∈ items ∧ line ∈ pd_items order ∧
    rc_itemId receipt = Receiving.rr_itemId r ∧ poi_id line = Receiving.rr_itemId r ∧
    0 < Receiving.rr_quantityReceived r ∧
    Receiving.rr_quantityReceived r ≤ rc_quantityReceived receipt ∧
    Receiving.rr_quantityReceived r ≤ poi_quantityOrdered line - poi_quantityReceived line.

(** The mappings that the processor looks up for a line item. *)
Definition mappingsOf (db : DB) (item : LineItem) : list MaterialProductMapping :=
  getMaterialMappingsForProduct (li_product_id item) (li_variation_id item) db.

(** The rows of [rawMaterials] with the id [id]. *)
Definition materialRows (id : Z) (db : DB) : list RawMaterial :=
  List.filter (λ m, bool_decide (rm_id m = id)) (rawMaterials db).

(** The rows of [rawMaterialVariations] with the id [id]. *)
Definition variationRows (id : Z) (db : DB) : list RawMaterialVariation :=
  List.filter (λ v, bool_decide (rv_id v = id)) (rawMaterialVariations db).

(** No active row of [rawMaterialVariations] has this id. *)
Definition variationNotInInventory (db : DB) (id : Z) : Prop :=
  ∀ v, v ∈ rawMaterialVariations db → rv_id v = id → rv_isActive v = false.

(** Everything but the purchase order tables is the same in both stores. *)
Definition sameInventory (db db' : DB) : Prop :=
  rawMaterials db' = rawMaterials db ∧
  rawMaterialVariations db' = rawMaterialVariations db ∧
  materialProductMappings db' = materialProductMappings db ∧
  stockLedger db' = stockLedger db ∧
  processedOrders db' = processedOrders db.

(** Every entry's [previousStock] is the [newStock] of the most recent
    earlier entry of the same material or variation, when there is one.
    [chainedFrom earlier ledger] checks the entries of [ledger], which come
    after those of [earlier]. *)
Fixpoint chainedFrom (earlier ledger : list StockLedgerEntry) : bool :=
  match ledger with
  | [] => true
  | e :: later =>
      match Ledger.lastEntry (Ledger.target (sl_values e)) earlier with
      | Some previous =>
          bool_decide (sl_previousStock (sl_values e) = sl_newStock (sl_values previous))
      | None => true
      end && chainedFrom (earlier ++ [e]) later
  end.

Definition chained (ledger : list StockLedgerEntry) : Prop :=
  chainedFrom [] ledger = true.

(** The record that the receive route stocks a line into. *)
Definition lineTarget (line : PurchaseOrderItem) : Ledger.Target :=
  match poi_materialVariationId line with
  | Some variationId =>
      if JS.truthy (poi_materialVariationId line) then Ledger.Variation variationId
      else Ledger.Material (poi_materialProductId line)
  | None => Ledger.Material (poi_materialProductId line)
  end.

(** The stock of a material or variation as the routes read it:
    [stockQuantity || 0], and 0 when the row does not exist. *)
Definition stockLevel (db : DB) (t : Ledger.Target) : Z :=
  JS.orZero (default None (Ledger.stockOf db t)).

(** The total that the results of an invocation of the processor deduct
    from a material. *)
Definition deductedFrom (id : Z) (results : list OrderStock.DeductionResult) : Z :=
  foldr Z.add 0
    (OrderStock.dr_quantityDeducted
       <$> List.filter (λ r, bool_decide (OrderStock.dr_materialId r = id)) results).

(** The total that the results of a receive call report for a line. *)
Definition receivedFor (itemId : Z) (results : list Receiving.ReceiptResult) : Z :=
  foldr Z.add 0
    (Receiving.rr_quantityReceived
       <$> List.filter (λ r, bool_decide (Receiving.rr_itemId r = itemId)) results).

(** The total that the pairs passed to [receivePurchaseOrderItems] carry
    for a line. *)
Definition receiptsFor (itemId : Z) (receipts : list ItemReceipt) : Z :=
  foldr Z.add 0
    (rc_quantityReceived
       <$> List.filter (λ r, bool_decide (rc_itemId r = itemId)) receipts).

(** The line with [quantity] more received. *)
Definition receiveMore (quantity : Z) (line : PurchaseOrderItem) : PurchaseOrderItem :=
  setQuantityReceived (poi_quantityReceived line + quantity) line.

(** The in-memory materials of an invocation of the processor carry the
    stock of the store. *)
Definition mirrored (st : OrderStock.Run) : Prop :=
  ∀ id material,
    OrderStock.run_materialsMap st !! id = Some material →
    Ledger.stockOf (OrderStock.run_db st) (Ledger.Material id)
    = Some (lm_stockQuantity material).

End Reports.

(** ** Further scenarios *)

Module Cases.

Import Scenario.

(** The store [stockedDB] after a stock take that counted 20 units of X. *)
Definition countedDB : DB := with_stockLedger [stockTake 1 1 None 20] stockedDB.

(** The store [purchaseDB] after the same stock take. *)
Definition countedPurchaseDB : DB := with_stockLedger [stockTake 1 1 None 20] purchaseDB.

(** Two orders in an awaiting-fulfillment status, each for one unit of
    product 100, and a completed one. *)
Definition orderA : Order := order 11 "pending" 1 [simpleItem 100 1].
Definition orderB : Order := order 12 "production" 2 [simpleItem 100 1].
Definition orderC : Order := order 13 "completed" 3 [simpleItem 100 1].

(** An order for the unmapped product 200. *)
Definition orderU : Order := order 14 "pending" 4 [simpleItem 200 5].

(** Material "Cord" with its one variation "Black", which holds all its
    10 units. Product 120 uses 10 units of the variation; product 121 uses 10
    units of the material and names no variation. *)
Definition cordWithBlack : LocalRawMaterialWithVariations :=
  {| lm_row := cord;
     lm_variations :=
       Some [{| rv_id := 7; rv_materialId := 1; rv_woocommerceId := None;
                rv_name := "Black"; rv_stockQuantity := Some 10;
                rv_manageStock := true; rv_isActive := true |}] |}.

Definition tenOfBlack : MaterialProductMapping := mapping 1 120 None 1 (Some 7) 10.
Definition tenOfCord : MaterialProductMapping := mapping 2 121 None 1 None 10.

Definition orderBlack : Order := order 21 "pending" 1 [simpleItem 120 1].
Definition orderCord : Order := order 22 "pending" 2 [simpleItem 121 1].

(** A feed that carries the order id 31 twice: first with two units of
    product 100, then with one. *)
Definition order31Twice : list Order :=
  [order 31 "pending" 1000 [simpleItem 100 2]; order 31 "pending" 2000 [simpleItem 100 1]].

(** A store in which material "Foil" is 10 short, with the stock-take entry
    that says so. *)
Definition oversoldDB : DB :=
  {| rawMaterials := [simpleMaterial 3 "Foil" (-10) true]; rawMaterialVariations := [];
     materialProductMappings := [];
     stockLedger :=
       [{| sl_id := 1;
           sl_values := StockAdjust.manualValues 3 None (-10) 0 (-10) "stock_take"
                          "Stock level set during stock take" |}];
     processedOrders := []; purchaseOrders := []; purchaseOrderItems := [] |}.

(** Order #501: three units of product 100, under an order number of 51
    characters. *)
Definition order501 : OrderStock.Body :=
  {| OrderStock.orderId := 501;
     OrderStock.orderNumber := "SHOP-EU/2026/0000000501/REPLACEMENT-FOR/0000000477A";
     OrderStock.lineItems := [simpleItem 100 3] |}.

(** Order #502: two lines of product 100, of 1073741830 units and of one
    unit. *)
Definition order502 : OrderStock.Body :=
  {| OrderStock.orderId := 502; OrderStock.orderNumber := "502";
     OrderStock.lineItems := [simpleItem 100 1073741830; simpleItem 100 1] |}.

(** The store [purchaseDB] with its purchase order still a draft, and after
    12 of the 20 units were received. *)
Definition draftDB : DB :=
  with_purchaseOrders [{| po_id := 1; po_poNumber := "PO-2026-0001";
                          po_status := draft; po_receivedDate := None |}] purchaseDB.

Definition receivedDB : DB := (Receiving.receive 7 1 [receipt 1 12] purchaseDB).2.

End Cases.

(** ** Properties *)

Section NewMap.

Context `{Countable K} {V : Type}.

Lemma foldl_insert_lookup (entries : list (K * V)) (acc : gmap K V) k v :
  foldl (λ m kv, <[kv.1 := kv.2]> m) acc entries !! k = Some v →
  (k, v) ∈ entries ∨ acc !! k = Some v.
Proof.
  revert acc. induction entries as [|[k' v'] entries IH]; intros acc Hl; simpl in *.
  - by right.
  - destruct (IH _ Hl) as [Hin|Hacc].
    + left. rewrite elem_of_cons; by right.
    + destruct (decide (k' = k)) as [->|Hne].
      * rewrite lookup_insert_eq in Hacc. injection Hacc as ->.
        left. rewrite elem_of_cons; by left.
      * rewrite lookup_insert_ne in Hacc by done. by right.
Qed.

Lemma newMap_lookup_elem (entries : list (K * V)) k v :
  JS.newMap entries !! k = Some v → (k, v) ∈ entries.
Proof.
  intros Hl. apply foldl_insert_lookup in Hl as [?|Hl]; [done|].
  by rewrite lookup_empty in Hl.
Qed.

Lemma foldl_insert_is_Some (entries : list (K * V)) (acc : gmap K V) k :
  is_Some (foldl (λ m kv, <[kv.1 := kv.2]> m) acc entries !! k) ↔
  k ∈ entries.*1 ∨ is_Some (acc !! k).
Proof.
  revert acc. induction entries as [|[k' v'] entries IH]; intros acc; simpl.
  - split; [by right|]. intros [Hin|?]; [|done]. by apply elem_of_nil in Hin.
  - rewrite IH. rewrite elem_of_cons. destruct (decide (k' = k)) as [->|Hne].
    + rewrite lookup_insert_eq. split; intros _; [by left; left | right; eauto].
    + rewrite lookup_insert_ne by done. split; intros [?|?]; auto.
      * destruct H0 as [?|?]; [congruence|by left].
Qed.

End NewMap.

Section IdNormalizer.

Variable localMaterials : list LocalRawMaterialWithVariations.

Lemma materialsByLocalId_id id m :
  Fulfillment.materialsByLocalId localMaterials !! id = Some m → lm_id m = id.
Proof.
  intros Hl. apply newMap_lookup_elem in Hl.
  apply list_elem_of_fmap in Hl as (m' & Heq & _). by inversion Heq.
Qed.

Lemma materialsByLocalId_member m :
  m ∈ localMaterials →
  is_Some (Fulfillment.materialsByLocalId localMaterials !! lm_id m).
Proof.
  intros Hin. unfold Fulfillment.materialsByLocalId, JS.newMap.
  apply foldl_insert_is_Some. left.
  rewrite <- list_fmap_compose. apply list_elem_of_fmap. by exists m.
Qed.

Lemma materialsByWooId_member k m :
  Fulfillment.materialsByWooId localMaterials !! k = Some m → m ∈ localMaterials.
Proof.
  intros Hl. apply newMap_lookup_elem in Hl.
  apply list_elem_of_fmap in Hl as (m' & Heq & Hin). by inversion Heq; subst.
Qed.

(** C9. [normalizeId] is idempotent for every id: a canonical local id and
    an id that matches neither map are returned as they are, and a legacy
    external id is sent to a local id, which is then a fixed point. *)
Theorem normalizeId_idempotent (x : Z) :
  Fulfillment.normalizeId localMaterials (Fulfillment.normalizeId localMaterials x)
  = Fulfillment.normalizeId localMaterials x ∧
  (Fulfillment.materialsByLocalId localMaterials !! x = None →
   Fulfillment.materialsByWooId localMaterials !! Some x = None →
   Fulfillment.normalizeId localMaterials x = x).
Proof.
  split.
  - unfold Fulfillment.normalizeId at 2 3.
    destruct (Fulfillment.materialsByLocalId localMaterials !! x) as [byLocal|] eqn:Hloc.
    + apply materialsByLocalId_id in Hloc as Hid. rewrite Hid.
      unfold Fulfillment.normalizeId. by rewrite Hloc.
    + destruct (Fulfillment.materialsByWooId localMaterials !! Some x) as [byWoo|] eqn:Hwoo.
      * apply materialsByWooId_member in Hwoo.
        destruct (materialsByLocalId_member _ Hwoo) as [m Hm].
        unfold Fulfillment.normalizeId. rewrite Hm.
        by apply materialsByLocalId_id in Hm.
      * unfold Fulfillment.normalizeId. by rewrite Hloc, Hwoo.
  - intros Hloc Hwoo. unfold Fulfillment.normalizeId. by rewrite Hloc, Hwoo.
Qed.

End IdNormalizer.

Section IdNormalizerWitness.

Import Scenario.

Lemma normalizeId_idempotent_witness :
  Fulfillment.normalizeId (getLocalRawMaterials orphanDB) 4242 = 4242.
Proof.
  apply (proj2 (normalizeId_idempotent (getLocalRawMaterials orphanDB) 4242));
    vm_compute; reflexivity.
Defined.

End IdNormalizerWitness.



(** ** Generic facts about the folds and the tables *)

Section Folds.

Context {S A : Type}.

Lemma foldl_invariant (P : S → Prop) (f : S → A → S) (l : list A) (s : S) :
  P s → (∀ s x, P s → x ∈ l → P (f s x)) → P (foldl f s l).
Proof.
  revert s. induction l as [|x l IH]; intros s Hs Hstep; simpl; [done|].
  apply IH.
  - apply Hstep; [done|]. apply list_elem_of_here.
  - intros s' y Hs' Hy. apply Hstep; [done|]. by apply list_elem_of_further.
Qed.

(** What holds before a loop and is kept by every iteration, whether it
    ends normally or throws, holds of the state that the loop leaves. *)
Lemma forOf_invariant (P : S → Prop) (body : S → A → JS.Outcome S) (l : list A) (s : S) :
  P s → (∀ s x, P s → x ∈ l → P (JS.stateOf (body s x))) →
  P (JS.stateOf (JS.forOf body s l)).
Proof.
  revert s. induction l as [|x l IH]; intros s Hs Hstep; simpl; [done|].
  pose proof (Hstep s x Hs (list_elem_of_here x l)) as Hx.
  destruct (body s x) as [s'|s']; [|done].
  apply IH; [done|].
  intros s'' y Hs'' Hy. apply Hstep; [done|]. by apply list_elem_of_further.
Qed.

(** The same for a loop that ends normally, with what the iterations keep
    only asked of those that end normally. *)
Lemma forOf_Normal_invariant (P : S → Prop) (body : S → A → JS.Outcome S) (l : list A)
    (s s' : S) :
  JS.forOf body s l = JS.Normal s' →
  P s → (∀ s x s', P s → x ∈ l → body s x = JS.Normal s' → P s') → P s'.
Proof.
  revert s. induction l as [|x l IH]; intros s Hrun Hs Hstep; simpl in Hrun.
  - by injection Hrun as <-.
  - destruct (body s x) as [s1|s1] eqn:Hx; [|done].
    apply (IH s1 Hrun).
    + apply (Hstep s x s1 Hs); [apply list_elem_of_here | done].
    + intros s2 y s3 Hs2 Hy. apply Hstep; [done|]. by apply list_elem_of_further.
Qed.

Lemma forOf_snoc (body : S → A → JS.Outcome S) (l : list A) (x : A) (s : S) :
  JS.forOf body s (l ++ [x])
  = match JS.forOf body s l with
    | JS.Normal s' => body s' x
    | JS.Thrown s' => JS.Thrown s'
    end.
Proof.
  revert s. induction l as [|y l IH]; intros s; simpl.
  - by destruct (body s x).
  - destruct (body s y) as [s'|s']; [apply IH | done].
Qed.

End Folds.

(** ** The allocation scenario *)

Section Allocation.

Import Fulfillment Scenario.

Lemma checkStock_available_nonneg (pool used : gmap Key Z)
    (materialsNeeded : list (Key * Needed)) :
  Forall (λ shortfall, 0 ≤ mm_available shortfall)
         (checkStock pool used materialsNeeded).2.
Proof.
  unfold checkStock.
  apply (foldl_invariant
           (λ acc : bool * list MissingMaterial,
              Forall (λ shortfall, 0 ≤ mm_available shortfall) acc.2)); [done|].
  intros [can missing] [key n] Hmissing _. simpl in *.
  destruct (_ <? _); [|done]. simpl. apply Forall_app. split; [done|].
  apply Forall_singleton. simpl. lia.
Qed.

Lemma fulfillmentStatus_available_nonneg localMaterials allMappings processedOrdersList
    orders orderId entry :
  fulfillmentStatus localMaterials allMappings processedOrdersList orders !! orderId
  = Some entry →
  Forall (λ shortfall, 0 ≤ mm_available shortfall) (missingMaterials entry).
Proof.
  unfold fulfillmentStatus, runFulfillment. revert orderId entry.
  apply (foldl_invariant
           (λ st : gmap Key Z * gmap Z FulfillmentEntry,
              ∀ orderId entry, st.2 !! orderId = Some entry →
                Forall (λ shortfall, 0 ≤ mm_available shortfall) (missingMaterials entry))).
  - intros orderId entry Hlookup. simpl in Hlookup. by rewrite lookup_empty in Hlookup.
  - intros [used status] order Hst _ orderId entry. unfold processOrder.
    case_bool_decide.
    + simpl. destruct (decide (ord_id order = orderId)) as [->|Hne].
      * rewrite lookup_insert_eq. intros [= <-]. apply Forall_nil_2.
      * rewrite lookup_insert_ne by done. apply Hst.
    + pose proof (checkStock_available_nonneg (buildStockMap localMaterials) used
                    (materialsNeededFor localMaterials allMappings order)) as Hcheck.
      destruct (checkStock _ _ _) as [can missing]. simpl in *.
      destruct (decide (ord_id order = orderId)) as [->|Hne].
      * rewrite lookup_insert_eq. by intros [= <-].
      * rewrite lookup_insert_ne by done. apply Hst.
Qed.

(** C4. Two unprocessed orders in awaiting-fulfillment statuses, A created
    before B, each needing 6 units of the managed material M whose stock is
    10: whatever the order of the feed, A can be fulfilled and B cannot, and
    B lists one shortfall with needed = 6 and available = 4. In every report
    of the calculator the availability of a shortfall is not negative. *)
Theorem allocation_oldest_first :
  (∀ (createdA createdB : Z) (statusA statusB : string) (orders : list Order),
      createdA < createdB →
      statusA ∈ fulfillmentStatuses →
      statusB ∈ fulfillmentStatuses →
      let A := order 501 statusA createdA [simpleItem 100 1] in
      let B := order 502 statusB createdB [simpleItem 100 1] in
      orders = [A; B] ∨ orders = [B; A] →
      let status := fulfillmentStatus [materialM] [sixOfM] [] orders in
      status !! 501 = Some {| canFulfill := true; missingMaterials := [];
                              isProcessed := false |} ∧
      status !! 502 = Some {| canFulfill := false;
                              missingMaterials :=
                                [{| mm_materialId := 1; mm_variationId := None;
                                    mm_materialName := "M"; mm_needed := 6;
                                    mm_available := 4 |}];
                              isProcessed := false |}) ∧
  (∀ localMaterials allMappings processedOrdersList orders orderId entry shortfall,
      fulfillmentStatus localMaterials allMappings processedOrdersList orders !! orderId
      = Some entry →
      shortfall ∈ missingMaterials entry →
      0 ≤ mm_available shortfall).
Proof.
  split.
  - intros createdA createdB statusA statusB orders Hlt HA HB A B Horders status.
    assert (Hsorted : sortedOrders orders = [A; B]).
    { unfold sortedOrders, relevantOrders.
      destruct Horders as [-> | ->]; simpl;
        rewrite !bool_decide_eq_true_2 by done; simpl.
      - destruct (Z.leb_spec createdA createdB); [done | lia].
      - destruct (Z.leb_spec createdB createdA); [lia | done]. }
    subst status. unfold fulfillmentStatus, runFulfillment. rewrite Hsorted.
    split; vm_compute; reflexivity.
  - intros localMaterials allMappings processedOrdersList orders orderId entry shortfall
           Hentry Hshortfall.
    apply fulfillmentStatus_available_nonneg in Hentry.
    rewrite Forall_forall in Hentry. by apply Hentry.
Qed.

Lemma allocation_oldest_first_witness :
  let status :=
    fulfillmentStatus [materialM] [sixOfM] []
      [order 502 "production" 2000 [simpleItem 100 1];
       order 501 "pending" 1000 [simpleItem 100 1]] in
  status !! 501 = Some {| canFulfill := true; missingMaterials := [];
                          isProcessed := false |} ∧
  status !! 502 = Some {| canFulfill := false;
                          missingMaterials :=
                            [{| mm_materialId := 1; mm_variationId := None;
                                mm_materialName := "M"; mm_needed := 6;
                                mm_available := 4 |}];
                          isProcessed := false |}.
Proof.
  apply (proj1 allocation_oldest_first 1000 2000 "pending" "production").
  - lia.
  - vm_compute. apply list_elem_of_here.
  - vm_compute. do 2 apply list_elem_of_further. apply list_elem_of_here.
  - right. reflexivity.
Defined.

End Allocation.

(** ** Mapping resolution *)

Section MappingResolution.

Import Scenario.

(** C5 (evaluation of the code at the failing input). Product 100 has one
    mapping, for its variation 55. For a line item of product 100 without a
    variation ([variation_id] 0, or absent) the storage lookup used by the
    processor returns this variation-specific mapping, and the processor
    deducts for it (20 to 14), whereas the exact match on (productId,
    variationId), as the fulfillment calculator does it, returns no mapping. *)
Theorem getMaterialMappingsForProduct_ignores_null_variation :
  getMaterialMappingsForProduct 100 (Some 0) variantOnlyDB = [forVariation55] ∧
  getMaterialMappingsForProduct 100 None variantOnlyDB = [forVariation55] ∧
  Fulfillment.itemMappings (getMaterialMappings variantOnlyDB) (simpleItem 100 3) = [] ∧
  rm_stockQuantity <$> rawMaterials variantOnlyDB = [Some 20] ∧
  rm_stockQuantity <$> rawMaterials (OrderStock.processOrderStock 1 order900 variantOnlyDB).2
  = [Some 14].
Proof. repeat split; vm_compute; reflexivity. Qed.

End MappingResolution.


Section ProcessedOrders.

Lemma head_filter_None {A : Type} (p : A → bool) (l : list A) :
  head (List.filter p l) = None ↔ ∀ x, x ∈ l → p x = false.
Proof.
  induction l as [|x l IH]; simpl.
  - split; [|done]. intros _ x Hx. by apply elem_of_nil in Hx.
  - destruct (p x) eqn:Hpx; simpl.
    + split; [done|]. intros Hall.
      rewrite Hall in Hpx; [done|]. apply list_elem_of_here.
    + rewrite IH. split.
      * intros Hall y Hy. apply elem_of_cons in Hy as [->|Hy]; auto.
      * intros Hall y Hy. apply Hall. by apply list_elem_of_further.
Qed.

Lemma head_filter_Some {A : Type} (p : A → bool) (l : list A) x :
  head (List.filter p l) = Some x → x ∈ l ∧ p x = true.
Proof.
  induction l as [|y l IH]; simpl; [done|].
  destruct (p y) eqn:Hpy; simpl.
  - intros [= ->]. split; [apply list_elem_of_here | done].
  - intros Hx. destruct (IH Hx) as [Hin Hp]. split; [|done].
    by apply list_elem_of_further.
Qed.

Lemma getProcessedOrder_None orderId db :
  getProcessedOrder orderId db = None ↔ orderId ∉ pr_orderId <$> processedOrders db.
Proof.
  unfold getProcessedOrder. rewrite head_filter_None. split.
  - intros Hall Hin. apply list_elem_of_fmap in Hin as (p & -> & Hp).
    specialize (Hall p Hp). by rewrite bool_decide_eq_true_2 in Hall.
  - intros Hnot p Hp. apply bool_decide_eq_false_2. intros Heq.
    apply Hnot. apply list_elem_of_fmap. by exists p.
Qed.

Lemma getProcessedOrder_marked now orderId orderNumber db :
  is_Some (getProcessedOrder orderId
             (insertProcessedOrder now orderId orderNumber db).2).
Proof.
  unfold getProcessedOrder, insertProcessedOrder. simpl.
  destruct (head (List.filter _ (processedOrders db ++ _))) as [p|] eqn:Hhead; [eauto|].
  rewrite head_filter_None in Hhead.
  specialize (Hhead {| pr_orderId := orderId; pr_orderNumber := orderNumber;
                       pr_processedAt := now |}).
  simpl in Hhead. rewrite bool_decide_eq_true_2 in Hhead by done.
  discriminate Hhead. apply elem_of_app. right. apply list_elem_of_here.
Qed.

End ProcessedOrders.

(** ** The writes of the store *)

Section StoreWrites.

Import Ledger.

Lemma updateLocalRawMaterialStock_Some id newStock db row db' :
  updateLocalRawMaterialStock id newStock db = (Some row, db') →
  db' = writeStock (Material id) newStock db ∧ int4 id = true ∧ int4 newStock = true.
Proof.
  unfold updateLocalRawMaterialStock. destruct (int4 id), (int4 newStock); simpl; try done.
  by intros [= _ <-].
Qed.

Lemma updateLocalRawMaterialStock_None id newStock db db' :
  updateLocalRawMaterialStock id newStock db = (None, db') →
  db' = db ∧ int4 id && int4 newStock = false.
Proof.
  unfold updateLocalRawMaterialStock. destruct (int4 id && int4 newStock); [done|].
  by intros [= <-].
Qed.

Lemma updateLocalRawMaterialVariationStock_Some id newStock db row db' :
  updateLocalRawMaterialVariationStock id newStock db = (Some row, db') →
  db' = writeStock (Variation id) newStock db ∧ int4 id = true ∧ int4 newStock = true.
Proof.
  unfold updateLocalRawMaterialVariationStock.
  destruct (int4 id), (int4 newStock); simpl; try done. by intros [= _ <-].
Qed.

Lemma updateLocalRawMaterialVariationStock_None id newStock db db' :
  updateLocalRawMaterialVariationStock id newStock db = (None, db') →
  db' = db ∧ int4 id && int4 newStock = false.
Proof.
  unfold updateLocalRawMaterialVariationStock.
  destruct (int4 id && int4 newStock); [done|]. by intros [= <-].
Qed.

Lemma createStockLedgerEntry_Some entry db result db' :
  createStockLedgerEntry entry db = (Some result, db') →
  result = (insertStockLedger entry db).1 ∧ db' = (insertStockLedger entry db).2 ∧
  ledgerAccepts entry = true.
Proof.
  unfold createStockLedgerEntry. destruct (ledgerAccepts entry); [|done].
  simpl. by intros [= <- <-].
Qed.

Lemma createStockLedgerEntry_None entry db db' :
  createStockLedgerEntry entry db = (None, db') →
  db' = db ∧ ledgerAccepts entry = false.
Proof.
  unfold createStockLedgerEntry. destruct (ledgerAccepts entry); [done|].
  by intros [= <-].
Qed.

Lemma markOrderProcessed_Some now orderId orderNumber db result db' :
  markOrderProcessed now orderId orderNumber db = (Some result, db') →
  result = (insertProcessedOrder now orderId orderNumber db).1 ∧
  db' = (insertProcessedOrder now orderId orderNumber db).2 ∧
  int4 orderId = true ∧ varchar 50 orderNumber = true.
Proof.
  unfold markOrderProcessed.
  destruct (int4 orderId), (varchar 50 orderNumber), (bool_decide _); simpl; try done.
  by intros [= <- <-].
Qed.

Lemma markOrderProcessed_accepted now orderId orderNumber db :
  int4 orderId = true → varchar 50 orderNumber = true →
  getProcessedOrder orderId db = None →
  markOrderProcessed now orderId orderNumber db
  = (Some (insertProcessedOrder now orderId orderNumber db).1,
     (insertProcessedOrder now orderId orderNumber db).2).
Proof.
  intros Hid Hnumber Hnone. unfold markOrderProcessed. rewrite Hid, Hnumber.
  apply getProcessedOrder_None in Hnone. by rewrite bool_decide_eq_true_2.
Qed.

Lemma markOrderProcessed_None now orderId orderNumber db db' :
  markOrderProcessed now orderId orderNumber db = (None, db') → db' = db.
Proof.
  unfold markOrderProcessed. destruct (_ && _); [done|]. by intros [= <-].
Qed.

Lemma updateStock_Some mapping material variation newStock db db' updated :
  OrderStock.updateStock mapping material variation newStock db = Some (db', updated) →
  db' = writeStock (deductionTarget mapping variation) newStock db ∧
  updated = match OrderStock.variationTarget mapping variation with
            | Some (materialVariationId, _) =>
                OrderStock.setVariationStockInMemory materialVariationId newStock material
            | None => OrderStock.setStockInMemory newStock material
            end.
Proof.
  unfold OrderStock.updateStock, deductionTarget.
  destruct (OrderStock.variationTarget mapping variation) as [[vid v]|].
  - destruct (updateLocalRawMaterialVariationStock vid newStock db) as [[row|] db1]
      eqn:Hupdate; [|done].
    apply updateLocalRawMaterialVariationStock_Some in Hupdate as (-> & _).
    by intros [= <- <-].
  - destruct (updateLocalRawMaterialStock _ newStock db) as [[row|] db1]
      eqn:Hupdate; [|done].
    apply updateLocalRawMaterialStock_Some in Hupdate as (-> & _).
    by intros [= <- <-].
Qed.

Lemma writeStock_tables t newStock db :
  stockLedger (writeStock t newStock db) = stockLedger db ∧
  OrderStock.sameOrders db (writeStock t newStock db).
Proof. by destruct t. Qed.

Lemma insertStockLedger_tables entry db :
  rawMaterials (insertStockLedger entry db).2 = rawMaterials db ∧
  rawMaterialVariations (insertStockLedger entry db).2 = rawMaterialVariations db ∧
  stockLedger (insertStockLedger entry db).2
  = stockLedger db ++ [(insertStockLedger entry db).1] ∧
  sl_values (insertStockLedger entry db).1 = entry ∧
  OrderStock.sameOrders db (insertStockLedger entry db).2.
Proof. done. Qed.

End StoreWrites.

(** ** The order stock processor *)

Section OrderStockFrame.

Import OrderStock.

Variable body : Body.

Lemma deduct_sameOrders item mapping material variation st :
  sameOrders (run_db st) (run_db (deduct body item mapping material variation st)).
Proof.
  unfold deduct.
  destruct (updateStock _ _ _ _ _) as [[db1 updated]|] eqn:Hupdate; [|done].
  apply updateStock_Some in Hupdate as [-> _].
  destruct (createStockLedgerEntry _ _) as [[ledgerEntry|] db2] eqn:Hinsert.
  - apply createStockLedgerEntry_Some in Hinsert as (_ & -> & _).
    by destruct (Ledger.deductionTarget mapping variation).
  - apply createStockLedgerEntry_None in Hinsert as [-> _].
    by destruct (Ledger.deductionTarget mapping variation).
Qed.

Lemma processMapping_sameOrders item st mapping :
  sameOrders (run_db st) (run_db (processMapping body item st mapping)).
Proof.
  unfold processMapping.
  destruct (run_materialsMap st !! _) as [material|]; [|by repeat split].
  destruct (resolveVariation material mapping) as [variation|]; [|by repeat split].
  destruct (negb _); [by repeat split|]. apply deduct_sameOrders.
Qed.

Lemma sameOrders_trans db1 db2 db3 :
  sameOrders db1 db2 → sameOrders db2 db3 → sameOrders db1 db3.
Proof.
  intros (? & ? & ? & ?) (? & ? & ? & ?). repeat split; congruence.
Qed.

Lemma processMappings_sameOrders item mappings st :
  sameOrders (run_db st) (run_db (foldl (processMapping body item) st mappings)).
Proof.
  apply (foldl_invariant (λ st', sameOrders (run_db st) (run_db st'))).
  - by repeat split.
  - intros st' mapping Hst' _.
    eapply sameOrders_trans; [done|]. apply processMapping_sameOrders.
Qed.

Lemma processLineItem_sameOrders st item :
  sameOrders (run_db st) (run_db (JS.stateOf (processLineItem body st item))).
Proof.
  unfold processLineItem. destruct (negb _); [by repeat split|].
  case_bool_decide; [by repeat split|]. apply processMappings_sameOrders.
Qed.

Lemma processLineItems_sameOrders db :
  sameOrders db (run_db (JS.stateOf (processLineItems body db))).
Proof.
  unfold processLineItems.
  apply (forOf_invariant (λ st', sameOrders db (run_db st'))).
  - by repeat split.
  - intros st' item Hst' _.
    eapply sameOrders_trans; [done|]. apply processLineItem_sameOrders.
Qed.

(** A line item whose lookup the store takes never ends the loop. *)
Lemma processLineItem_accepted st item :
  lookupAccepted item = true →
  ∃ st', processLineItem body st item = JS.Normal st'.
Proof.
  intros Haccepted. unfold processLineItem. rewrite Haccepted. simpl.
  case_bool_decide; eauto.
Qed.

Lemma processLineItems_accepted db :
  Forall (λ item, lookupAccepted item = true) (lineItems body) →
  ∃ st, processLineItems body db = JS.Normal st.
Proof.
  unfold processLineItems. generalize (start db).
  induction (lineItems body) as [|item items IH]; intros st Hall; simpl; [eauto|].
  apply Forall_cons in Hall as [Hitem Hall].
  destruct (processLineItem_accepted st item Hitem) as [st' ->]. by apply IH.
Qed.

(** The store that the route leaves is the one that the loop leaves, with
    the marker of the order when the answer is [Success]. *)
Lemma processOrderStock_store now db :
  (processOrderStock now body db).2 = db ∨
  (processOrderStock now body db).2 = run_db (JS.stateOf (processLineItems body db)) ∨
  ∃ report,
    processOrderStock now body db
    = (Success report,
       (insertProcessedOrder now (orderId body) (Some (orderNumber body))
          (run_db (JS.stateOf (processLineItems body db)))).2).
Proof.
  unfold processOrderStock. destruct (negb _); [by left|].
  destruct (getProcessedOrder _ db); [by left|].
  destruct (processLineItems body db) as [st|st]; [|by right; left].
  destruct (markOrderProcessed _ _ _ _) as [[marker|] db'] eqn:Hmark.
  - apply markOrderProcessed_Some in Hmark as (_ & -> & _). right. right. eauto.
  - apply markOrderProcessed_None in Hmark as ->. by right; left.
Qed.

(** What the route answers with [Success]. *)
Lemma processOrderStock_Success now db report db' :
  processOrderStock now body db = (Success report, db') →
  ∃ st,
    int4 (orderId body) = true ∧
    getProcessedOrder (orderId body) db = None ∧
    processLineItems body db = JS.Normal st ∧
    varchar 50 (Some (orderNumber body)) = true ∧
    report = {| results := run_results st; unmappedItems := run_unmappedItems st;
                skippedItems := run_skippedItems st;
                failedUpdates := run_failedUpdates st |} ∧
    db' = (insertProcessedOrder now (orderId body) (Some (orderNumber body))
             (run_db st)).2.
Proof.
  unfold processOrderStock. destruct (int4 (orderId body)); [|done]. simpl.
  destruct (getProcessedOrder _ db); [done|].
  destruct (processLineItems body db) as [st|st]; [|done].
  destruct (markOrderProcessed _ _ _ _) as [[marker|] db1] eqn:Hmark; [|done].
  apply markOrderProcessed_Some in Hmark as (_ & -> & _ & Hnumber).
  intros [= <- <-]. by exists st.
Qed.

End OrderStockFrame.

Section Idempotency.

Import OrderStock.

(** A call for an order id that already has a Processed Order record
    answers with the 'already processed' error and leaves the whole store as
    it is (no stock mutation, no ledger entry). A call that answers with
    [Success] leaves such a record behind, so every later call for the same
    order id is rejected in this way, and the order ids of the Processed
    Order records stay pairwise distinct. *)
Lemma processOrderStock_idempotent (now : Z) (body : Body) (db : DB) :
  (∀ existing,
      int4 (orderId body) = true →
      getProcessedOrder (orderId body) db = Some existing →
      processOrderStock now body db
      = (AlreadyProcessed 400 alreadyProcessedError (pr_processedAt existing), db)) ∧
  (∀ report db',
      processOrderStock now body db = (Success report, db') →
      ∀ now' body',
        orderId body' = orderId body →
        ∃ processedAt,
          processOrderStock now' body' db'
          = (AlreadyProcessed 400 alreadyProcessedError processedAt, db')) ∧
  (NoDup (pr_orderId <$> processedOrders db) →
   NoDup (pr_orderId <$> processedOrders (processOrderStock now body db).2)).
Proof.
  split; [|split].
  - intros existing Hid Hex. unfold processOrderStock. by rewrite Hid, Hex.
  - intros report db' Hrun now' body' Hid.
    apply processOrderStock_Success in Hrun as (st & Hint & _ & _ & _ & _ & ->).
    destruct (getProcessedOrder_marked now (orderId body) (Some (orderNumber body))
                (run_db st)) as [p Hp].
    exists (pr_processedAt p). unfold processOrderStock. by rewrite Hid, Hint, Hp.
  - intros Hnodup.
    destruct (processLineItems_sameOrders body db) as (Hprocessed & _).
    destruct (processOrderStock_store body now db) as [->|[->|[report Hrun]]];
      [done | by rewrite Hprocessed |].
    pose proof Hrun as Hsuccess.
    apply processOrderStock_Success in Hsuccess as (st & _ & Hget & Hloop & _).
    rewrite Hrun. simpl. rewrite Hprocessed.
    rewrite fmap_app. simpl. apply NoDup_app. split; [done|]. split.
    + intros x Hx Hx'. apply list_elem_of_singleton in Hx' as ->.
      by apply getProcessedOrder_None in Hget.
    + apply NoDup_singleton.
Qed.

End Idempotency.

Section IdempotencyScenario.

Import OrderStock Scenario Cases.

(** C1 (evaluation of the code at the failing input). Order #501 carries an
    order number of 51 characters, one more than the [varchar(50)] columns
    take. The first call writes the new stock of material X (20 to 14), the
    ledger insert is refused and caught, and then the insert of the Processed
    Order record is refused too: the route answers 500 and no record exists.
    The second call for the same order id finds no record and deducts again
    (14 to 8). The stock for one order id was deducted twice, and no ledger
    entry says so. *)
Theorem processOrderStock_deducts_again_without_marker :
  let first := processOrderStock 1 order501 countedDB in
  let second := processOrderStock 2 order501 first.2 in
  String.length (orderNumber order501) = 51%nat ∧
  rm_stockQuantity <$> rawMaterials countedDB = [Some 20] ∧
  first.1 = ServerError ∧
  getProcessedOrder 501 first.2 = None ∧
  rm_stockQuantity <$> rawMaterials first.2 = [Some 14] ∧
  second.1 = ServerError ∧
  getProcessedOrder 501 second.2 = None ∧
  rm_stockQuantity <$> rawMaterials second.2 = [Some 8] ∧
  stockLedger second.2 = stockLedger countedDB.
Proof. repeat split; vm_compute; reflexivity. Qed.

(** The same order with an order number that fits is deducted once: the
    second call is rejected and changes nothing. *)
Lemma processOrderStock_idempotent_scenario :
  let db1 := (processOrderStock 1 order500 stockedDB).2 in
  processOrderStock 2 order500 db1
  = (AlreadyProcessed 400 alreadyProcessedError 1, db1) ∧
  NoDup (pr_orderId <$> processedOrders db1).
Proof.
  split.
  - apply (proj1 (processOrderStock_idempotent 2 order500
                    (processOrderStock 1 order500 stockedDB).2)
                 {| pr_orderId := 500; pr_orderNumber := Some "500";
                    pr_processedAt := 1 |}); vm_compute; reflexivity.
  - apply (proj2 (proj2 (processOrderStock_idempotent 1 order500 stockedDB))).
    vm_compute. apply NoDup_nil_2.
Qed.

End IdempotencyScenario.

Section MissingMaterials.

Import OrderStock.

Variable body : Body.
Variable db : DB.

Lemma start_lookup_None id :
  notInInventory db id → run_materialsMap (start db) !! id = None.
Proof.
  intros Hnot. apply eq_None_not_Some. unfold start, JS.newMap. simpl.
  rewrite foldl_insert_is_Some. intros [Hin|Hsome].
  - rewrite <- list_fmap_compose in Hin.
    apply list_elem_of_fmap in Hin as (m & -> & Hm).
    unfold getLocalRawMaterials in Hm.
    apply list_elem_of_fmap in Hm as (row & -> & Hrow).
    apply list_elem_of_In, List.filter_In in Hrow as [Hrow Hactive].
    apply list_elem_of_In in Hrow.
    specialize (Hnot row Hrow eq_refl). congruence.
  - rewrite lookup_empty in Hsome. by destruct Hsome.
Qed.

Lemma start_lookup_Some id material :
  run_materialsMap (start db) !! id = Some material →
  ∃ m, m ∈ rawMaterials db ∧ rm_isActive m = true ∧ rm_id m = id.
Proof.
  unfold start. simpl. intros Hl. apply newMap_lookup_elem in Hl.
  apply list_elem_of_fmap in Hl as (m & Heq & Hm). inversion Heq; subst.
  unfold getLocalRawMaterials in Hm.
  apply list_elem_of_fmap in Hm as (row & -> & Hrow).
  apply list_elem_of_In, List.filter_In in Hrow as [Hrow Hactive].
  apply list_elem_of_In in Hrow. by exists row.
Qed.

(** A deduction, failed or not, keeps the keys of [materialsMap]. *)
Lemma deduct_lookup item mapping material variation st id :
  run_materialsMap st !! mp_materialProductId mapping = Some material →
  is_Some (run_materialsMap (deduct body item mapping material variation st) !! id)
  ↔ is_Some (run_materialsMap st !! id).
Proof.
  intros Hm. unfold deduct.
  destruct (updateStock _ _ _ _ _) as [[db1 updated]|]; [|done].
  destruct (createStockLedgerEntry _ _) as [[ledgerEntry|] db2]; simpl;
    (destruct (decide (mp_materialProductId mapping = id)) as [<-|Hne];
     [rewrite lookup_insert_eq, Hm; split; eauto | by rewrite lookup_insert_ne]).
Qed.

(** The loops never add a key to [materialsMap] and never remove one. *)
Lemma Reachable_lookup st id :
  Reachable body db st →
  is_Some (run_materialsMap st !! id) ↔ is_Some (run_materialsMap (start db) !! id).
Proof.
  induction 1 as [|st item mapping Hreach IH|st item Hreach IH]; [done| |done].
  rewrite <- IH. unfold processMapping.
  destruct (run_materialsMap st !! mp_materialProductId mapping) as [material|] eqn:Hm;
    [|done].
  destruct (resolveVariation material mapping) as [variation|]; [|done].
  destruct (negb _); [done|]. by apply deduct_lookup.
Qed.

Lemma Reachable_processMappings st item mappings :
  Reachable body db st → Reachable body db (foldl (processMapping body item) st mappings).
Proof.
  intros Hreach. apply (foldl_invariant (Reachable body db)); [done|].
  intros st' mapping Hst' _. by apply reach_mapping.
Qed.

Lemma Reachable_processLineItem st item :
  Reachable body db st → Reachable body db (JS.stateOf (processLineItem body st item)).
Proof.
  intros Hreach. unfold processLineItem. destruct (negb _); [done|].
  case_bool_decide.
  - by apply reach_unmapped.
  - by apply Reachable_processMappings.
Qed.

Lemma Reachable_processLineItems :
  Reachable body db (JS.stateOf (processLineItems body db)).
Proof.
  unfold processLineItems. apply (forOf_invariant (Reachable body db)).
  - apply reach_start.
  - intros st item Hst _. by apply Reachable_processLineItem.
Qed.

(** The store at any point of an invocation. *)
Lemma Reachable_sameOrders st :
  Reachable body db st → sameOrders db (run_db st).
Proof.
  induction 1 as [|st item mapping Hreach IH|st item Hreach IH];
    [by repeat split | | done].
  eapply sameOrders_trans; [exact IH|]. apply processMapping_sameOrders.
Qed.

(** A mapping to an id that is the id of no active material: the entry is
    pushed on [skippedItems] and nothing else changes. *)
Lemma processMapping_missing st item mapping :
  Reachable body db st →
  notInInventory db (mp_materialProductId mapping) →
  processMapping body item st mapping = skip (missingMaterial item mapping) st.
Proof.
  intros Hreach Hnot.
  assert (Hnone : run_materialsMap st !! mp_materialProductId mapping = None).
  { apply eq_None_not_Some. rewrite (Reachable_lookup st _ Hreach).
    by rewrite (start_lookup_None _ Hnot). }
  unfold processMapping. by rewrite Hnone.
Qed.

(** Nothing is ever taken off [skippedItems]. *)
Lemma processMapping_skipped st item mapping skipped :
  skipped ∈ run_skippedItems st →
  skipped ∈ run_skippedItems (processMapping body item st mapping).
Proof.
  intros Hin. unfold processMapping.
  destruct (run_materialsMap st !! _) as [material|];
    [|simpl; apply elem_of_app; by left].
  destruct (resolveVariation material mapping) as [variation|];
    [|simpl; apply elem_of_app; by left].
  destruct (negb _); [simpl; apply elem_of_app; by left|].
  unfold deduct. destruct (updateStock _ _ _ _ _) as [[db1 updated]|]; [|done].
  by destruct (createStockLedgerEntry _ _) as [[ledgerEntry|] db2].
Qed.

Lemma processMappings_skipped st item mappings skipped :
  skipped ∈ run_skippedItems st →
  skipped ∈ run_skippedItems (foldl (processMapping body item) st mappings).
Proof.
  intros Hin.
  apply (foldl_invariant (λ st', skipped ∈ run_skippedItems st')); [done|].
  intros st' mapping Hst' _. by apply processMapping_skipped.
Qed.

Lemma processLineItem_skipped st item skipped :
  skipped ∈ run_skippedItems st →
  skipped ∈ run_skippedItems (JS.stateOf (processLineItem body st item)).
Proof.
  intros Hin. unfold processLineItem. destruct (negb _); [done|].
  case_bool_decide; [done|]. by apply processMappings_skipped.
Qed.

(** Every mapping of the list to an id that is the id of no active
    material has its entry in [skippedItems] after the loop over the list. *)
Lemma processMappings_missing item mappings st mapping :
  Reachable body db st →
  mapping ∈ mappings →
  notInInventory db (mp_materialProductId mapping) →
  missingMaterial item mapping
  ∈ run_skippedItems (foldl (processMapping body item) st mappings).
Proof.
  revert st. induction mappings as [|m mappings IH]; intros st Hreach Hin Hnot.
  - by apply elem_of_nil in Hin.
  - simpl. apply elem_of_cons in Hin as [->|Hin].
    + apply processMappings_skipped.
      rewrite (processMapping_missing st item m Hreach Hnot). simpl.
      apply elem_of_app. right. apply list_elem_of_here.
    + apply IH; [by apply reach_mapping | done | done].
Qed.

Lemma processLineItems_missing items st st' item mapping :
  Reachable body db st →
  JS.forOf (processLineItem body) st items = JS.Normal st' →
  item ∈ items →
  mapping ∈ Reports.mappingsOf db item →
  notInInventory db (mp_materialProductId mapping) →
  missingMaterial item mapping ∈ run_skippedItems st'.
Proof.
  revert st. induction items as [|i items IH]; intros st Hreach Hrun Hitem Hin Hnot.
  - by apply elem_of_nil in Hitem.
  - simpl in Hrun.
    pose proof (Reachable_processLineItem st i Hreach) as Hnext.
    destruct (processLineItem body st i) as [st1|st1] eqn:Hstep; [|done].
    simpl in Hnext. apply elem_of_cons in Hitem as [->|Hitem]; [|by apply (IH st1)].
    assert (Hhere : missingMaterial i mapping ∈ run_skippedItems st1).
    { unfold processLineItem in Hstep. destruct (negb _); [done|].
      destruct (Reachable_sameOrders st Hreach) as (_ & Hmappings & _).
      assert (Hsame : getMaterialMappingsForProduct (li_product_id i) (li_variation_id i)
                        (run_db st) = Reports.mappingsOf db i).
      { unfold Reports.mappingsOf, getMaterialMappingsForProduct. by rewrite Hmappings. }
      rewrite Hsame in Hstep. case_bool_decide as Hnone.
      - destruct (Reports.mappingsOf db i); [by apply elem_of_nil in Hin | done].
      - injection Hstep as <-. by apply processMappings_missing. }
    clear Hstep. revert Hhere Hrun. generalize st1. clear.
    induction items as [|i' items IH]; intros st1 Hhere Hrun; simpl in Hrun.
    + by injection Hrun as <-.
    + pose proof (processLineItem_skipped st1 i' _ Hhere) as Hnext.
      destruct (processLineItem body st1 i') as [st2|st2]; [|done].
      by apply (IH st2).
Qed.

(** A deduction writes at most one ledger entry, which names the material
    of the mapping. *)
Lemma deduct_ledger item mapping material variation st e :
  e ∈ stockLedger (run_db (deduct body item mapping material variation st)) →
  e ∈ stockLedger (run_db st) ∨
  sl_materialProductId (sl_values e) = mp_materialProductId mapping.
Proof.
  unfold deduct.
  destruct (updateStock _ _ _ _ _) as [[db1 updated]|] eqn:Hupdate;
    [|intros He; by left].
  apply updateStock_Some in Hupdate as [-> _].
  destruct (createStockLedgerEntry _ _) as [[ledgerEntry|] db2] eqn:Hinsert.
  - apply createStockLedgerEntry_Some in Hinsert as (_ & -> & _).
    destruct (Ledger.deductionTarget mapping variation); simpl;
      intros He; apply elem_of_app in He as [He|He]; try (by left);
      apply list_elem_of_singleton in He as ->; by right.
  - apply createStockLedgerEntry_None in Hinsert as [-> _].
    destruct (Ledger.deductionTarget mapping variation); intros He; by left.
Qed.

(** Every ledger entry written by the invocation names an active material. *)
Lemma Reachable_ledger st e :
  Reachable body db st →
  e ∈ stockLedger (run_db st) →
  e ∈ stockLedger db ∨
  ∃ m, m ∈ rawMaterials db ∧ rm_isActive m = true ∧
       rm_id m = sl_materialProductId (sl_values e).
Proof.
  intros Hreach. revert e.
  induction Hreach as [|st item mapping Hreach IH|st item Hreach IH];
    intros e He; [by left| |by apply IH].
  unfold processMapping in He.
  destruct (run_materialsMap st !! mp_materialProductId mapping) as [material|] eqn:Hm;
    [|by apply IH].
  destruct (resolveVariation material mapping) as [variation|]; [|by apply IH].
  destruct (negb _); [by apply IH|].
  apply deduct_ledger in He as [He|He]; [by apply IH|]. right. rewrite He.
  destruct (proj1 (Reachable_lookup st (mp_materialProductId mapping) Hreach))
    as [material0 Hstart]; [eauto|].
  by apply start_lookup_Some in Hstart.
Qed.

End MissingMaterials.

Section OrphanTolerance.

Import OrderStock Reports.

(** Every deduction that an invocation reports names an active material. *)
Lemma Reachable_results body db st r :
  Reachable body db st →
  r ∈ run_results st →
  ∃ m, m ∈ rawMaterials db ∧ rm_isActive m = true ∧ rm_id m = dr_materialId r.
Proof.
  intros Hreach. revert r.
  induction Hreach as [|st item mapping Hreach IH|st item Hreach IH];
    intros r Hr; [by apply elem_of_nil in Hr| |by apply IH].
  unfold processMapping in Hr.
  destruct (run_materialsMap st !! mp_materialProductId mapping) as [material|] eqn:Hm;
    [|by apply IH].
  destruct (resolveVariation material mapping) as [variation|]; [|by apply IH].
  destruct (negb _); [by apply IH|].
  unfold deduct in Hr.
  destruct (updateStock _ _ _ _ _) as [[db1 updated]|]; [|by apply IH].
  destruct (createStockLedgerEntry _ _) as [[ledgerEntry|] db2]; [|by apply IH].
  simpl in Hr. apply elem_of_app in Hr as [Hr|Hr]; [by apply IH|].
  apply list_elem_of_singleton in Hr as ->. simpl.
  destruct (proj1 (Reachable_lookup body db st (mp_materialProductId mapping) Hreach))
    as [material0 Hstart]; [eauto|].
  by apply start_lookup_Some in Hstart.
Qed.


Import Scenario.


End OrphanTolerance.

(** ** Purchase order receiving *)

Section ReceivingFrame.

Import Receiving Ledger Reports.

(** The stock as the receive route reads it. *)
Lemma stockLevel_material id db :
  JS.orZero (getLocalRawMaterial id db ≫= lm_stockQuantity) = stockLevel db (Material id).
Proof.
  unfold stockLevel, getLocalRawMaterial. simpl. by destruct (head _).
Qed.

Lemma stockLevel_variation id db :
  JS.orZero (getLocalRawMaterialVariation id db ≫= rv_stockQuantity)
  = stockLevel db (Variation id).
Proof.
  unfold stockLevel. simpl. by destruct (getLocalRawMaterialVariation id db).
Qed.

(** An accepted receipt: the stock of the line's record is raised by the
    quantity, and one ledger entry with the same numbers is appended. *)
Lemma stockIn_Some order line quantity db result db' :
  stockIn order line quantity db = Some (result, db') →
  ∃ entry,
    let previousStock := stockLevel db (lineTarget line) in
    let newStock := previousStock + quantity in
    db' = (insertStockLedger entry (writeStock (lineTarget line) newStock db)).2 ∧
    target entry = lineTarget line ∧
    sl_orderNumber entry = Some (po_poNumber (pd_row order)) ∧
    sl_reason entry = "purchase_order" ∧
    sl_quantityChange entry = quantity ∧
    sl_previousStock entry = Some previousStock ∧
    sl_newStock entry = Some newStock ∧
    result = {| rr_itemId := poi_id line; rr_materialName := poi_materialName line;
                rr_quantityReceived := quantity;
                rr_previousStock := previousStock; rr_newStock := newStock |} ∧
    int4 newStock = true.
Proof.
  unfold stockIn, lineTarget.
  destruct (poi_materialVariationId line) as [vid|]; [destruct (JS.truthy _)|].
  - unfold stockInVariation. rewrite stockLevel_variation.
    destruct (updateLocalRawMaterialVariationStock _ _ _) as [[row|] db1] eqn:Hupdate;
      [|done].
    apply updateLocalRawMaterialVariationStock_Some in Hupdate as (-> & _ & Hint).
    intros [= <- <-]. eexists. by repeat split.
  - unfold stockInMaterial. rewrite stockLevel_material.
    destruct (updateLocalRawMaterialStock _ _ _) as [[row|] db1] eqn:Hupdate; [|done].
    apply updateLocalRawMaterialStock_Some in Hupdate as (-> & _ & Hint).
    intros [= <- <-]. eexists. by repeat split.
  - unfold stockInMaterial. rewrite stockLevel_material.
    destruct (updateLocalRawMaterialStock _ _ _) as [[row|] db1] eqn:Hupdate; [|done].
    apply updateLocalRawMaterialStock_Some in Hupdate as (-> & _ & Hint).
    intros [= <- <-]. eexists. by repeat split.
Qed.

Lemma stockIn_tables order item quantity db result db' :
  stockIn order item quantity db = Some (result, db') →
  purchaseOrders db' = purchaseOrders db ∧
  purchaseOrderItems db' = purchaseOrderItems db.
Proof.
  intros Hin. apply stockIn_Some in Hin as (entry & -> & _).
  by destruct (lineTarget item).
Qed.

(** What one iteration of the loop of the route does: nothing, or one
    accepted receipt, or a throw that leaves the state as it is. *)
Lemma receiveOne_cases order st receipt :
  receiveOne order st receipt = JS.Normal st ∨
  receiveOne order st receipt = JS.Thrown st ∨
  ∃ line result db',
    let quantity := Z.min (rc_quantityReceived receipt)
                          (poi_quantityOrdered line - poi_quantityReceived line) in
    line ∈ pd_items order ∧ poi_id line = rc_itemId receipt ∧
    0 < rc_quantityReceived receipt ∧ 0 < quantity ∧
    stockIn order line quantity (run_db st) = Some (result, db') ∧
    receiveOne order st receipt
    = JS.Normal {| run_db := db';
                   run_results := run_results st ++ [result];
                   run_validatedReceipts := run_validatedReceipts st ++
                     [{| rc_itemId := rc_itemId receipt;
                         rc_quantityReceived := quantity |}] |}.
Proof.
  unfold receiveOne.
  destruct (JS.find _ (pd_items order)) as [line|] eqn:Hline; [|by left].
  destruct (rc_quantityReceived receipt <=? 0) eqn:Hpositive; [by left|].
  destruct (Z.min _ _ <=? 0) eqn:Hmin; [by left|].
  apply Z.leb_gt in Hpositive, Hmin.
  apply find_some in Hline as [Hline Hid]. apply bool_decide_eq_true in Hid.
  apply list_elem_of_In in Hline.
  destruct (stockIn _ _ _ _) as [[result db']|] eqn:Hin; [|by right; left].
  right. right. exists line, result, db'. by repeat split.
Qed.

Lemma receiveOne_tables order st receipt :
  purchaseOrders (run_db (JS.stateOf (receiveOne order st receipt)))
  = purchaseOrders (run_db st) ∧
  purchaseOrderItems (run_db (JS.stateOf (receiveOne order st receipt)))
  = purchaseOrderItems (run_db st).
Proof.
  destruct (receiveOne_cases order st receipt)
    as [->|[->|(line & result & db' & _ & _ & _ & _ & Hin & ->)]]; try done.
  simpl. by apply stockIn_tables in Hin.
Qed.

Lemma receiveAll_tables order items db :
  purchaseOrders (run_db (JS.stateOf (receiveAll order items db))) = purchaseOrders db ∧
  purchaseOrderItems (run_db (JS.stateOf (receiveAll order items db)))
  = purchaseOrderItems db.
Proof.
  unfold receiveAll.
  apply (forOf_invariant (λ st, purchaseOrders (run_db st) = purchaseOrders db ∧
                                purchaseOrderItems (run_db st) = purchaseOrderItems db));
    [done|].
  intros st receipt [Hpo Hitems] _.
  destruct (receiveOne_tables order st receipt) as [-> ->]. done.
Qed.

(** The first loop of [receivePurchaseOrderItems] writes lines only. *)
Lemma applyReceipt_tables db receipt :
  let db' := JS.stateOf (applyReceipt db receipt) in
  purchaseOrders db' = purchaseOrders db ∧
  rawMaterials db' = rawMaterials db ∧
  rawMaterialVariations db' = rawMaterialVariations db ∧
  stockLedger db' = stockLedger db ∧
  Reports.sameInventory db db'.
Proof.
  unfold applyReceipt. destruct (head _) as [item|]; [|done].
  destruct (0 <? _); [|done]. by destruct (_ && _).
Qed.

Lemma applyReceipts_tables receipts db :
  let db' := JS.stateOf (JS.forOf applyReceipt db receipts) in
  purchaseOrders db' = purchaseOrders db ∧
  rawMaterials db' = rawMaterials db ∧
  rawMaterialVariations db' = rawMaterialVariations db ∧
  stockLedger db' = stockLedger db.
Proof.
  apply (forOf_invariant (λ db', purchaseOrders db' = purchaseOrders db ∧
                                 rawMaterials db' = rawMaterials db ∧
                                 rawMaterialVariations db' = rawMaterialVariations db ∧
                                 stockLedger db' = stockLedger db)); [done|].
  intros db' receipt (Hpo & Hm & Hv & Hl) _.
  destruct (applyReceipt_tables db' receipt) as (-> & -> & -> & -> & _). done.
Qed.

Lemma getPurchaseOrder_row id db db' order :
  purchaseOrders db' = purchaseOrders db →
  getPurchaseOrder id db = Some order →
  ∃ order', getPurchaseOrder id db' = Some order' ∧ pd_row order' = pd_row order.
Proof.
  unfold getPurchaseOrder. intros ->.
  destruct (head _) as [row|]; [|done]. intros [= <-]. eauto.
Qed.

Lemma filter_updateWhere {A : Type} (p : A → bool) (f : A → A) (rows : list A) :
  (∀ row, p (f row) = p row) →
  List.filter p (updateWhere p f rows) = map f (List.filter p rows).
Proof.
  intros Hp. unfold updateWhere. induction rows as [|row rows IH]; simpl; [done|].
  destruct (p row) eqn:Hrow; simpl.
  - by rewrite Hp, Hrow, IH.
  - by rewrite Hrow, IH.
Qed.

Lemma getPurchaseOrder_setStatus id status date db po :
  getPurchaseOrder id db = Some po →
  getPurchaseOrder id
    (with_purchaseOrders
       (updateWhere (λ row, bool_decide (po_id row = id)) (setStatus status date)
                    (purchaseOrders db)) db)
  = Some {| pd_row := setStatus status date (pd_row po); pd_items := pd_items po |}.
Proof.
  unfold getPurchaseOrder. simpl.
  rewrite (filter_updateWhere (λ row, bool_decide (po_id row = id))) by done.
  destruct (List.filter _ (purchaseOrders db)) as [|row rows]; simpl; [done|].
  by intros [= <-].
Qed.

(** The store that [receivePurchaseOrderItems] leaves: the one after the
    loop over the receipts, with the status of the order set when the call
    returns and the status changes. *)
Lemma receivePurchaseOrderItems_store now id receipts db :
  let db1 := JS.stateOf (JS.forOf applyReceipt db receipts) in
  let db' := (receivePurchaseOrderItems now id receipts db).2 in
  purchaseOrderItems db' = purchaseOrderItems db1 ∧
  rawMaterials db' = rawMaterials db ∧
  rawMaterialVariations db' = rawMaterialVariations db ∧
  stockLedger db' = stockLedger db ∧
  materialProductMappings db' = materialProductMappings db1 ∧
  processedOrders db' = processedOrders db1 ∧
  ((receivePurchaseOrderItems now id receipts db).1 = None →
   purchaseOrders db' = purchaseOrders db).
Proof.
  simpl. destruct (applyReceipts_tables receipts db) as (Hpo & Hm & Hv & Hl).
  unfold receivePurchaseOrderItems.
  destruct (JS.forOf applyReceipt db receipts) as [db1|db1]; simpl in *; [|done].
  destruct (getPurchaseOrder id db1) as [po|] eqn:Hget; [|done].
  case_bool_decide as Hchange.
  - rewrite (getPurchaseOrder_setStatus _ _ _ _ po Hget). by repeat split.
  - rewrite Hget. by repeat split.
Qed.

(** [receivePurchaseOrderItems] on a purchase order that exists, when it
    returns: the order it returns is the one stored, with the lines as
    updated and the status [newStatus] of these lines. *)
Lemma receivePurchaseOrderItems_status now id receipts db order updated db' :
  getPurchaseOrder id db = Some order →
  po_status (pd_row order) ≠ received →
  receivePurchaseOrderItems now id receipts db = (Some updated, db') →
  ∃ db1 po,
    JS.forOf applyReceipt db receipts = JS.Normal db1 ∧
    getPurchaseOrder id db1 = Some po ∧
    pd_row po = pd_row order ∧
    getPurchaseOrder id db' = Some updated ∧
    pd_items updated = pd_items po ∧
    po_status (pd_row updated) = newStatus po ∧
    (po_status (pd_row updated) = received →
     po_receivedDate (pd_row updated) = Some now).
Proof.
  intros Hget Hnot. unfold receivePurchaseOrderItems.
  destruct (applyReceipts_tables receipts db) as (Hpos & _).
  destruct (JS.forOf applyReceipt db receipts) as [db1|db1]; [|done].
  simpl in Hpos.
  destruct (getPurchaseOrder_row id db db1 order Hpos Hget) as (po & Hpo & Hrow).
  rewrite Hpo. intros Hrun. exists db1, po. revert Hrun.
  case_bool_decide as Hchange.
  - rewrite (getPurchaseOrder_setStatus _ _ _ _ po Hpo). intros [= <- <-].
    repeat split; try done.
    + by apply getPurchaseOrder_setStatus.
    + simpl. unfold newStatus. destruct (allReceived (pd_items po)); [done|].
      destruct (someReceived (pd_items po)); [done|]. intros Hrec.
      rewrite Hrow in Hrec. done.
  - rewrite Hpo. intros [= <- <-]. repeat split; try done.
    rewrite <- Hchange. intros Hrec. destruct Hnot. congruence.
Qed.

(** What the route answers with [Received]. *)
Lemma receive_Received now id items db updated results db' :
  receive now id items db = (Received updated results, db') →
  ∃ order st,
    validRequest items = true ∧
    getPurchaseOrder id db = Some order ∧
    po_status (pd_row order) ≠ cancelled ∧
    po_status (pd_row order) ≠ received ∧
    receiveAll order items db = JS.Normal st ∧
    results = run_results st ∧
    receivePurchaseOrderItems now id (run_validatedReceipts st) (run_db st)
    = (Some updated, db').
Proof.
  unfold receive. destruct (validRequest items); [|done]. simpl.
  destruct (getPurchaseOrder id db) as [order|]; [|done].
  intros Hrun. exists order.
  destruct (po_status (pd_row order)) eqn:Hstatus; try done;
    (destruct (receiveAll order items db) as [st|st]; [|done]);
    (destruct (receivePurchaseOrderItems _ _ _ _) as [[updatedOrder|] db1] eqn:Hstore;
       [|done]);
    injection Hrun as <- <- <-; exists st; by repeat split.
Qed.

(** The store that the route leaves: as it was, or the one after its loop,
    or the one that [receivePurchaseOrderItems] leaves after the loop. *)
Lemma receive_store now id items db :
  (receive now id items db).2 = db ∨
  ∃ order,
    getPurchaseOrder id db = Some order ∧
    ((receive now id items db).1 = ServerError ∧
     (receive now id items db).2 = run_db (JS.stateOf (receiveAll order items db)) ∨
     ∃ st,
       receiveAll order items db = JS.Normal st ∧
       (receive now id items db).2
       = (receivePurchaseOrderItems now id (run_validatedReceipts st) (run_db st)).2 ∧
       ((receive now id items db).1 = ServerError ∧
        (receivePurchaseOrderItems now id (run_validatedReceipts st) (run_db st)).1
        = None ∨
        ∃ updated,
          receive now id items db
          = (Received updated (run_results st),
             (receivePurchaseOrderItems now id (run_validatedReceipts st)
                                        (run_db st)).2))).
Proof.
  unfold receive. destruct (negb _); [by left|].
  destruct (getPurchaseOrder id db) as [order|]; [|by left].
  destruct (po_status (pd_row order)); try (by left);
    right; exists order; (split; [done|]);
    (destruct (receiveAll order items db) as [st|st]; [|by left]);
    right; exists st; (split; [done|]);
    destruct (receivePurchaseOrderItems _ _ _ _) as [[updatedOrder|] db1];
    simpl; split; try done; eauto.
Qed.

End ReceivingFrame.

Section ReceivingStatus.

Import Receiving.

Lemma allReceived_Forall lines :
  allReceived lines = true ↔
  Forall (λ line, poi_quantityOrdered line ≤ poi_quantityReceived line) lines.
Proof.
  unfold allReceived. induction lines as [|line lines IH]; simpl.
  - split; [constructor | done].
  - rewrite andb_true_iff, IH, Forall_cons, Z.leb_le. done.
Qed.

Lemma someReceived_Exists lines :
  someReceived lines = true ↔ Exists (λ line, 0 < poi_quantityReceived line) lines.
Proof.
  unfold someReceived. induction lines as [|line lines IH]; simpl.
  - split; [done | by intros ?%Exists_nil].
  - rewrite orb_true_iff, IH, Exists_cons, Z.ltb_lt. done.
Qed.


End ReceivingStatus.

Section ReceivingScenarios.

Import Receiving Scenario.


(** C7 (evaluation of the code at the failing input). One request carries
    the pair (item 1, 15) twice for a line with 20 ordered and 0 received.
    Both pairs are clamped against the line as fetched before the loop, so
    both pass with 15: the line ends with quantityReceived = 30 > 20, and
    stock and ledger move by 15 twice. *)
Theorem receive_repeated_item_exceeds_ordered :
  let request := [receipt 1 15; receipt 1 15] in
  let db' := (receive 7 1 request purchaseDB).2 in
  validRequest request = true ∧
  poi_quantityOrdered <$> purchaseOrderItems db' = [20] ∧
  poi_quantityReceived <$> purchaseOrderItems db' = [30] ∧
  rm_stockQuantity <$> rawMaterials purchaseDB = [Some 20] ∧
  rm_stockQuantity <$> rawMaterials db' = [Some 50] ∧
  (λ e, sl_quantityChange (sl_values e)) <$> stockLedger db' = [15; 15].
Proof. repeat split; vm_compute; reflexivity. Qed.

End ReceivingScenarios.

(** ** Ledger consistency *)

Section LedgerConsistency.

Import Ledger.

Lemma last_filter_elem {A : Type} (p : A → bool) (l : list A) x :
  last (List.filter p l) = Some x → x ∈ l ∧ p x = true.
Proof.
  intros Hlast. apply last_Some in Hlast as [l' Hl'].
  assert (Hin : In x (List.filter p l)).
  { rewrite Hl'. apply in_or_app. right. by left. }
  apply List.filter_In in Hin as [Hin Hp]. split; [by apply list_elem_of_In | done].
Qed.

(** It suffices to check the targets that occur in the ledger. *)
Lemma consistent_ledger db :
  forallb (λ e, consistentAt db (target (sl_values e))) (stockLedger db) = true →
  consistent db.
Proof.
  intros Hall t. unfold consistentAt.
  destruct (lastEntry t (stockLedger db)) as [e|] eqn:Hlast; [|done].
  apply last_filter_elem in Hlast as Helem. destruct Helem as [Hin Ht].
  apply bool_decide_eq_true in Ht.
  rewrite forallb_forall in Hall. apply list_elem_of_In in Hin.
  specialize (Hall e Hin). unfold consistentAt in Hall.
  rewrite Ht, Hlast in Hall. done.
Qed.

Lemma filter_updateWhere_other {A : Type} (p q : A → bool) (f : A → A) (rows : list A) :
  (∀ row, q row = true → p row = false ∧ p (f row) = false) →
  List.filter p (updateWhere q f rows) = List.filter p rows.
Proof.
  intros Hq. unfold updateWhere. induction rows as [|row rows IH]; simpl; [done|].
  destruct (q row) eqn:Hrow.
  - destruct (Hq row Hrow) as [-> ->]. done.
  - by rewrite IH.
Qed.

Lemma stockOf_writeStock_same db t newStock :
  stockOf (writeStock t newStock db) t = (λ _, Some newStock) <$> stockOf db t.
Proof.
  destruct t as [id|id]; simpl; unfold getLocalRawMaterialVariation; simpl.
  - rewrite (filter_updateWhere (λ m, bool_decide (rm_id m = id))) by done.
    by destruct (List.filter _ (rawMaterials db)).
  - rewrite (filter_updateWhere (λ v, bool_decide (rv_id v = id))) by done.
    by destruct (List.filter _ (rawMaterialVariations db)).
Qed.

Lemma stockOf_writeStock_other db t t' newStock :
  t' ≠ t → stockOf (writeStock t newStock db) t' = stockOf db t'.
Proof.
  intros Hne. destruct t as [id|id], t' as [id'|id']; simpl; try done;
    unfold getLocalRawMaterialVariation; simpl.
  - rewrite filter_updateWhere_other; [done|].
    intros row Hrow. apply bool_decide_eq_true in Hrow. simpl.
    rewrite !bool_decide_eq_false_2 by congruence. done.
  - rewrite filter_updateWhere_other; [done|].
    intros row Hrow. apply bool_decide_eq_true in Hrow. simpl.
    rewrite !bool_decide_eq_false_2 by congruence. done.
Qed.

Lemma lastEntry_snoc t ledger e :
  lastEntry t (ledger ++ [e])
  = if bool_decide (target (sl_values e) = t) then Some e else lastEntry t ledger.
Proof.
  unfold lastEntry. rewrite List.filter_app. simpl.
  destruct (bool_decide (target (sl_values e) = t)).
  - apply last_snoc.
  - by rewrite app_nil_r.
Qed.

(** A mutation that writes [newStock] to the target of its ledger entry and
    records the same [newStock] keeps the ledger consistent. *)
Lemma record_consistent db t newStock entry :
  consistent db →
  target entry = t →
  sl_newStock entry = Some newStock →
  consistent (insertStockLedger entry (writeStock t newStock db)).2.
Proof.
  intros Hconsistent Htarget Hnew t'. unfold consistentAt, insertStockLedger.
  cbn [snd stockLedger with_stockLedger].
  rewrite lastEntry_snoc. cbn [sl_values].
  assert (Hstock : ∀ ledger, stockOf (with_stockLedger ledger (writeStock t newStock db)) t'
                             = stockOf (writeStock t newStock db) t')
    by (intros; by destruct t').
  rewrite Hstock. case_bool_decide as Ht'.
  - rewrite <- Ht', Htarget, stockOf_writeStock_same.
    destruct (stockOf db t); simpl; [|done]. by rewrite Hnew, bool_decide_eq_true_2.
  - rewrite stockOf_writeStock_other by congruence.
    assert (Hledger : stockLedger (writeStock t newStock db) = stockLedger db)
      by (by destruct t).
    rewrite Hledger. apply Hconsistent.
Qed.

(** Consistency only depends on the two stock tables and the ledger. *)
Lemma consistent_tables db db' :
  rawMaterials db' = rawMaterials db →
  rawMaterialVariations db' = rawMaterialVariations db →
  stockLedger db' = stockLedger db →
  consistent db → consistent db'.
Proof.
  intros Hm Hv Hl Hconsistent t. specialize (Hconsistent t).
  unfold consistentAt in *. rewrite Hl.
  assert (Hstock : stockOf db' t = stockOf db t).
  { destruct t; simpl; unfold getLocalRawMaterialVariation; by rewrite ?Hm, ?Hv. }
  by rewrite Hstock.
Qed.

End LedgerConsistency.

Section LedgerPreserved.

Import Ledger.

(** The two writes of a manual adjustment: the answer is 500 with nothing
    written, or 500 with the stock written and no ledger entry, or the
    adjustment with both written. *)
Lemma adjustMaterial_cases id values previousStock quantityChange newStock db :
  let answer :=
    StockAdjust.adjustMaterial id values previousStock quantityChange newStock db in
  int4 id && int4 newStock = false ∧ answer = (StockAdjust.ServerError, db) ∨
  int4 id && int4 newStock = true ∧ ledgerAccepts values = false ∧
  answer = (StockAdjust.ServerError, writeStock (Material id) newStock db) ∨
  int4 id && int4 newStock = true ∧ ledgerAccepts values = true ∧
  answer = (StockAdjust.Adjusted previousStock quantityChange newStock,
            (insertStockLedger values (writeStock (Material id) newStock db)).2).
Proof.
  unfold StockAdjust.adjustMaterial.
  destruct (updateLocalRawMaterialStock id newStock db) as [[row|] db1] eqn:Hupdate.
  - apply updateLocalRawMaterialStock_Some in Hupdate as (-> & -> & ->).
    destruct (createStockLedgerEntry values _) as [[e|] db2] eqn:Hinsert.
    + apply createStockLedgerEntry_Some in Hinsert as (_ & -> & ->). by right; right.
    + apply createStockLedgerEntry_None in Hinsert as (-> & ->). by right; left.
  - apply updateLocalRawMaterialStock_None in Hupdate as (-> & ->). by left.
Qed.

Lemma adjustVariation_cases id values previousStock quantityChange newStock db :
  let answer :=
    StockAdjust.adjustVariation id values previousStock quantityChange newStock db in
  int4 id && int4 newStock = false ∧ answer = (StockAdjust.ServerError, db) ∨
  int4 id && int4 newStock = true ∧ ledgerAccepts values = false ∧
  answer = (StockAdjust.ServerError, writeStock (Variation id) newStock db) ∨
  int4 id && int4 newStock = true ∧ ledgerAccepts values = true ∧
  answer = (StockAdjust.Adjusted previousStock quantityChange newStock,
            (insertStockLedger values (writeStock (Variation id) newStock db)).2).
Proof.
  unfold StockAdjust.adjustVariation.
  destruct (updateLocalRawMaterialVariationStock id newStock db) as [[row|] db1]
    eqn:Hupdate.
  - apply updateLocalRawMaterialVariationStock_Some in Hupdate as (-> & -> & ->).
    destruct (createStockLedgerEntry values _) as [[e|] db2] eqn:Hinsert.
    + apply createStockLedgerEntry_Some in Hinsert as (_ & -> & ->). by right; right.
    + apply createStockLedgerEntry_None in Hinsert as (-> & ->). by right; left.
  - apply updateLocalRawMaterialVariationStock_None in Hupdate as (-> & ->). by left.
Qed.

(** A manual adjustment that is not answered with 500 keeps the ledger
    consistent. *)
Lemma adjustMaterial_consistent id values previousStock quantityChange newStock db :
  consistent db →
  target values = Material id →
  sl_newStock values = Some newStock →
  let answer :=
    StockAdjust.adjustMaterial id values previousStock quantityChange newStock db in
  answer.1 ≠ StockAdjust.ServerError → consistent answer.2.
Proof.
  intros Hconsistent Htarget Hnew.
  destruct (adjustMaterial_cases id values previousStock quantityChange newStock db)
    as [[_ ->]|[(_ & _ & ->)|(_ & _ & ->)]]; simpl; try done.
  intros _. by apply (record_consistent db (Material id)).
Qed.

Lemma adjustVariation_consistent id values previousStock quantityChange newStock db :
  consistent db →
  target values = Variation id →
  sl_newStock values = Some newStock →
  let answer :=
    StockAdjust.adjustVariation id values previousStock quantityChange newStock db in
  answer.1 ≠ StockAdjust.ServerError → consistent answer.2.
Proof.
  intros Hconsistent Htarget Hnew.
  destruct (adjustVariation_cases id values previousStock quantityChange newStock db)
    as [[_ ->]|[(_ & _ & ->)|(_ & _ & ->)]]; simpl; try done.
  intros _. by apply (record_consistent db (Variation id)).
Qed.

Lemma addStock_consistent family id quantity notes db :
  consistent db →
  (StockAdjust.addStock family id quantity notes db).1 ≠ StockAdjust.ServerError →
  consistent (StockAdjust.addStock family id quantity notes db).2.
Proof.
  intros Hconsistent. unfold StockAdjust.addStock.
  destruct (quantity <=? 0); [done|].
  destruct (getLocalRawMaterial id db) as [material|]; [|done].
  by apply adjustMaterial_consistent.
Qed.

Lemma setStock_consistent family id level notes db :
  consistent db →
  (StockAdjust.setStock family id level notes db).1 ≠ StockAdjust.ServerError →
  consistent (StockAdjust.setStock family id level notes db).2.
Proof.
  intros Hconsistent. unfold StockAdjust.setStock.
  destruct (level <? 0); [done|].
  destruct (getLocalRawMaterial id db) as [material|]; [|done].
  by apply adjustMaterial_consistent.
Qed.

Lemma addVariationStock_consistent family materialId variationId quantity notes db :
  consistent db →
  (StockAdjust.addVariationStock family materialId variationId quantity notes db).1
  ≠ StockAdjust.ServerError →
  consistent (StockAdjust.addVariationStock family materialId variationId quantity
                notes db).2.
Proof.
  intros Hconsistent. unfold StockAdjust.addVariationStock.
  destruct (quantity <=? 0); [done|].
  destruct (StockAdjust.lookupVariation _ _ _ _) as [variation|response]; [|done].
  by apply adjustVariation_consistent.
Qed.

Lemma setVariationStock_consistent family materialId variationId level notes db :
  consistent db →
  (StockAdjust.setVariationStock family materialId variationId level notes db).1
  ≠ StockAdjust.ServerError →
  consistent (StockAdjust.setVariationStock family materialId variationId level
                notes db).2.
Proof.
  intros Hconsistent. unfold StockAdjust.setVariationStock.
  destruct (level <? 0); [done|].
  destruct (StockAdjust.lookupVariation _ _ _ _) as [variation|response]; [|done].
  by apply adjustVariation_consistent.
Qed.

(** X1. On a store where every stockQuantity is the newStock of the most
    recent ledger entry of its material or variation, each of the four manual
    adjustment routes (add-stock and set-stock, on a material and on a
    variation, in both families of routes) leaves the store in that state
    whenever its answer is not 500: when the request is rejected with 400 or
    404, and when the adjustment is made. (An answer 500 can come after the
    stock was written and the ledger insert refused.) *)
Theorem manual_adjustments_consistent family id variationId amount notes db :
  consistent db →
  ((StockAdjust.addStock family id amount notes db).1 ≠ StockAdjust.ServerError →
   consistent (StockAdjust.addStock family id amount notes db).2) ∧
  ((StockAdjust.setStock family id amount notes db).1 ≠ StockAdjust.ServerError →
   consistent (StockAdjust.setStock family id amount notes db).2) ∧
  ((StockAdjust.addVariationStock family id variationId amount notes db).1
   ≠ StockAdjust.ServerError →
   consistent (StockAdjust.addVariationStock family id variationId amount notes db).2) ∧
  ((StockAdjust.setVariationStock family id variationId amount notes db).1
   ≠ StockAdjust.ServerError →
   consistent (StockAdjust.setVariationStock family id variationId amount notes db).2).
Proof.
  intros Hconsistent. split; [|split; [|split]].
  - by apply addStock_consistent.
  - by apply setStock_consistent.
  - by apply addVariationStock_consistent.
  - by apply setVariationStock_consistent.
Qed.

(** One accepted receipt keeps the ledger consistent. *)
Lemma stockIn_consistent order item quantity db result db' :
  consistent db →
  Receiving.stockIn order item quantity db = Some (result, db') →
  consistent db'.
Proof.
  intros Hconsistent Hin.
  apply stockIn_Some in Hin as (entry & -> & Htarget & _ & _ & _ & _ & Hnew & _).
  by apply record_consistent.
Qed.

Lemma receiveAll_consistent order items db :
  consistent db →
  consistent (Receiving.run_db (JS.stateOf (Receiving.receiveAll order items db))).
Proof.
  intros Hconsistent. unfold Receiving.receiveAll.
  apply (forOf_invariant (λ st, consistent (Receiving.run_db st))); [done|].
  intros st receipt Hst _.
  destruct (receiveOne_cases order st receipt)
    as [->|[->|(line & result & db' & _ & _ & _ & _ & Hin & ->)]]; try done.
  simpl. by eapply stockIn_consistent.
Qed.

Lemma receivePurchaseOrderItems_consistent now id receipts db :
  consistent db → consistent (receivePurchaseOrderItems now id receipts db).2.
Proof.
  intros Hconsistent.
  destruct (receivePurchaseOrderItems_store now id receipts db)
    as (_ & Hm & Hv & Hl & _).
  by apply (consistent_tables db).
Qed.

(** X2. The receive route keeps the ledger consistent, whatever the request:
    if every stockQuantity is the newStock of the most recent ledger entry of
    its material or variation before the call, it is so after the call. *)
Theorem receive_consistent now id items db :
  consistent db → consistent (Receiving.receive now id items db).2.
Proof.
  intros Hconsistent.
  destruct (receive_store now id items db)
    as [->|(order & _ & [[_ ->]|(st & Hloop & -> & _)])]; [done | |].
  - by apply receiveAll_consistent.
  - apply receivePurchaseOrderItems_consistent.
    pose proof (receiveAll_consistent order items db Hconsistent) as Hafter.
    by rewrite Hloop in Hafter.
Qed.

(** The processor keeps the ledger consistent on every mapping whose ledger
    entry is filed under the record that is updated, as long as no update
    fails. *)
Lemma processMapping_consistent body item st mapping :
  consistent (OrderStock.run_db st) →
  (∀ material,
      OrderStock.run_materialsMap st !! mp_materialProductId mapping = Some material →
      aligned material mapping) →
  OrderStock.run_failedUpdates (OrderStock.processMapping body item st mapping)
  = OrderStock.run_failedUpdates st →
  consistent (OrderStock.run_db (OrderStock.processMapping body item st mapping)).
Proof.
  intros Hconsistent Haligned. unfold OrderStock.processMapping.
  destruct (OrderStock.run_materialsMap st !! _) as [material|]; [|done].
  specialize (Haligned material eq_refl). unfold aligned in Haligned.
  destruct (OrderStock.resolveVariation material mapping) as [variation|] eqn:Hresolve;
    [|done].
  destruct (negb _); [done|].
  assert (Htarget : ∀ values,
            sl_materialProductId values = mp_materialProductId mapping →
            sl_materialVariationId values = JS.orNull (mp_materialVariationId mapping) →
            target values = deductionTarget mapping variation).
  { intros values Hid Hvid. unfold target, deductionTarget, OrderStock.variationTarget.
    rewrite Hid, Hvid. unfold OrderStock.resolveVariation in Hresolve.
    destruct (mp_materialVariationId mapping) as [vid|]; [|done].
    destruct Haligned as [Hvid0 [variations Hvariations]].
    rewrite Hvariations in Hresolve.
    destruct (JS.find _ variations) as [found|]; [|done].
    injection Hresolve as <-. unfold JS.orNull, JS.truthy.
    by rewrite bool_decide_eq_false_2. }
  unfold OrderStock.deduct.
  destruct (OrderStock.updateStock _ _ _ _ _) as [[db1 updated]|] eqn:Hupdate;
    [|simpl; intros Hfailed; by apply (f_equal length) in Hfailed;
      rewrite length_app in Hfailed; simpl in Hfailed; lia].
  apply updateStock_Some in Hupdate as [-> _].
  destruct (createStockLedgerEntry _ _) as [[ledgerEntry|] db2] eqn:Hinsert.
  - apply createStockLedgerEntry_Some in Hinsert as (_ & -> & _). intros _.
    cbn [OrderStock.run_db]. apply record_consistent; [done| |done].
    by apply Htarget.
  - simpl. intros Hfailed. apply (f_equal length) in Hfailed.
    rewrite length_app in Hfailed. simpl in Hfailed. lia.
Qed.

(** [failedUpdates] only grows. *)
Lemma processMapping_failedUpdates body item st mapping :
  ∃ failures,
    OrderStock.run_failedUpdates (OrderStock.processMapping body item st mapping)
    = OrderStock.run_failedUpdates st ++ failures.
Proof.
  unfold OrderStock.processMapping.
  destruct (OrderStock.run_materialsMap st !! _) as [material|];
    [|exists []; by rewrite app_nil_r].
  destruct (OrderStock.resolveVariation material mapping) as [variation|];
    [|exists []; by rewrite app_nil_r].
  destruct (negb _); [exists []; by rewrite app_nil_r|].
  unfold OrderStock.deduct.
  destruct (OrderStock.updateStock _ _ _ _ _) as [[db1 updated]|]; [|by eexists].
  destruct (createStockLedgerEntry _ _) as [[ledgerEntry|] db2];
    [exists []; by rewrite app_nil_r | by eexists].
Qed.

(** After the loop over the line items on a store in which no mapping names
    a material variation: if no update has failed, the ledger is
    consistent. *)
Lemma processLineItems_consistent body db :
  (∀ mapping, mapping ∈ materialProductMappings db →
              mp_materialVariationId mapping = None) →
  consistent db →
  let st := JS.stateOf (OrderStock.processLineItems body db) in
  OrderStock.run_failedUpdates st = [] → consistent (OrderStock.run_db st).
Proof.
  intros Hmappings Hconsistent. unfold OrderStock.processLineItems.
  apply (forOf_invariant
           (λ st, materialProductMappings (OrderStock.run_db st)
                  = materialProductMappings db ∧
                  (OrderStock.run_failedUpdates st = [] →
                   consistent (OrderStock.run_db st)))); [done|].
  intros st item [Hsame Hst] _. split.
  { destruct (processLineItem_sameOrders body st item) as (_ & Hmap & _). congruence. }
  unfold OrderStock.processLineItem. destruct (negb _); [done|].
  case_bool_decide; [done|]. simpl.
  assert (Hnone : ∀ mapping,
             mapping ∈ getMaterialMappingsForProduct (li_product_id item)
                         (li_variation_id item) (OrderStock.run_db st) →
             mp_materialVariationId mapping = None).
  { intros mapping Hin. apply Hmappings. rewrite <- Hsame.
    unfold getMaterialMappingsForProduct in Hin.
    destruct (JS.truthy _);
      apply list_elem_of_In, List.filter_In in Hin as [Hin _];
      by apply list_elem_of_In. }
  revert Hnone. generalize (getMaterialMappingsForProduct (li_product_id item)
                              (li_variation_id item) (OrderStock.run_db st)).
  intros mappings Hnone.
  apply (foldl_invariant (λ st', OrderStock.run_failedUpdates st' = [] →
                                 consistent (OrderStock.run_db st'))); [done|].
  intros st' mapping Hst' Hin Hfailed.
  destruct (processMapping_failedUpdates body item st' mapping) as [failures Hgrown].
  rewrite Hgrown in Hfailed. apply app_eq_nil in Hfailed as [Hbefore ->].
  rewrite app_nil_r in Hgrown.
  apply processMapping_consistent; [by apply Hst'| |done].
  intros material _. unfold aligned. by rewrite (Hnone mapping Hin).
Qed.

(** X3. On a store in which no mapping names a material variation, an
    invocation of the order stock processor that answers with its report and
    reports no failed update keeps the ledger consistent: every deduction
    wrote the new stock to the material and recorded the same newStock. (A
    failed update may have written the stock without a ledger entry.) *)
Theorem processOrderStock_consistent now body db report db' :
  (∀ mapping, mapping ∈ materialProductMappings db →
              mp_materialVariationId mapping = None) →
  consistent db →
  OrderStock.processOrderStock now body db = (OrderStock.Success report, db') →
  OrderStock.failedUpdates report = [] →
  consistent db'.
Proof.
  intros Hmappings Hconsistent Hrun Hfailed.
  apply processOrderStock_Success in Hrun as (st & _ & _ & Hloop & _ & -> & ->).
  pose proof (processLineItems_consistent body db Hmappings Hconsistent) as Hafter.
  rewrite Hloop in Hafter. simpl in Hafter, Hfailed.
  by apply (consistent_tables (OrderStock.run_db st)); [..|apply Hafter].
Qed.

(** Every entry that the four kinds of mutation write satisfies
    newStock = previousStock + quantityChange. *)
Lemma created_balanced values db db0 previousStock newStock :
  Forall balanced (stockLedger db0) →
  stockLedger db = stockLedger db0 →
  sl_previousStock values = Some previousStock →
  sl_newStock values = Some newStock →
  newStock = previousStock + sl_quantityChange values →
  Forall balanced (stockLedger (insertStockLedger values db).2).
Proof.
  intros Hold Hsame Hprevious Hnew Hsum. simpl. rewrite Hsame.
  apply Forall_app. split; [done|]. apply Forall_singleton.
  exists previousStock, newStock. by repeat split.
Qed.

Lemma adjustMaterial_balanced id values previousStock quantityChange newStock db :
  Forall balanced (stockLedger db) →
  sl_previousStock values = Some previousStock →
  sl_newStock values = Some newStock →
  newStock = previousStock + sl_quantityChange values →
  Forall balanced
    (stockLedger
       (StockAdjust.adjustMaterial id values previousStock quantityChange newStock db).2).
Proof.
  intros Hold Hprevious Hnew Hsum.
  destruct (adjustMaterial_cases id values previousStock quantityChange newStock db)
    as [[_ ->]|[(_ & _ & ->)|(_ & _ & ->)]]; try done.
  by eapply created_balanced.
Qed.

Lemma adjustVariation_balanced id values previousStock quantityChange newStock db :
  Forall balanced (stockLedger db) →
  sl_previousStock values = Some previousStock →
  sl_newStock values = Some newStock →
  newStock = previousStock + sl_quantityChange values →
  Forall balanced
    (stockLedger
       (StockAdjust.adjustVariation id values previousStock quantityChange newStock
          db).2).
Proof.
  intros Hold Hprevious Hnew Hsum.
  destruct (adjustVariation_cases id values previousStock quantityChange newStock db)
    as [[_ ->]|[(_ & _ & ->)|(_ & _ & ->)]]; try done.
  by eapply created_balanced.
Qed.

(** X4. The manual adjustment routes under /api/local-materials, which take
    a number only, append nothing but ledger entries with
    newStock = previousStock + quantityChange: if all entries of the ledger
    satisfy the equation before the call, all do after it, whatever the
    answer. *)
Theorem adjustments_balanced id variationId amount notes db :
  let family := StockAdjust.LocalMaterials in
  Forall balanced (stockLedger db) →
  Forall balanced (stockLedger (StockAdjust.addStock family id amount notes db).2) ∧
  Forall balanced (stockLedger (StockAdjust.setStock family id amount notes db).2) ∧
  Forall balanced
    (stockLedger (StockAdjust.addVariationStock family id variationId amount notes db).2) ∧
  Forall balanced
    (stockLedger (StockAdjust.setVariationStock family id variationId amount notes db).2).
Proof.
  intros family Hold.
  unfold StockAdjust.addStock, StockAdjust.setStock, StockAdjust.addVariationStock,
    StockAdjust.setVariationStock.
  destruct (amount <=? 0), (amount <? 0), (getLocalRawMaterial id db),
    (StockAdjust.lookupVariation family id variationId db);
    repeat split; try done;
    (apply adjustMaterial_balanced || apply adjustVariation_balanced);
    try done; simpl; lia.
Qed.

(** X5. The receive route only appends ledger entries with
    newStock = previousStock + quantityChange. *)
Theorem receive_balanced now id items db :
  Forall balanced (stockLedger db) →
  Forall balanced (stockLedger (Receiving.receive now id items db).2).
Proof.
  intros Hold.
  assert (Hloop : ∀ order,
            Forall balanced
              (stockLedger
                 (Receiving.run_db (JS.stateOf (Receiving.receiveAll order items db))))).
  { intros order. unfold Receiving.receiveAll.
    apply (forOf_invariant (λ st, Forall balanced (stockLedger (Receiving.run_db st))));
      [done|].
    intros st receipt Hst _.
    destruct (receiveOne_cases order st receipt)
      as [->|[->|(line & result & db' & _ & _ & _ & _ & Hin & ->)]]; try done.
    apply stockIn_Some in Hin
      as (entry & -> & _ & _ & _ & Hchange & Hprevious & Hnew & _).
    simpl. eapply created_balanced; [exact Hst| |exact Hprevious|exact Hnew|lia].
    by destruct (Reports.lineTarget line). }
  destruct (receive_store now id items db)
    as [->|(order & _ & [[_ ->]|(st & Hrun & -> & _)])]; [done | apply Hloop |].
  destruct (receivePurchaseOrderItems_store now id
              (Receiving.run_validatedReceipts st) (Receiving.run_db st))
    as (_ & _ & _ & -> & _).
  specialize (Hloop order). by rewrite Hrun in Hloop.
Qed.

(** X6. The order stock processor only appends ledger entries with
    newStock = previousStock + quantityChange. *)
Theorem processOrderStock_balanced now body db :
  Forall balanced (stockLedger db) →
  Forall balanced (stockLedger (OrderStock.processOrderStock now body db).2).
Proof.
  intros Hold.
  assert (Hloop : Forall balanced
                    (stockLedger (OrderStock.run_db
                                    (JS.stateOf (OrderStock.processLineItems body db))))).
  { unfold OrderStock.processLineItems.
    apply (forOf_invariant
             (λ st, Forall balanced (stockLedger (OrderStock.run_db st)))); [done|].
    intros st item Hst _. unfold OrderStock.processLineItem.
    destruct (negb _); [done|]. case_bool_decide; [done|]. simpl.
    apply (foldl_invariant
             (λ st, Forall balanced (stockLedger (OrderStock.run_db st)))); [done|].
    intros st' mapping Hst' _. unfold OrderStock.processMapping.
    destruct (OrderStock.run_materialsMap st' !! _) as [material|]; [|done].
    destruct (OrderStock.resolveVariation material mapping) as [variation|]; [|done].
    destruct (negb _); [done|]. unfold OrderStock.deduct.
    destruct (OrderStock.updateStock _ _ _ _ _) as [[db1 updated]|] eqn:Hupdate;
      [|done].
    apply updateStock_Some in Hupdate as [-> _].
    destruct (createStockLedgerEntry _ _) as [[ledgerEntry|] db2] eqn:Hinsert.
    - apply createStockLedgerEntry_Some in Hinsert as (_ & -> & _).
      cbn [OrderStock.run_db].
      eapply created_balanced; [exact Hst'| |done|done|simpl; lia].
      by destruct (deductionTarget mapping variation).
    - apply createStockLedgerEntry_None in Hinsert as (-> & _).
      cbn [OrderStock.run_db]. by destruct (deductionTarget mapping variation). }
  destruct (processOrderStock_store body now db) as [->|[->|[report ->]]]; done.
Qed.

End LedgerPreserved.

Section LedgerPreservedWitnesses.

Import Ledger Scenario Cases.

Lemma cordDB_consistent : consistent cordDB.
Proof. apply consistent_ledger. vm_compute. reflexivity. Qed.

Lemma countedDB_consistent : consistent countedDB.
Proof. apply consistent_ledger. vm_compute. reflexivity. Qed.

Lemma countedPurchaseDB_consistent : consistent countedPurchaseDB.
Proof. apply consistent_ledger. vm_compute. reflexivity. Qed.

Lemma stockTake_balanced id materialId variationId level :
  balanced (stockTake id materialId variationId level).
Proof. exists 0, level. repeat split; simpl; lia. Qed.

Lemma manual_adjustments_consistent_witness :
  consistent cordDB ∧
  consistent (StockAdjust.setStock StockAdjust.LocalMaterials 1 12 None cordDB).2 ∧
  consistent (StockAdjust.addVariationStock StockAdjust.LocalMaterials 1 7 12 None
                cordDB).2.
Proof.
  pose proof (manual_adjustments_consistent StockAdjust.LocalMaterials 1 7 12 None
                cordDB cordDB_consistent) as (_ & Hset & Hadd & _).
  split; [exact cordDB_consistent|]. split.
  - apply Hset. vm_compute. discriminate.
  - apply Hadd. vm_compute. discriminate.
Defined.

(** A stock take that the route answers with 500 after the stock was
    written: material "Foil" is 10 short, as its last ledger entry says, and
    is counted at 2147483647. The stock is set, the ledger insert is refused
    because the change does not fit an [integer], and the stock no longer is
    the newStock of the last entry. *)
Lemma setStock_refused_insert_breaks_consistency :
  let answer := StockAdjust.setStock StockAdjust.LocalMaterials 3 2147483647 None
                  oversoldDB in
  consistent oversoldDB ∧
  answer.1 = StockAdjust.ServerError ∧
  rm_stockQuantity <$> rawMaterials answer.2 = [Some 2147483647] ∧
  stockLedger answer.2 = stockLedger oversoldDB ∧
  ¬ consistent answer.2.
Proof.
  repeat split; try (vm_compute; reflexivity).
  - apply consistent_ledger. vm_compute. reflexivity.
  - intros Hconsistent. specialize (Hconsistent (Material 3)).
    vm_compute in Hconsistent. discriminate.
Qed.

Lemma receive_consistent_witness :
  consistent countedPurchaseDB ∧
  consistent (Receiving.receive 7 1 [receipt 1 12] countedPurchaseDB).2.
Proof.
  split; [exact countedPurchaseDB_consistent|].
  apply (receive_consistent 7 1 [receipt 1 12] countedPurchaseDB).
  exact countedPurchaseDB_consistent.
Defined.

Lemma processOrderStock_consistent_witness :
  ∃ report db',
    OrderStock.processOrderStock 1 order500 countedDB = (OrderStock.Success report, db') ∧
    consistent countedDB ∧
    consistent db'.
Proof.
  destruct (OrderStock.processOrderStock 1 order500 countedDB) as [answer db'] eqn:Hrun.
  assert (Hanswer : ∃ report, answer = OrderStock.Success report ∧
                              OrderStock.failedUpdates report = []).
  { assert (Heq : answer = (OrderStock.processOrderStock 1 order500 countedDB).1)
      by (by rewrite Hrun).
    rewrite Heq. vm_compute. eauto. }
  destruct Hanswer as (report & -> & Hfailed).
  exists report, db'. split; [reflexivity|]. split; [exact countedDB_consistent|].
  apply (processOrderStock_consistent 1 order500 countedDB report db').
  - intros mapping Hin. simpl in Hin. apply list_elem_of_singleton in Hin.
    rewrite Hin. reflexivity.
  - exact countedDB_consistent.
  - exact Hrun.
  - exact Hfailed.
Defined.

Lemma adjustments_balanced_witness :
  Forall balanced (stockLedger cordDB) ∧
  Forall balanced
    (stockLedger (StockAdjust.addStock StockAdjust.LocalMaterials 1 4 None cordDB).2).
Proof.
  assert (Hledger : Forall balanced (stockLedger cordDB)).
  { simpl. repeat constructor; apply stockTake_balanced. }
  split; [exact Hledger|].
  exact (proj1 (adjustments_balanced 1 7 4 None cordDB Hledger)).
Defined.

Lemma receive_balanced_witness :
  Forall balanced (stockLedger countedPurchaseDB) ∧
  Forall balanced
    (stockLedger (Receiving.receive 7 1 [receipt 1 12] countedPurchaseDB).2).
Proof.
  assert (Hledger : Forall balanced (stockLedger countedPurchaseDB)).
  { simpl. repeat constructor; apply stockTake_balanced. }
  split; [exact Hledger|].
  exact (receive_balanced 7 1 [receipt 1 12] countedPurchaseDB Hledger).
Defined.

Lemma processOrderStock_balanced_witness :
  Forall balanced (stockLedger countedDB) ∧
  Forall balanced (stockLedger (OrderStock.processOrderStock 1 order500 countedDB).2).
Proof.
  assert (Hledger : Forall balanced (stockLedger countedDB)).
  { simpl. repeat constructor; apply stockTake_balanced. }
  split; [exact Hledger|].
  exact (processOrderStock_balanced 1 order500 countedDB Hledger).
Defined.

End LedgerPreservedWitnesses.

Section LedgerScenario.

Import Ledger OrderStock Scenario.

(** C2 (evaluation of the code at the failing input). Product 100 is mapped
    to variation 7 of material 1, which is soft-deleted, so the material is
    loaded without variations. Processing three units deducts them from the
    parent material's stock (10 to 7) and files the ledger entry under
    variation 7: afterwards the material's stockQuantity 7 differs from the
    newStock 10 of its most recent entry, and the variation's stockQuantity 5
    from the newStock 7 of its most recent entry. *)
Theorem processOrderStock_breaks_ledger_consistency :
  let db' := (processOrderStock 1 order600 cordDB).2 in
  consistent cordDB ∧
  stockOf db' (Material 1) = Some (Some 7) ∧
  (sl_newStock ∘ sl_values) <$> lastEntry (Material 1) (stockLedger db')
  = Some (Some 10) ∧
  stockOf db' (Variation 7) = Some (Some 5) ∧
  (sl_newStock ∘ sl_values) <$> lastEntry (Variation 7) (stockLedger db')
  = Some (Some 7) ∧
  ¬ consistent db'.
Proof.
  repeat split; try (vm_compute; reflexivity).
  - apply consistent_ledger. vm_compute. reflexivity.
  - intros Hconsistent. specialize (Hconsistent (Material 1)).
    vm_compute in Hconsistent. discriminate.
Qed.

End LedgerScenario.

(** ** The manageStock flag *)

Section ManageStockCalculator.

Import Fulfillment.

Variable fm : RawMaterial → bool.
Variable fv : RawMaterialVariation → bool.

Local Abbreviation reflag := (withManageStock fm fv).

Lemma foldl_ext_in {S A : Type} (f g : S → A → S) (l : list A) (s : S) :
  (∀ s x, x ∈ l → f s x = g s x) → foldl f s l = foldl g s l.
Proof.
  revert s. induction l as [|x l IH]; intros s Hfg; simpl; [done|].
  rewrite Hfg by apply list_elem_of_here. apply IH.
  intros s' y Hy. apply Hfg. by apply list_elem_of_further.
Qed.

Lemma foldl_map {S A B : Type} (f : S → B → S) (g : A → B) (l : list A) (s : S) :
  foldl f s (map g l) = foldl (λ s x, f s (g x)) s l.
Proof. revert s. induction l as [|x l IH]; intros s; simpl; [done | apply IH]. Qed.

Lemma find_map {A B : Type} (p : B → bool) (g : A → B) (l : list A) :
  List.find p (map g l) = g <$> List.find (λ x, p (g x)) l.
Proof.
  induction l as [|x l IH]; simpl; [done|]. by destruct (p (g x)).
Qed.

Lemma newMap_reflag `{Countable K} (key : LocalRawMaterialWithVariations → K)
    (localMaterials : list LocalRawMaterialWithVariations) :
  (∀ m, key (reflag m) = key m) →
  JS.newMap (map (λ m, (key m, m)) (map reflag localMaterials))
  = reflag <$> JS.newMap (map (λ m, (key m, m)) localMaterials).
Proof.
  intros Hkey. unfold JS.newMap.
  assert (Hacc : ∀ acc : gmap K LocalRawMaterialWithVariations,
             foldl (λ m kv, <[kv.1 := kv.2]> m) (reflag <$> acc)
                   (map (λ m, (key m, m)) (map reflag localMaterials))
             = reflag <$> foldl (λ m kv, <[kv.1 := kv.2]> m) acc
                                (map (λ m, (key m, m)) localMaterials)).
  { induction localMaterials as [|m l IH]; intros acc; simpl; [done|].
    rewrite <- IH, fmap_insert, Hkey. done. }
  rewrite <- Hacc. by rewrite fmap_empty.
Qed.

Lemma findMaterial_reflag localMaterials id :
  findMaterial (map reflag localMaterials) id
  = reflag <$> findMaterial localMaterials id.
Proof.
  unfold findMaterial, materialsByLocalId, materialsByWooId.
  rewrite !newMap_reflag by done. rewrite !lookup_fmap.
  by destruct (JS.newMap _ !! id).
Qed.

Lemma normalizeId_reflag localMaterials id :
  normalizeId (map reflag localMaterials) id = normalizeId localMaterials id.
Proof.
  unfold normalizeId, materialsByLocalId, materialsByWooId.
  rewrite !newMap_reflag by done. rewrite !lookup_fmap.
  destruct (JS.newMap _ !! id); [done|]. simpl.
  by destruct (JS.newMap _ !! Some id).
Qed.

Lemma normalizeVariationId_reflag material varId :
  normalizeVariationId (reflag material) varId = normalizeVariationId material varId.
Proof.
  unfold normalizeVariationId. simpl.
  destruct varId as [vid|]; [|done].
  destruct (lm_variations material) as [variations|]; simpl; [|done].
  destruct (negb _); [|done].
  unfold JS.find. rewrite find_map. simpl.
  by destruct (List.find _ variations).
Qed.

Lemma displayName_reflag material varId :
  displayName (reflag material) varId = displayName material varId.
Proof.
  unfold displayName. simpl.
  destruct varId as [vid|]; [|done].
  destruct (lm_variations material) as [variations|]; simpl; [|done].
  destruct (negb _); [|done].
  unfold JS.find. rewrite find_map. simpl.
  by destruct (List.find _ variations).
Qed.

Lemma needMapping_reflag localMaterials item materialsNeeded mapping :
  needMapping (map reflag localMaterials) item materialsNeeded mapping
  = needMapping localMaterials item materialsNeeded mapping.
Proof.
  unfold needMapping. rewrite findMaterial_reflag, normalizeId_reflag.
  destruct (findMaterial localMaterials _) as [material|]; simpl; [|done].
  by rewrite normalizeVariationId_reflag, displayName_reflag.
Qed.

Lemma materialsNeededFor_reflag localMaterials allMappings order :
  materialsNeededFor (map reflag localMaterials) allMappings order
  = materialsNeededFor localMaterials allMappings order.
Proof.
  unfold materialsNeededFor. apply foldl_ext_in. intros mn item _.
  apply foldl_ext_in. intros mn' mapping _. apply needMapping_reflag.
Qed.

Lemma seedMaterial_reflag materialsMap material :
  seedMaterial materialsMap (reflag material) = seedMaterial materialsMap material.
Proof.
  unfold seedMaterial, isVariableWithVariations, seedVariations. simpl.
  destruct (lm_variations material) as [variations|]; simpl; [|done].
  rewrite length_map. destruct (_ && _); [|done].
  unfold lm_id. simpl. unfold lm_id. rewrite foldl_map.
  match goal with
  | |- (let '(_, _) := ?X in _) = (let '(_, _) := ?Y in _) =>
      assert (X = Y) as ->; [|done]
  end.
  apply foldl_ext_in. by intros [acc total] variation _.
Qed.

Lemma buildStockMap_reflag localMaterials :
  buildStockMap (map reflag localMaterials) = buildStockMap localMaterials.
Proof.
  unfold buildStockMap. rewrite foldl_map.
  apply foldl_ext_in. intros acc m _. apply seedMaterial_reflag.
Qed.

Lemma runFulfillment_reflag localMaterials allMappings processedOrdersList orders :
  runFulfillment (map reflag localMaterials) allMappings processedOrdersList orders
  = runFulfillment localMaterials allMappings processedOrdersList orders.
Proof.
  unfold runFulfillment. rewrite buildStockMap_reflag.
  apply foldl_ext_in. intros [used status] order _.
  unfold processOrder. by rewrite materialsNeededFor_reflag.
Qed.

End ManageStockCalculator.

Section ManageStock.

Import Fulfillment OrderStock Scenario.

(** In the processor, a mapping for which the flag that the route reads is
    false adds one entry to [skippedItems] and changes nothing else, whatever
    the stock quantity. *)
Lemma processor_skips_unmanaged body item st mapping material variation :
  run_materialsMap st !! mp_materialProductId mapping = Some material →
  resolveVariation material mapping = Some variation →
  effectiveManageStock material mapping variation = false →
  let st' := processMapping body item st mapping in
  run_skippedItems st'
  = run_skippedItems st ++
    [{| sk_productId := li_product_id item;
        sk_variationId := li_variation_id item;
        sk_name := li_name item;
        sk_materialId := mp_materialProductId mapping;
        sk_materialVariationId := None;
        sk_materialName := Some (OrderStock.displayName material mapping variation);
        sk_reason := "Material does not have stock management enabled" |}] ∧
  run_db st' = run_db st ∧
  run_results st' = run_results st ∧
  run_failedUpdates st' = run_failedUpdates st.
Proof.
  intros Hmaterial Hvariation Hflag.
  unfold processMapping. rewrite Hmaterial, Hvariation. simpl. by rewrite Hflag.
Qed.

(** A flag that is true lets the deduction be attempted: nothing is pushed
    on [skippedItems], and either a result or a failed update is. *)
Lemma processor_deducts_managed body item st mapping material variation :
  run_materialsMap st !! mp_materialProductId mapping = Some material →
  resolveVariation material mapping = Some variation →
  effectiveManageStock material mapping variation = true →
  let st' := processMapping body item st mapping in
  run_skippedItems st' = run_skippedItems st ∧
  (length (run_results st') + length (run_failedUpdates st')
   = S (length (run_results st) + length (run_failedUpdates st)))%nat.
Proof.
  intros Hmaterial Hvariation Hflag.
  unfold processMapping. rewrite Hmaterial, Hvariation. simpl. rewrite Hflag. simpl.
  unfold deduct. destruct (updateStock _ _ _ _ _) as [[db1 updated]|].
  - destruct (createStockLedgerEntry _ _) as [[ledgerEntry|] db2]; simpl;
      rewrite length_app; simpl; split; try done; lia.
  - simpl. rewrite length_app. simpl. split; [done | lia].
Qed.

(** The calculator never reads the flag: its report is the same for any
    other setting of the manageStock flags of the catalog. *)
Lemma calculator_ignores_manageStock fm fv localMaterials allMappings
    processedOrdersList orders :
  fulfillmentStatus (map (withManageStock fm fv) localMaterials) allMappings
                    processedOrdersList orders
  = fulfillmentStatus localMaterials allMappings processedOrdersList orders.
Proof. unfold fulfillmentStatus. by rewrite runFulfillment_reflag. Qed.




End ManageStock.

(** ** No double allocation *)

Section NeededMap.

Import Fulfillment.

Lemma updateFound_fst {A B : Type} (p : A * B → bool) (f : A * B → A * B)
    (l : list (A * B)) :
  (∀ e, (f e).1 = e.1) → (JS.updateFound p f l).*1 = l.*1.
Proof.
  intros Hf. induction l as [|e l IH]; simpl; [done|].
  destruct (p e); rewrite !fmap_cons; [by rewrite Hf | by rewrite IH].
Qed.

Lemma find_hasKey_None (key : Key) (materialsNeeded : list (Key * Needed)) :
  JS.find (hasKey key) materialsNeeded = None ↔ key ∉ materialsNeeded.*1.
Proof.
  unfold JS.find. induction materialsNeeded as [|[k n] l IH]; simpl.
  - split; [|done]. intros _ Hin. by apply elem_of_nil in Hin.
  - unfold hasKey at 1. simpl. case_bool_decide as Hk.
    + split; [done|]. intros Hnot. destruct Hnot. subst. apply list_elem_of_here.
    + rewrite IH, not_elem_of_cons. simpl in Hk. intuition congruence.
Qed.

Lemma addNeeded_NoDup key quantity fresh (materialsNeeded : list (Key * Needed)) :
  NoDup materialsNeeded.*1 → NoDup (addNeeded key quantity fresh materialsNeeded).*1.
Proof.
  intros Hnodup. unfold addNeeded.
  destruct (JS.find (hasKey key) materialsNeeded) eqn:Hfind.
  - by rewrite updateFound_fst.
  - apply find_hasKey_None in Hfind. rewrite fmap_app. simpl.
    apply NoDup_app. split; [done|]. split; [|apply NoDup_singleton].
    intros k Hk Hk'. apply list_elem_of_singleton in Hk' as ->. done.
Qed.

Lemma materialsNeededFor_NoDup localMaterials allMappings order :
  NoDup (materialsNeededFor localMaterials allMappings order).*1.
Proof.
  unfold materialsNeededFor.
  apply (foldl_invariant (λ mn : list (Key * Needed), NoDup mn.*1)).
  - apply NoDup_nil_2.
  - intros mn item Hmn _.
    apply (foldl_invariant (λ mn : list (Key * Needed), NoDup mn.*1)); [done|].
    intros mn' mapping Hmn' _. unfold needMapping.
    destruct (findMaterial localMaterials _); [|done]. by apply addNeeded_NoDup.
Qed.

Lemma neededOf_cons_eq key n (l : list (Key * Needed)) :
  neededOf ((key, n) :: l) key = nd_needed n.
Proof. unfold neededOf, JS.find, hasKey. simpl. by rewrite bool_decide_eq_true_2. Qed.

Lemma neededOf_cons_ne key key' n (l : list (Key * Needed)) :
  key' ≠ key → neededOf ((key', n) :: l) key = neededOf l key.
Proof.
  intros Hne. unfold neededOf, JS.find, hasKey. simpl.
  by rewrite bool_decide_eq_false_2.
Qed.

Lemma neededOf_absent key (l : list (Key * Needed)) :
  key ∉ l.*1 → neededOf l key = 0.
Proof. intros Hnot. apply find_hasKey_None in Hnot. unfold neededOf. by rewrite Hnot. Qed.

(** After the commit, the usage of every key has grown by what the order
    needs of it. *)
Lemma commitUsage_lookup (materialsNeeded : list (Key * Needed)) (used : gmap Key Z) key :
  NoDup materialsNeeded.*1 →
  JS.orZero (commitUsage used materialsNeeded !! key)
  = JS.orZero (used !! key) + neededOf materialsNeeded key.
Proof.
  unfold commitUsage. revert used.
  induction materialsNeeded as [|[k n] l IH]; intros used Hnodup; simpl.
  - unfold neededOf. simpl. lia.
  - apply NoDup_cons in Hnodup as [Hk Hnodup]. rewrite IH by done.
    destruct (decide (k = key)) as [->|Hne].
    + rewrite lookup_insert_eq, neededOf_cons_eq, (neededOf_absent key l) by done.
      simpl. lia.
    + rewrite lookup_insert_ne, neededOf_cons_ne by done. done.
Qed.

Lemma commitUsage_is_Some (materialsNeeded : list (Key * Needed)) (used : gmap Key Z) key :
  is_Some (commitUsage used materialsNeeded !! key) →
  key ∈ materialsNeeded.*1 ∨ is_Some (used !! key).
Proof.
  unfold commitUsage. revert used.
  induction materialsNeeded as [|[k n] l IH]; intros used Hsome; simpl in *.
  - by right.
  - destruct (IH _ Hsome) as [Hin|Hused].
    + left. by apply list_elem_of_further.
    + destruct (decide (k = key)) as [->|Hne].
      * left. apply list_elem_of_here.
      * right. by rewrite lookup_insert_ne in Hused.
Qed.

(** The availability check succeeds only when every entry fits in what is
    left of the pool. *)
Lemma checkStock_true (pool used : gmap Key Z)
    (materialsNeeded : list (Key * Needed)) key :
  (checkStock pool used materialsNeeded).1 = true →
  key ∈ materialsNeeded.*1 →
  neededOf materialsNeeded key ≤ JS.orZero (pool !! key) - JS.orZero (used !! key).
Proof.
  unfold checkStock.
  assert (Hgen : ∀ acc,
             (foldl (λ '(canFulfill, orderMissingMaterials) '(key, n),
                      if JS.orZero (pool !! key) - JS.orZero (used !! key) <? nd_needed n
                      then (false,
                            orderMissingMaterials ++
                            [{| mm_materialId := nd_materialId n;
                                mm_variationId := nd_variationId n;
                                mm_materialName := nd_materialName n;
                                mm_needed := nd_needed n;
                                mm_available :=
                                  Z.max 0 (JS.orZero (pool !! key)
                                           - JS.orZero (used !! key)) |}])
                      else (canFulfill, orderMissingMaterials))
                    acc materialsNeeded).1 = true →
             acc.1 = true ∧
             (key ∈ materialsNeeded.*1 →
              neededOf materialsNeeded key
              ≤ JS.orZero (pool !! key) - JS.orZero (used !! key))).
  { induction materialsNeeded as [|[k n] l IH]; intros [c ms] Hfold; simpl in *.
    - split; [done|]. intros Hin. by apply elem_of_nil in Hin.
    - destruct (Z.ltb_spec (JS.orZero (pool !! k) - JS.orZero (used !! k)) (nd_needed n))
        as [Hlt|Hge].
      + by destruct (IH _ Hfold) as [? _].
      + destruct (IH _ Hfold) as [Hc Hrest]. split; [done|].
        intros Hin. destruct (decide (k = key)) as [->|Hne].
        * by rewrite neededOf_cons_eq.
        * rewrite neededOf_cons_ne by done. apply Hrest.
          apply elem_of_cons in Hin as [?|?]; [congruence | done]. }
  intros Hcheck Hin. by apply (Hgen (true, [])).
Qed.

End NeededMap.

Section SortedOrders.

Lemma insertBy_Permutation {A : Type} (key : A → Z) (x : A) (l : list A) :
  JS.insertBy key x l ≡ₚ x :: l.
Proof.
  induction l as [|y l IH]; simpl; [done|].
  destruct (key x <=? key y); [done|]. rewrite IH. apply Permutation_swap.
Qed.

Lemma sortBy_Permutation {A : Type} (key : A → Z) (l : list A) :
  JS.sortBy key l ≡ₚ l.
Proof.
  unfold JS.sortBy. induction l as [|x l IH]; simpl; [done|].
  by rewrite insertBy_Permutation, IH.
Qed.

Lemma filter_sublist {A : Type} (p : A → bool) (l : list A) :
  List.filter p l `sublist_of` l.
Proof.
  induction l as [|x l IH]; simpl; [done|].
  destruct (p x); [by apply sublist_skip | by apply sublist_cons].
Qed.

Lemma sortedOrders_NoDup (orders : list Order) :
  NoDup (ord_id <$> orders) → NoDup (ord_id <$> Fulfillment.sortedOrders orders).
Proof.
  intros Hnodup. unfold Fulfillment.sortedOrders.
  rewrite sortBy_Permutation. unfold Fulfillment.relevantOrders.
  apply (sublist_NoDup _ (ord_id <$> orders));
    [exact Hnodup | apply fmap_sublist, filter_sublist].
Qed.

End SortedOrders.

Section AllocationInvariant.

Import Fulfillment.

Variable localMaterials : list LocalRawMaterialWithVariations.
Variable allMappings : list MaterialProductMapping.
Variable processedOrdersList : list ProcessedOrder.

Local Abbreviation pool := (buildStockMap localMaterials).
Local Abbreviation needs := (materialsNeededFor localMaterials allMappings).
Local Abbreviation step := (processOrder localMaterials allMappings processedOrdersList pool).
Local Abbreviation claimed := (claimedTotal localMaterials allMappings).

Local Abbreviation withinPool := (Fulfillment.withinPool pool).

Lemma claimedTotal_insert_fresh status (orders : list Order) order entry key :
  ord_id order ∉ ord_id <$> orders →
  claimed (<[ord_id order := entry]> status) orders key = claimed status orders key.
Proof.
  intros Hfresh. unfold claimedTotal. f_equal.
  induction orders as [|o orders IH]; simpl; [done|].
  rewrite fmap_cons in Hfresh. apply not_elem_of_cons in Hfresh as [Hne Hfresh].
  rewrite IH by done. f_equal. unfold claimedBy. by rewrite lookup_insert_ne.
Qed.

Lemma claimedTotal_snoc status (orders : list Order) order key :
  claimed status (orders ++ [order]) key
  = claimed status orders key + claimedBy localMaterials allMappings status order key.
Proof.
  unfold claimedTotal. induction orders as [|o orders IH]; simpl; [lia|].
  rewrite IH. lia.
Qed.

(** The state after any list of orders with distinct ids: the usage map
    holds, for every key, the total claimed by the orders reported
    fulfillable; committed claims are within the pool; processed orders
    are reported as such. *)
Lemma pass_invariant (orders : list Order) :
  NoDup (ord_id <$> orders) →
  let st := foldl step (∅, ∅) orders in
  (∀ key, JS.orZero (st.1 !! key) = claimed st.2 orders key) ∧
  withinPool st.1 ∧
  (∀ order, order ∈ orders →
            ord_id order ∈ processedOrderIds processedOrdersList →
            st.2 !! ord_id order = Some processedEntry).
Proof.
  induction orders as [|order orders IH] using rev_ind; intros Hnodup.
  - simpl. split; [|split].
    + intros key. by rewrite lookup_empty.
    + intros key Hsome. rewrite lookup_empty in Hsome. by destruct Hsome.
    + intros order Horder. by apply elem_of_nil in Horder.
  - rewrite fmap_app in Hnodup. apply NoDup_app in Hnodup as (Hnodup & Hfresh & _).
    assert (Hnew : ord_id order ∉ ord_id <$> orders).
    { intros Hin. apply (Hfresh _ Hin). simpl. apply list_elem_of_here. }
    specialize (IH Hnodup). rewrite foldl_snoc.
    destruct (foldl step (∅, ∅) orders) as [used status]. simpl in IH.
    destruct IH as (Hsum & Hwithin & Hprocessed).
    assert (Hothers : ∀ entry o, o ∈ orders →
              ord_id o ∈ processedOrderIds processedOrdersList →
              <[ord_id order := entry]> status !! ord_id o = Some processedEntry).
    { intros entry o Ho Hproc. rewrite lookup_insert_ne; [by apply Hprocessed|].
      intros Heq. apply Hnew. rewrite Heq. by apply list_elem_of_fmap_2. }
    unfold processOrder. case_bool_decide as Hproc.
    + (* a processed order *)
      simpl. split; [|split].
      * intros key. rewrite claimedTotal_snoc, claimedTotal_insert_fresh by done.
        unfold claimedBy. rewrite lookup_insert_eq. simpl. rewrite Hsum. lia.
      * done.
      * intros o Ho Hoproc. apply elem_of_app in Ho as [Ho|Ho]; [by apply Hothers|].
        apply list_elem_of_singleton in Ho as ->. by rewrite lookup_insert_eq.
    + destruct (checkStock pool used (needs order)) as [can missing] eqn:Hcheck.
      simpl. split; [|split].
      * intros key. rewrite claimedTotal_snoc, claimedTotal_insert_fresh by done.
        unfold claimedBy. rewrite lookup_insert_eq. simpl. rewrite <- Hsum.
        destruct can; simpl; [|lia].
        rewrite commitUsage_lookup by apply materialsNeededFor_NoDup. lia.
      * destruct can; [|done]. intros key Hsome.
        rewrite commitUsage_lookup by apply materialsNeededFor_NoDup.
        destruct (decide (key ∈ (needs order).*1)) as [Hin|Hnotin].
        -- pose proof (checkStock_true pool used (needs order) key) as Hfit.
           rewrite Hcheck in Hfit. specialize (Hfit eq_refl Hin). lia.
        -- rewrite (neededOf_absent _ _ Hnotin).
           apply commitUsage_is_Some in Hsome as [?|Hsome]; [done|].
           specialize (Hwithin key Hsome). lia.
      * intros o Ho Hoproc. apply elem_of_app in Ho as [Ho|Ho]; [by apply Hothers|].
        apply list_elem_of_singleton in Ho as ->. done.
Qed.

End AllocationInvariant.

Section NoDoubleAllocation.

Import Fulfillment Scenario Cases.




End NoDoubleAllocation.

(** ** Clamped receiving for requests without repeated items *)

Section ClampedReceiving.

Import Receiving.

Local Abbreviation withinOrdered :=
  (λ line, poi_quantityReceived line ≤ poi_quantityOrdered line).

Lemma updateWhere_ids (p : PurchaseOrderItem → bool) q (rows : list PurchaseOrderItem) :
  poi_id <$> updateWhere p (setQuantityReceived q) rows = poi_id <$> rows.
Proof.
  induction rows as [|row rows IH]; [done|].
  change (updateWhere p (setQuantityReceived q) (row :: rows))
    with ((if p row then setQuantityReceived q row else row)
          :: updateWhere p (setQuantityReceived q) rows).
  rewrite !fmap_cons, IH. by destruct (p row).
Qed.

Lemma head_filter_unique (rows : list PurchaseOrderItem) line id :
  NoDup (poi_id <$> rows) → line ∈ rows → poi_id line = id →
  head (List.filter (λ i, bool_decide (poi_id i = id)) rows) = Some line.
Proof.
  induction rows as [|row rows IH]; intros Hnodup Hin Hid; [by apply elem_of_nil in Hin|].
  rewrite fmap_cons in Hnodup. apply NoDup_cons in Hnodup as [Hfresh Hnodup].
  simpl. apply elem_of_cons in Hin as [->|Hin].
  - by rewrite bool_decide_eq_true_2.
  - rewrite bool_decide_eq_false_2; [by apply IH|].
    intros Heq. apply Hfresh. rewrite Heq, <- Hid. by apply list_elem_of_fmap_2.
Qed.

(** The storage loop on receipts for distinct lines, each within what
    remains of its line, leaves every line within its ordered quantity. *)
Lemma applyReceipts_within (receipts : list ItemReceipt) (db : DB) :
  NoDup (poi_id <$> purchaseOrderItems db) →
  NoDup (rc_itemId <$> receipts) →
  Forall withinOrdered (purchaseOrderItems db) →
  (∀ receipt line, receipt ∈ receipts → line ∈ purchaseOrderItems db →
                   poi_id line = rc_itemId receipt →
                   rc_quantityReceived receipt
                   ≤ poi_quantityOrdered line - poi_quantityReceived line) →
  Forall withinOrdered
    (purchaseOrderItems (JS.stateOf (JS.forOf applyReceipt db receipts))).
Proof.
  revert db. induction receipts as [|receipt receipts IH];
    intros db Hkeys Hdistinct Hwithin Hbound; simpl; [done|].
  rewrite fmap_cons in Hdistinct. apply NoDup_cons in Hdistinct as [Hfresh Hdistinct].
  assert (Hstep : let db' := JS.stateOf (applyReceipt db receipt) in
                  NoDup (poi_id <$> purchaseOrderItems db') ∧
                  Forall withinOrdered (purchaseOrderItems db') ∧
                  ∀ line', line' ∈ purchaseOrderItems db' →
                           poi_id line' ≠ rc_itemId receipt →
                           line' ∈ purchaseOrderItems db).
  { unfold applyReceipt.
    destruct (head (List.filter _ (purchaseOrderItems db))) as [item|] eqn:Hitem;
      [|done].
    destruct (0 <? rc_quantityReceived receipt); [|done].
    destruct (int4 _ && int4 _); [|done]. simpl.
    apply head_filter_Some in Hitem as [Hitem Hid]. apply bool_decide_eq_true in Hid.
    split; [by rewrite updateWhere_ids|]. split.
    - apply Forall_forall. intros line' Hline'. unfold updateWhere in Hline'.
      apply list_elem_of_fmap in Hline' as (line & -> & Hline).
      case_bool_decide as Hmatch.
      + simpl. specialize (Hbound receipt line).
        assert (line = item) as ->.
        { pose proof (head_filter_unique _ line (rc_itemId receipt) Hkeys Hline Hmatch).
          pose proof (head_filter_unique _ item (rc_itemId receipt) Hkeys Hitem Hid).
          congruence. }
        specialize (Hbound ltac:(apply list_elem_of_here) Hitem Hid). lia.
      + rewrite Forall_forall in Hwithin. by apply Hwithin.
    - intros line' Hline' Hne. unfold updateWhere in Hline'.
      apply list_elem_of_fmap in Hline' as (line & -> & Hline).
      case_bool_decide as Hmatch; [|done]. simpl in Hne. done. }
  destruct Hstep as (Hkeys' & Hwithin' & Hother).
  destruct (applyReceipt db receipt) as [db1|db1]; [|done]. simpl in *.
  apply IH; try done.
  intros receipt' line' Hreceipt' Hline' Hid'.
  assert (Hne : poi_id line' ≠ rc_itemId receipt).
  { rewrite Hid'. intros Heq. apply Hfresh. rewrite <- Heq.
    by apply list_elem_of_fmap_2. }
  apply Hbound; [by apply list_elem_of_further | by apply Hother | done].
Qed.

(** The receipts that the route passes on: their item ids are among those of
    the request, in order, and each is within what remains of its line as
    fetched before the loop. *)
Lemma receiveAll_validated order items db :
  let validated := run_validatedReceipts (JS.stateOf (receiveAll order items db)) in
  rc_itemId <$> validated `sublist_of` rc_itemId <$> items ∧
  ∀ receipt, receipt ∈ validated →
    ∃ line, line ∈ pd_items order ∧ poi_id line = rc_itemId receipt ∧
            rc_quantityReceived receipt
            ≤ poi_quantityOrdered line - poi_quantityReceived line.
Proof.
  unfold receiveAll.
  induction items as [|item items IH] using rev_ind; simpl.
  - split; [done|]. intros receipt Hin. by apply elem_of_nil in Hin.
  - rewrite forOf_snoc, fmap_app. destruct IH as [Hsub Hbound].
    destruct (JS.forOf _ _ items) as [st|st]; simpl in *;
      [|split; [by apply sublist_inserts_r | done]].
    destruct (receiveOne_cases order st item)
      as [->|[->|(line & result & db' & Hline & Hid & _ & _ & _ & ->)]];
      try (split; [by apply sublist_inserts_r | done]).
    simpl. split.
    + rewrite fmap_app. by apply sublist_app.
    + intros receipt Hin. apply elem_of_app in Hin as [Hin|Hin]; [by apply Hbound|].
      apply list_elem_of_singleton in Hin as ->. simpl.
      exists line. split; [done|]. split; [done|]. lia.
Qed.

(** X7. For a request that names each line at most once, on a store where
    item ids are unique and every line has quantityReceived <= quantityOrdered,
    the receive route leaves every line with
    quantityReceived <= quantityOrdered. *)
Theorem receive_distinct_items_within_ordered now id items db :
  NoDup (poi_id <$> purchaseOrderItems db) →
  NoDup (rc_itemId <$> items) →
  Forall withinOrdered (purchaseOrderItems db) →
  Forall withinOrdered (purchaseOrderItems (receive now id items db).2).
Proof.
  intros Hkeys Hdistinct Hwithin.
  destruct (receive_store now id items db)
    as [->|(order & Hget & [[_ ->]|(st & Hloop & -> & _)])]; [done | |].
  { destruct (receiveAll_tables order items db) as [_ ->]. done. }
  destruct (receiveAll_tables order items db) as [Hpos Hitems].
  destruct (receiveAll_validated order items db) as [Hsub Hbound].
  rewrite Hloop in Hpos, Hitems, Hsub, Hbound. simpl in Hpos, Hitems, Hsub, Hbound.
  destruct (receivePurchaseOrderItems_store now id (run_validatedReceipts st) (run_db st))
    as (-> & _).
  apply applyReceipts_within.
  - by rewrite Hitems.
  - by apply (sublist_NoDup _ (rc_itemId <$> items)).
  - by rewrite Hitems.
  - intros receipt line Hreceipt Hline Hid. rewrite Hitems in Hline.
    destruct (Hbound receipt Hreceipt) as (line' & Hline' & Hid' & Hle).
    assert (Hstored : line' ∈ purchaseOrderItems db).
    { unfold getPurchaseOrder in Hget. destruct (head _); [|done].
      injection Hget as <-. simpl in Hline'.
      apply list_elem_of_In, List.filter_In in Hline' as [Hline' _].
      by apply list_elem_of_In. }
    assert (line = line') as ->; [|done].
    pose proof (head_filter_unique _ line (rc_itemId receipt) Hkeys Hline Hid).
    pose proof (head_filter_unique _ line' (rc_itemId receipt) Hkeys Hstored Hid').
    congruence.
Qed.

Import Scenario.

Lemma receive_distinct_items_within_ordered_witness :
  NoDup (poi_id <$> purchaseOrderItems purchaseDB) ∧
  NoDup (rc_itemId <$> [receipt 1 25]) ∧
  Forall withinOrdered (purchaseOrderItems purchaseDB) ∧
  Forall withinOrdered (purchaseOrderItems (receive 7 1 [receipt 1 25] purchaseDB).2) ∧
  poi_quantityReceived <$> purchaseOrderItems (receive 7 1 [receipt 1 25] purchaseDB).2
  = [20].
Proof.
  assert (Hkeys : NoDup (poi_id <$> purchaseOrderItems purchaseDB))
    by (simpl; apply NoDup_singleton).
  assert (Hdistinct : NoDup (rc_itemId <$> [receipt 1 25]))
    by (simpl; apply NoDup_singleton).
  assert (Hwithin : Forall withinOrdered (purchaseOrderItems purchaseDB))
    by (simpl; apply Forall_singleton; simpl; lia).
  split; [exact Hkeys|]. split; [exact Hdistinct|]. split; [exact Hwithin|]. split.
  - exact (receive_distinct_items_within_ordered 7 1 [receipt 1 25] purchaseDB
             Hkeys Hdistinct Hwithin).
  - vm_compute. reflexivity.
Defined.

End ClampedReceiving.

(** ** The report of the order stock processor *)

Section ProcessorReport.

Import OrderStock Reports.

Variable body : Body.
Variable db : DB.

(** At every point of an invocation the results pushed so far pair up, in
    order, with the ledger entries written so far. *)
Lemma Reachable_recorded st :
  Reachable body db st →
  ∃ written,
    stockLedger (run_db st) = stockLedger db ++ written ∧
    Forall2 (deductionRecorded body) (run_results st) written.
Proof.
  induction 1 as [|st item mapping Hreach IH|st item Hreach IH].
  - exists []. split; [by rewrite app_nil_r | constructor].
  - destruct IH as (written & Hledger & Hpairs). unfold processMapping.
    destruct (run_materialsMap st !! _) as [material|]; [|by exists written].
    destruct (resolveVariation material mapping) as [variation|]; [|by exists written].
    destruct (negb _); [by exists written|].
    unfold deduct.
    destruct (updateStock _ _ _ _ _) as [[db1 updated]|] eqn:Hupdate;
      [|by exists written].
    apply updateStock_Some in Hupdate as [-> _].
    destruct (createStockLedgerEntry _ _) as [[ledgerEntry|] db2] eqn:Hinsert.
    + apply createStockLedgerEntry_Some in Hinsert as (-> & -> & _).
      cbn [run_db run_results insertStockLedger fst snd stockLedger with_stockLedger].
      rewrite (proj1 (writeStock_tables _ _ _)), Hledger.
      eexists (written ++ [_]). split; [by rewrite app_assoc|].
      apply Forall2_app; [done|]. constructor; [|constructor].
      unfold deductionRecorded. simpl. by repeat split.
    + apply createStockLedgerEntry_None in Hinsert as (-> & _).
      exists written. cbn [run_db run_results].
      by rewrite (proj1 (writeStock_tables _ _ _)).
  - done.
Qed.

(** Every mapping gives one result, one skipped item or one failed
    update. *)
Lemma processMapping_count item st mapping :
  (length (run_results (processMapping body item st mapping))
   + length (run_skippedItems (processMapping body item st mapping))
   + length (run_failedUpdates (processMapping body item st mapping))
   = S (length (run_results st) + length (run_skippedItems st)
        + length (run_failedUpdates st)))%nat ∧
  run_unmappedItems (processMapping body item st mapping) = run_unmappedItems st.
Proof.
  unfold processMapping.
  destruct (run_materialsMap st !! _) as [material|];
    [|simpl; rewrite length_app; simpl; split; [lia | done]].
  destruct (resolveVariation material mapping) as [variation|];
    [|simpl; rewrite length_app; simpl; split; [lia | done]].
  destruct (negb _); [simpl; rewrite length_app; simpl; split; [lia | done]|].
  unfold deduct.
  destruct (updateStock _ _ _ _ _) as [[db1 updated]|];
    [|simpl; rewrite length_app; simpl; split; [lia | done]].
  destruct (createStockLedgerEntry _ _) as [[ledgerEntry|] db2]; simpl;
    rewrite length_app; simpl; split; try done; lia.
Qed.

Lemma processMappings_count item mappings st :
  (length (run_results (foldl (processMapping body item) st mappings))
   + length (run_skippedItems (foldl (processMapping body item) st mappings))
   + length (run_failedUpdates (foldl (processMapping body item) st mappings))
   = length (run_results st) + length (run_skippedItems st)
     + length (run_failedUpdates st) + length mappings)%nat ∧
  run_unmappedItems (foldl (processMapping body item) st mappings)
  = run_unmappedItems st.
Proof.
  revert st. induction mappings as [|mapping mappings IH]; intros st; simpl.
  - split; [lia | done].
  - destruct (IH (processMapping body item st mapping)) as [-> ->].
    destruct (processMapping_count item st mapping) as [-> ->]. split; [lia | done].
Qed.

Lemma mappingsOf_tables db1 db2 item :
  materialProductMappings db2 = materialProductMappings db1 →
  mappingsOf db2 item = mappingsOf db1 item.
Proof.
  intros Hsame. unfold mappingsOf, getMaterialMappingsForProduct. by rewrite Hsame.
Qed.

Lemma processLineItems_count items st st' :
  materialProductMappings (run_db st) = materialProductMappings db →
  JS.forOf (processLineItem body) st items = JS.Normal st' →
  (length (run_results st') + length (run_skippedItems st')
   + length (run_failedUpdates st')
   = length (run_results st) + length (run_skippedItems st)
     + length (run_failedUpdates st)
     + sum_list (map (λ item, length (mappingsOf db item)) items))%nat ∧
  (length (run_unmappedItems st')
   = length (run_unmappedItems st)
     + length (List.filter (λ item, bool_decide (length (mappingsOf db item) = 0%nat))
                           items))%nat.
Proof.
  revert st. induction items as [|item items IH]; intros st Hsame Hrun; simpl in *.
  - injection Hrun as <-. split; lia.
  - assert (Hnext : materialProductMappings
                      (run_db (JS.stateOf (processLineItem body st item)))
                    = materialProductMappings db).
    { destruct (processLineItem_sameOrders body st item) as (_ & Hmap & _). congruence. }
    destruct (processLineItem body st item) as [st1|st1] eqn:Hstep; [|done].
    destruct (IH st1 Hnext Hrun) as [-> ->]. clear IH Hnext Hrun.
    unfold processLineItem in Hstep. destruct (negb _); [done|].
    change (getMaterialMappingsForProduct (li_product_id item) (li_variation_id item)
              (run_db st)) with (mappingsOf (run_db st) item) in Hstep.
    rewrite (mappingsOf_tables db (run_db st) item Hsame) in Hstep.
    destruct (bool_decide (length (mappingsOf db item) = 0%nat)) eqn:Hnone;
      injection Hstep as <-.
    + apply bool_decide_eq_true in Hnone. rewrite Hnone. simpl.
      rewrite length_app. simpl. split; lia.
    + destruct (processMappings_count item (mappingsOf db item) st) as [-> ->].
      split; lia.
Qed.

(** X8. The deductions that a successful invocation of process-order-stock
    reports are exactly the ledger entries it wrote, in order: the invocation
    only appends to the ledger, and the i-th result and the i-th new entry
    agree on the entry id, the material, the variation, the quantity and the
    stock before and after, with newStock = previousStock - quantityDeducted;
    each new entry carries the order id and the reason 'order'. *)
Theorem processOrderStock_reports_its_ledger_entries now report db' :
  processOrderStock now body db = (Success report, db') →
  ∃ written,
    stockLedger db' = stockLedger db ++ written ∧
    Forall2 (deductionRecorded body) (results report) written.
Proof.
  intros Hrun.
  apply processOrderStock_Success in Hrun as (st & _ & _ & Hloop & _ & -> & ->).
  pose proof (Reachable_processLineItems body db) as Hreach.
  rewrite Hloop in Hreach. by apply Reachable_recorded.
Qed.

(** X9. A successful invocation of process-order-stock accounts for every
    line item: each mapping of each mapped line item gives exactly one
    deduction result, one skipped item or one failed update, and each line
    item without mappings gives exactly one unmapped item. *)
Theorem processOrderStock_accounts_for_every_mapping now report db' :
  processOrderStock now body db = (Success report, db') →
  (length (results report) + length (skippedItems report)
   + length (failedUpdates report))%nat
  = sum_list (map (λ item, length (mappingsOf db item)) (lineItems body)) ∧
  length (unmappedItems report)
  = length (List.filter (λ item, bool_decide (length (mappingsOf db item) = 0%nat))
                        (lineItems body)).
Proof.
  intros Hrun.
  apply processOrderStock_Success in Hrun as (st & _ & _ & Hloop & _ & -> & ->).
  destruct (processLineItems_count (lineItems body) (start db) st eq_refl Hloop)
    as [Hsum Hun].
  simpl in Hsum, Hun |- *. split; [exact Hsum | exact Hun].
Qed.


End ProcessorReport.

Section ProcessorReportWitnesses.

Import OrderStock Reports Scenario.

(** Order #500 on the store [stockedDB] is answered with a report. *)
Lemma order500_Success :
  ∃ report db', processOrderStock 1 order500 stockedDB = (Success report, db').
Proof. eexists _, _. vm_compute. reflexivity. Qed.

Lemma processOrderStock_reports_its_ledger_entries_witness :
  ∃ report db' written,
    processOrderStock 1 order500 stockedDB = (Success report, db') ∧
    stockLedger db' = stockLedger stockedDB ++ written ∧
    Forall2 (deductionRecorded order500) (results report) written ∧
    length written = 1%nat.
Proof.
  destruct (processOrderStock 1 order500 stockedDB) as [response db'] eqn:Hrun.
  destruct response as [report|status error processedAt|];
    [|vm_compute in Hrun; discriminate Hrun..].
  destruct (processOrderStock_reports_its_ledger_entries order500 stockedDB 1
              report db' Hrun) as (written & Hledger & Hpairs).
  exists report, db', written. split; [reflexivity|]. split; [exact Hledger|].
  split; [exact Hpairs|].
  assert (Hlength : length (stockLedger db') = 1%nat).
  { assert (Hdb : db' = (processOrderStock 1 order500 stockedDB).2)
      by (rewrite Hrun; reflexivity).
    rewrite Hdb. vm_compute. reflexivity. }
  rewrite Hledger in Hlength. simpl in Hlength. exact Hlength.
Defined.

Lemma processOrderStock_accounts_for_every_mapping_witness :
  ∃ report db',
    processOrderStock 1 order500 stockedDB = (Success report, db') ∧
    (length (results report) + length (skippedItems report)
     + length (failedUpdates report))%nat = 1%nat ∧
    length (unmappedItems report) = 1%nat.
Proof.
  destruct (processOrderStock 1 order500 stockedDB) as [response db'] eqn:Hrun.
  destruct response as [report|status error processedAt|];
    [|vm_compute in Hrun; discriminate Hrun..].
  destruct (processOrderStock_accounts_for_every_mapping order500 stockedDB 1
              report db' Hrun) as [Hsum Hunmapped].
  exists report, db'. split; [reflexivity|]. split.
  - rewrite Hsum. vm_compute. reflexivity.
  - rewrite Hunmapped. vm_compute. reflexivity.
Defined.


End ProcessorReportWitnesses.

(** ** The report of the receive route *)

Section ReceivingReport.

Import Receiving Reports.

Lemma stockIn_recorded order item quantity db result db' :
  stockIn order item quantity db = Some (result, db') →
  ∃ e,
    stockLedger db' = stockLedger db ++ [e] ∧
    receiptRecorded order result e ∧
    rr_itemId result = poi_id item ∧
    rr_quantityReceived result = quantity.
Proof.
  intros Hin. apply stockIn_Some in Hin
    as (entry & -> & _ & Hnumber & Hreason & Hchange & Hprevious & Hnew & -> & _).
  eexists. split.
  - cbn [insertStockLedger snd stockLedger with_stockLedger].
    by rewrite (proj1 (writeStock_tables _ _ _)).
  - unfold receiptRecorded. simpl. by repeat split.
Qed.

Lemma receiveAll_recorded order items db :
  let st := JS.stateOf (receiveAll order items db) in
  (∃ written,
      stockLedger (run_db st) = stockLedger db ++ written ∧
      Forall2 (receiptRecorded order) (run_results st) written) ∧
  Forall (receiptClamped order items) (run_results st).
Proof.
  unfold receiveAll.
  apply (forOf_invariant
           (λ st, (∃ written,
                      stockLedger (run_db st) = stockLedger db ++ written ∧
                      Forall2 (receiptRecorded order) (run_results st) written) ∧
                  Forall (receiptClamped order items) (run_results st))).
  - split; [|constructor]. exists []. split; [by rewrite app_nil_r | constructor].
  - intros st receipt [(written & Hledger & Hpairs) Hclamped] Hreceipt.
    destruct (receiveOne_cases order st receipt)
      as [->|[->|(line & result & db' & Hline & Hid & Hpositive & Hmin & Hin & ->)]];
      [by eauto..|].
    destruct (stockIn_recorded order line _ (run_db st) result db' Hin)
      as (e & He & Hrecorded & Hitem & Hquantity).
    simpl in *. split.
    + exists (written ++ [e]). rewrite He, Hledger. split; [by rewrite app_assoc|].
      apply Forall2_app; [done|]. constructor; [done | constructor].
    + apply Forall_app. split; [done|]. apply Forall_singleton.
      exists receipt, line. repeat split; try done; try congruence; lia.
Qed.

(** X11. The receipts that an accepted call of the receive route reports are
    exactly the ledger entries it wrote, in order, each with
    newStock = previousStock + quantityReceived, the reason 'purchase_order'
    and the number of the purchase order. Every reported receipt is for a
    pair of the request and a line of the order, and its quantity is
    positive, at most the quantity of the pair, and at most what remained of
    the line when the order was fetched. *)
Theorem receive_reports_clamped_receipts now id items db updated results db' :
  receive now id items db = (Received updated results, db') →
  ∃ order written,
    getPurchaseOrder id db = Some order ∧
    stockLedger db' = stockLedger db ++ written ∧
    Forall2 (receiptRecorded order) results written ∧
    Forall (receiptClamped order items) results.
Proof.
  intros Hrun.
  apply receive_Received in Hrun
    as (order & st & _ & Hget & _ & _ & Hloop & -> & Hstore).
  destruct (receiveAll_recorded order items db) as [(written & Hledger & Hpairs) Hclamped].
  rewrite Hloop in Hledger, Hpairs, Hclamped. simpl in Hledger, Hpairs, Hclamped.
  destruct (receivePurchaseOrderItems_store now id (run_validatedReceipts st) (run_db st))
    as (_ & _ & _ & Hafter & _).
  rewrite Hstore in Hafter. simpl in Hafter.
  exists order, written. by rewrite Hafter.
Qed.

Import Scenario.

Lemma receive_reports_clamped_receipts_witness :
  ∃ updated results db' order written,
    receive 7 1 [receipt 1 25] purchaseDB = (Received updated results, db') ∧
    getPurchaseOrder 1 purchaseDB = Some order ∧
    stockLedger db' = stockLedger purchaseDB ++ written ∧
    Forall2 (receiptRecorded order) results written ∧
    Forall (receiptClamped order [receipt 1 25]) results ∧
    rr_quantityReceived <$> results = [20].
Proof.
  destruct (receive 7 1 [receipt 1 25] purchaseDB) as [response db'] eqn:Hrun.
  destruct response as [updated results|status error|];
    [|vm_compute in Hrun; discriminate Hrun..].
  destruct (receive_reports_clamped_receipts 7 1 [receipt 1 25] purchaseDB
              updated results db' Hrun) as (order & written & Hget & Hledger & Hpairs & Hclamped).
  exists updated, results, db', order, written.
  split; [reflexivity|]. split; [exact Hget|]. split; [exact Hledger|].
  split; [exact Hpairs|]. split; [exact Hclamped|].
  assert (Hresults : results
                     = match (receive 7 1 [receipt 1 25] purchaseDB).1 with
                       | Received _ results => results
                       | _ => []
                       end) by (rewrite Hrun; reflexivity).
  rewrite Hresults. vm_compute. reflexivity.
Defined.

End ReceivingReport.

(** ** Manual stock adjustments *)

Section AdjustmentOutcome.

Import StockAdjust Reports Ledger.

Lemma getLocalRawMaterial_stored id other newStock db :
  let db' := writeStock (Material id) newStock db in
  (is_Some (getLocalRawMaterial id db) →
   lm_stockQuantity <$> getLocalRawMaterial id db' = Some (Some newStock)) ∧
  (other ≠ id → getLocalRawMaterial other db' = getLocalRawMaterial other db) ∧
  rawMaterialVariations db' = rawMaterialVariations db ∧
  stockLedger db' = stockLedger db.
Proof.
  unfold getLocalRawMaterial. simpl. split; [|split; [|split]].
  - rewrite (filter_updateWhere (λ m, bool_decide (rm_id m = id))) by done.
    destruct (List.filter _ (rawMaterials db)) as [|row rows]; simpl; [|done].
    by intros [? ?].
  - intros Hother. rewrite filter_updateWhere_other; [done|].
    intros row Hrow. apply bool_decide_eq_true in Hrow. simpl.
    rewrite !bool_decide_eq_false_2 by congruence. done.
  - done.
  - done.
Qed.

(** The rows that the ledger takes from a manual adjustment of a
    material. *)
Lemma manualValues_accepted id quantityChange previousStock newStock reason notes :
  int4 id && int4 newStock = true →
  (String.length reason ≤ 255)%nat →
  ledgerAccepts (manualValues id None quantityChange previousStock newStock reason notes)
  = int4 previousStock && int4 quantityChange.
Proof.
  intros Hwritten Hreason. apply andb_true_iff in Hwritten as [Hid Hnew].
  unfold ledgerAccepts. simpl. rewrite Hid, Hnew.
  rewrite (bool_decide_eq_true_2 _ Hreason).
  destruct (int4 previousStock), (int4 quantityChange); done.
Qed.

(** What a manual adjustment of a material leaves behind, for each of its
    three ends. *)
Lemma adjustMaterial_outcome id values previousStock quantityChange newStock db material :
  getLocalRawMaterial id db = Some material →
  let answer := adjustMaterial id values previousStock quantityChange newStock db in
  let written db' :=
    lm_stockQuantity <$> getLocalRawMaterial id db' = Some (Some newStock) ∧
    (∀ other, other ≠ id → getLocalRawMaterial other db' = getLocalRawMaterial other db) ∧
    rawMaterialVariations db' = rawMaterialVariations db in
  (int4 id && int4 newStock = false → answer = (ServerError, db)) ∧
  (int4 id && int4 newStock = true → ledgerAccepts values = false →
   answer.1 = ServerError ∧ written answer.2 ∧
   stockLedger answer.2 = stockLedger db) ∧
  (int4 id && int4 newStock = true → ledgerAccepts values = true →
   answer.1 = Adjusted previousStock quantityChange newStock ∧ written answer.2 ∧
   ∃ e, stockLedger answer.2 = stockLedger db ++ [e] ∧ sl_values e = values).
Proof.
  intros Hget. simpl.
  destruct (getLocalRawMaterial_stored id id newStock db) as (Hread & _ & Hv & Hl).
  assert (Hothers : ∀ other, other ≠ id →
            getLocalRawMaterial other (writeStock (Material id) newStock db)
            = getLocalRawMaterial other db).
  { intros other Hother. by apply (getLocalRawMaterial_stored id other). }
  specialize (Hread ltac:(by rewrite Hget)).
  destruct (adjustMaterial_cases id values previousStock quantityChange newStock db)
    as [[Hrefused ->]|[(Hwritten & Hinsert & ->)|(Hwritten & Hinsert & ->)]];
    (split; [|split]); try congruence; intros _; try intros _; try done.
  simpl. split; [done|]. split; [done|]. eexists. split; reflexivity.
Qed.



Import Scenario Cases.



End AdjustmentOutcome.

(** ** Soft deletion and the processor *)

Section DeletedMaterial.

Import OrderStock SoftDelete Reports.

Lemma deleteLocalRawMaterial_notInInventory id db :
  notInInventory (deleteLocalRawMaterial id db) id.
Proof.
  intros m Hm Hid. unfold deleteLocalRawMaterial, updateWhere in Hm. simpl in Hm.
  apply list_elem_of_fmap in Hm as (row & -> & Hrow).
  case_bool_decide as Hmatch; [done|]. done.
Qed.

(** The store after the deduction of one mapping: as it was (the stock update
    was refused), with the stock written, or with the stock written and the
    ledger entry added. *)
Lemma deduct_db body item mapping material variation st :
  ∃ newStock values,
    let written :=
      Ledger.writeStock (Ledger.deductionTarget mapping variation) newStock (run_db st) in
    let db' := run_db (deduct body item mapping material variation st) in
    db' = run_db st ∨ db' = written ∨ db' = (insertStockLedger values written).2.
Proof.
  unfold deduct. do 2 eexists.
  destruct (updateStock _ _ _ _ _) as [[db1 updated]|] eqn:Hupdate; [|by left].
  apply updateStock_Some in Hupdate as [-> _].
  destruct (createStockLedgerEntry _ _) as [[ledgerEntry|] db2] eqn:Hinsert.
  - apply createStockLedgerEntry_Some in Hinsert as (_ & -> & _). right; right. done.
  - apply createStockLedgerEntry_None in Hinsert as [-> _]. right; left. done.
Qed.

(** The materials that the deduction of one mapping holds in memory: the
    same, or the same with the stock of the mapping's material or variation
    set. *)
Lemma deduct_materialsMap body item mapping material variation st :
  let st' := deduct body item mapping material variation st in
  run_materialsMap st' = run_materialsMap st ∨
  ∃ newStock,
    run_materialsMap st'
    = <[mp_materialProductId mapping :=
          match variationTarget mapping variation with
          | Some (materialVariationId, _) =>
              setVariationStockInMemory materialVariationId newStock material
          | None => setStockInMemory newStock material
          end]> (run_materialsMap st).
Proof.
  unfold deduct.
  destruct (updateStock _ _ _ _ _) as [[db1 updated]|] eqn:Hupdate; [|by left].
  apply updateStock_Some in Hupdate as [-> ->]. right. eexists.
  by destruct (createStockLedgerEntry _ _) as [[ledgerEntry|] db2].
Qed.

(** An invocation leaves the rows of a material that is not in the
    inventory as they are. *)
Lemma Reachable_materialRows body db st id :
  Reachable body db st →
  notInInventory db id →
  materialRows id (run_db st) = materialRows id db.
Proof.
  intros Hreach Hnot.
  induction Hreach as [|st item mapping Hreach IH|st item Hreach IH]; [done| |done].
  rewrite <- IH. unfold processMapping.
  destruct (run_materialsMap st !! mp_materialProductId mapping) as [material|] eqn:Hm;
    [|done].
  assert (Hne : mp_materialProductId mapping ≠ id).
  { intros Heq.
    assert (Hsome : is_Some (run_materialsMap (start db) !! id)).
    { apply (Reachable_lookup body db st id Hreach). rewrite <- Heq. eauto. }
    rewrite (start_lookup_None db id Hnot) in Hsome. by destruct Hsome. }
  destruct (resolveVariation material mapping) as [variation|]; [|done].
  destruct (negb _); [done|].
  assert (Hwritten : ∀ newStock,
            materialRows id (Ledger.writeStock (Ledger.deductionTarget mapping variation)
                                               newStock (run_db st))
            = materialRows id (run_db st)).
  { intros newStock. unfold materialRows, Ledger.deductionTarget.
    destruct (variationTarget mapping variation) as [[vid v]|]; simpl; [done|].
    apply filter_updateWhere_other.
    intros row Hrow. apply bool_decide_eq_true in Hrow. simpl.
    rewrite !bool_decide_eq_false_2 by congruence. done. }
  destruct (deduct_db body item mapping material variation st)
    as (newStock & values & [->|[->| ->]]); [done | apply Hwritten|].
  rewrite <- (Hwritten newStock). done.
Qed.

(** X14. After the soft deletion of a material, the material is no longer
    among the active materials that the routes load, but it can still be
    fetched by id, with the stock it had. An invocation of
    process-order-stock after the deletion, for whatever order, leaves the
    rows of the material as they are and writes no ledger entry for it. *)
Theorem deleted_material_is_never_deducted now body id db :
  let db1 := deleteLocalRawMaterial id db in
  let db2 := (processOrderStock now body db1).2 in
  (∀ m, m ∈ getLocalRawMaterials db1 → lm_id m ≠ id) ∧
  lm_stockQuantity <$> getLocalRawMaterial id db1
  = lm_stockQuantity <$> getLocalRawMaterial id db ∧
  materialRows id db2 = materialRows id db1 ∧
  (∀ e, e ∈ stockLedger db2 → sl_materialProductId (sl_values e) = id →
        e ∈ stockLedger db).
Proof.
  intros db1 db2.
  pose proof (deleteLocalRawMaterial_notInInventory id db) as Hnot.
  fold db1 in Hnot. split; [|split; [|split]].
  - intros m Hm Hid. unfold getLocalRawMaterials in Hm.
    apply list_elem_of_fmap in Hm as (row & -> & Hrow).
    apply list_elem_of_In, List.filter_In in Hrow as [Hrow Hactive].
    apply list_elem_of_In in Hrow. specialize (Hnot row Hrow Hid). congruence.
  - unfold db1, getLocalRawMaterial, deleteLocalRawMaterial. simpl.
    rewrite (filter_updateWhere (λ m, bool_decide (rm_id m = id))) by done.
    by destruct (List.filter _ (rawMaterials db)).
  - pose proof (Reachable_materialRows body db1 _ id
                  (Reachable_processLineItems body db1) Hnot) as Hrows.
    unfold db2.
    destruct (processOrderStock_store body now db1) as [->|[->|[report ->]]]; done.
  - intros e He Hid.
    assert (Hloop : e ∈ stockLedger db1 ∨
                    e ∈ stockLedger (run_db (JS.stateOf (processLineItems body db1)))).
    { unfold db2 in He.
      destruct (processOrderStock_store body now db1) as [Hs|[Hs|[report Hs]]];
        rewrite Hs in He; [by left | by right | by right]. }
    destruct Hloop as [Hold|Hloop]; [done|].
    destruct (Reachable_ledger body db1 _ e (Reachable_processLineItems body db1) Hloop)
      as [Hold|(m & Hm & Hactive & Hm_id)]; [done|].
    rewrite Hid in Hm_id. specialize (Hnot m Hm Hm_id). congruence.
Qed.

Lemma deleteLocalRawMaterialVariation_notInInventory id db :
  variationNotInInventory (deleteLocalRawMaterialVariation id db) id.
Proof.
  intros v Hv Hid. unfold deleteLocalRawMaterialVariation, updateWhere in Hv.
  simpl in Hv. apply list_elem_of_fmap in Hv as (row & -> & Hrow).
  case_bool_decide as Hmatch; [done|]. done.
Qed.

Lemma updateFound_elem {A : Type} (p : A → bool) (f : A → A) (l : list A) x :
  x ∈ JS.updateFound p f l → x ∈ l ∨ ∃ y, y ∈ l ∧ x = f y.
Proof.
  induction l as [|y l IH]; simpl; [by left|].
  destruct (p y).
  - intros Hx. apply elem_of_cons in Hx as [->|Hx].
    + right. exists y. split; [apply list_elem_of_here | done].
    + left. by apply list_elem_of_further.
  - intros Hx. apply elem_of_cons in Hx as [->|Hx]; [left; apply list_elem_of_here|].
    destruct (IH Hx) as [Hin|(z & Hz & ->)].
    + left. by apply list_elem_of_further.
    + right. exists z. split; [by apply list_elem_of_further | done].
Qed.

(** The variations that an invocation holds in memory are active rows of
    the store it started from. *)
Lemma Reachable_variations body db st id material variations v :
  Reachable body db st →
  run_materialsMap st !! id = Some material →
  lm_variations material = Some variations →
  v ∈ variations →
  ∃ row, row ∈ rawMaterialVariations db ∧ rv_isActive row = true ∧ rv_id row = rv_id v.
Proof.
  intros Hreach. revert id material variations v.
  induction Hreach as [|st item mapping Hreach IH|st item Hreach IH];
    intros id material variations v.
  - unfold start. simpl. intros Hlookup Hvariations Hv.
    apply newMap_lookup_elem in Hlookup.
    apply list_elem_of_fmap in Hlookup as (m & Heq & Hm). inversion Heq; subst.
    unfold getLocalRawMaterials in Hm.
    apply list_elem_of_fmap in Hm as (row & -> & Hrow). simpl in Hvariations.
    case_bool_decide; [|done]. injection Hvariations as <-.
    apply list_elem_of_In, List.filter_In in Hv as [Hv Hactive].
    apply andb_true_iff in Hactive as [_ Hactive].
    exists v. split; [by apply list_elem_of_In | done].
  - unfold processMapping.
    destruct (run_materialsMap st !! mp_materialProductId mapping)
      as [found|] eqn:Hfound; [|by apply IH].
    destruct (resolveVariation found mapping) as [variation|]; [|by apply IH].
    destruct (negb _); [by apply IH|].
    destruct (deduct_materialsMap body item mapping found variation st)
      as [->|[newStock ->]]; [by apply IH|].
    destruct (variationTarget mapping variation) as [[vid target]|]; simpl;
      (destruct (decide (mp_materialProductId mapping = id)) as [<-|Hne];
       [rewrite lookup_insert_eq | rewrite lookup_insert_ne by done; by apply IH]);
      intros [= <-]; simpl.
    + destruct (lm_variations found) as [loaded|] eqn:Hloaded; [|done].
      simpl. intros [= <-] Hv.
      apply updateFound_elem in Hv as [Hv|(v0 & Hv0 & ->)].
      * by apply (IH (mp_materialProductId mapping) found loaded).
      * by apply (IH (mp_materialProductId mapping) found loaded v0).
    + by apply (IH (mp_materialProductId mapping) found).
  - by apply IH.
Qed.

(** An invocation leaves the rows of a variation that is not in the
    inventory as they are. *)
Lemma Reachable_variationRows body db st id :
  Reachable body db st →
  variationNotInInventory db id →
  variationRows id (run_db st) = variationRows id db.
Proof.
  intros Hreach Hnot.
  induction Hreach as [|st item mapping Hreach IH|st item Hreach IH]; [done| |done].
  rewrite <- IH. unfold processMapping.
  destruct (run_materialsMap st !! mp_materialProductId mapping) as [material|] eqn:Hm;
    [|done].
  unfold resolveVariation.
  destruct (mp_materialVariationId mapping) as [mvid|] eqn:Hmvid.
  - destruct (lm_variations material) as [variations|] eqn:Hvariations.
    + destruct (JS.find _ variations) as [v|] eqn:Hfind; [|done].
      destruct (negb _); [done|].
      apply find_some in Hfind as [Hv Hid]. apply bool_decide_eq_true in Hid.
      apply list_elem_of_In in Hv.
      destruct (Reachable_variations body db st _ material variations v Hreach Hm
                  Hvariations Hv) as (row & Hrow & Hactive & Hrow_id).
      assert (Hne : mvid ≠ id).
      { intros ->. rewrite Hid in Hrow_id. specialize (Hnot row Hrow Hrow_id).
        congruence. }
      assert (Hwritten : ∀ newStock,
                variationRows id
                  (Ledger.writeStock (Ledger.deductionTarget mapping (Some v)) newStock
                                     (run_db st))
                = variationRows id (run_db st)).
      { intros newStock.
        unfold variationRows, Ledger.deductionTarget, variationTarget.
        rewrite Hmvid. simpl. apply filter_updateWhere_other.
        intros r Hr. apply bool_decide_eq_true in Hr. simpl.
        rewrite !bool_decide_eq_false_2 by congruence. done. }
      destruct (deduct_db body item mapping material (Some v) st)
        as (newStock & values & [->|[->| ->]]); [done | apply Hwritten|].
      rewrite <- (Hwritten newStock). done.
    + destruct (negb _); [done|].
      destruct (deduct_db body item mapping material None st)
        as (newStock & values & [->|[->| ->]]); [done|..];
        unfold Ledger.deductionTarget, variationTarget; by rewrite Hmvid.
  - destruct (negb _); [done|].
    destruct (deduct_db body item mapping material None st)
      as (newStock & values & [->|[->| ->]]); [done|..];
      unfold Ledger.deductionTarget, variationTarget; by rewrite Hmvid.
Qed.

(** X27. After the soft deletion of a variation, the variation is no longer
    among the variations of the materials that the routes load, but it can
    still be fetched by id, with the stock it had. An invocation of
    process-order-stock after the deletion, for whatever order, leaves the
    rows of the variation as they are. *)
Theorem deleted_variation_is_never_deducted now body id db :
  let db1 := deleteLocalRawMaterialVariation id db in
  let db2 := (processOrderStock now body db1).2 in
  (∀ m variations v,
      m ∈ getLocalRawMaterials db1 → lm_variations m = Some variations →
      v ∈ variations → rv_id v ≠ id) ∧
  rv_stockQuantity <$> getLocalRawMaterialVariation id db1
  = rv_stockQuantity <$> getLocalRawMaterialVariation id db ∧
  variationRows id db2 = variationRows id db1.
Proof.
  intros db1 db2.
  pose proof (deleteLocalRawMaterialVariation_notInInventory id db) as Hnot.
  fold db1 in Hnot. split; [|split].
  - intros m variations v Hm Hvariations Hv Hid. unfold getLocalRawMaterials in Hm.
    apply list_elem_of_fmap in Hm as (row & -> & Hrow). simpl in Hvariations.
    case_bool_decide; [|done]. injection Hvariations as <-.
    apply list_elem_of_In, List.filter_In in Hv as [Hv Hactive].
    apply andb_true_iff in Hactive as [_ Hactive].
    apply list_elem_of_In in Hv. specialize (Hnot v Hv Hid). congruence.
  - unfold db1, getLocalRawMaterialVariation, deleteLocalRawMaterialVariation. simpl.
    rewrite (filter_updateWhere (λ v, bool_decide (rv_id v = id))) by done.
    by destruct (List.filter _ (rawMaterialVariations db)).
  - pose proof (Reachable_variationRows body db1 _ id
                  (Reachable_processLineItems body db1) Hnot) as Hrows.
    unfold db2.
    destruct (processOrderStock_store body now db1) as [->|[->|[report ->]]]; done.
Qed.

End DeletedMaterial.

(** ** Purchase order maintenance *)

Section PurchaseOrderMaintenance.

Import PurchaseOrders Reports.

Lemma filter_filter_other {A : Type} (p q : A → bool) (rows : list A) :
  (∀ row, p row = true → q row = true) →
  List.filter p (List.filter q rows) = List.filter p rows.
Proof.
  intros Hpq. induction rows as [|row rows IH]; simpl; [done|].
  destruct (q row) eqn:Hq; simpl.
  - by rewrite IH.
  - destruct (p row) eqn:Hp; [|done]. rewrite (Hpq row Hp) in Hq. done.
Qed.

Lemma getPurchaseOrder_deleted id db :
  getPurchaseOrder id (deletePurchaseOrder id db) = None.
Proof.
  unfold getPurchaseOrder, deletePurchaseOrder. simpl.
  assert (Hnone : head (List.filter (λ po, bool_decide (po_id po = id))
                          (List.filter (λ po, negb (bool_decide (po_id po = id)))
                                       (purchaseOrders db))) = None).
  { apply head_filter_None. intros row Hrow.
    apply list_elem_of_In, List.filter_In in Hrow as [_ Hrow].
    by apply negb_true_iff in Hrow. }
  by rewrite Hnone.
Qed.

Lemma getPurchaseOrder_deleted_other id other db :
  other ≠ id →
  getPurchaseOrder other (deletePurchaseOrder id db) = getPurchaseOrder other db.
Proof.
  intros Hother. unfold getPurchaseOrder, deletePurchaseOrder. simpl.
  rewrite !filter_filter_other; [done| |];
    intros row Hrow; apply bool_decide_eq_true in Hrow;
    apply negb_true_iff, bool_decide_eq_false_2; congruence.
Qed.

(** X15. The route that deletes a purchase order: an order that is neither
    draft nor cancelled is refused with 400 and an unknown id with 404, the
    store being left as it is. After a deletion the order can no longer be
    fetched, no line of it is left, every other purchase order is fetched as
    before, and materials, variations, mappings, ledger and processed orders
    are untouched. *)
Theorem deleteOrder_guard id db :
  (∀ order, getPurchaseOrder id db = Some order →
     po_status (pd_row order) ≠ draft → po_status (pd_row order) ≠ cancelled →
     deleteOrder id db = (Failed 400 deleteError, db)) ∧
  (getPurchaseOrder id db = None →
   deleteOrder id db = (Failed 404 "Purchase order not found", db)) ∧
  (∀ db', deleteOrder id db = (Deleted, db') →
     (∃ order, getPurchaseOrder id db = Some order ∧
               (po_status (pd_row order) = draft ∨ po_status (pd_row order) = cancelled)) ∧
     getPurchaseOrder id db' = None ∧
     (∀ line, line ∈ purchaseOrderItems db' → poi_purchaseOrderId line ≠ id) ∧
     (∀ other, other ≠ id → getPurchaseOrder other db' = getPurchaseOrder other db) ∧
     sameInventory db db').
Proof.
  unfold deleteOrder. split; [|split].
  - intros order -> Hdraft Hcancelled.
    by rewrite !bool_decide_eq_true_2.
  - by intros ->.
  - intros db'. destruct (getPurchaseOrder id db) as [order|]; [|done].
    destruct (bool_decide (po_status (pd_row order) ≠ draft)) eqn:Hdraft;
      destruct (bool_decide (po_status (pd_row order) ≠ cancelled)) eqn:Hcancelled;
      simpl; try done; intros [= <-];
      (split; [exists order; split; [done|]|
               split; [apply getPurchaseOrder_deleted|
                       split; [|split; [intros other; apply getPurchaseOrder_deleted_other|
                                        by repeat split]]]]).
    all: try (intros line Hline; simpl in Hline;
              apply list_elem_of_In, List.filter_In in Hline as [_ Hline];
              apply negb_true_iff in Hline; by apply bool_decide_eq_false in Hline).
    + right. apply bool_decide_eq_false in Hcancelled.
      by destruct (decide (po_status (pd_row order) = cancelled)).
    + left. apply bool_decide_eq_false in Hdraft.
      by destruct (decide (po_status (pd_row order) = draft)).
    + left. apply bool_decide_eq_false in Hdraft.
      by destruct (decide (po_status (pd_row order) = draft)).
Qed.

Lemma getPurchaseOrder_updated id status db order :
  getPurchaseOrder id db = Some order →
  updatePurchaseOrder id status db
  = (Some {| pd_row := setStatus status (po_receivedDate (pd_row order)) (pd_row order);
             pd_items := pd_items order |},
     (updatePurchaseOrder id status db).2) ∧
  getPurchaseOrder id (updatePurchaseOrder id status db).2
  = Some {| pd_row := setStatus status (po_receivedDate (pd_row order)) (pd_row order);
            pd_items := pd_items order |}.
Proof.
  unfold updatePurchaseOrder, getPurchaseOrder. simpl.
  rewrite (filter_updateWhere (λ po, bool_decide (po_id po = id))) by done.
  destruct (List.filter _ (purchaseOrders db)) as [|row rows] eqn:Hrows; simpl; [done|].
  intros [= <-]. simpl.
  rewrite (filter_updateWhere (λ po, bool_decide (po_id po = id))) by done.
  by rewrite Hrows.
Qed.

Lemma updatePurchaseOrder_frame id status db :
  (∀ other, other ≠ id →
            getPurchaseOrder other (updatePurchaseOrder id status db).2
            = getPurchaseOrder other db) ∧
  purchaseOrderItems (updatePurchaseOrder id status db).2 = purchaseOrderItems db ∧
  sameInventory db (updatePurchaseOrder id status db).2.
Proof.
  assert (Hdb : (updatePurchaseOrder id status db).2
                = with_purchaseOrders
                    (updateWhere (λ po, bool_decide (po_id po = id))
                                 (λ po, setStatus status (po_receivedDate po) po)
                                 (purchaseOrders db)) db).
  { unfold updatePurchaseOrder. by destruct (head _). }
  rewrite Hdb. split; [|by repeat split].
  intros other Hother. unfold getPurchaseOrder. simpl.
  rewrite filter_updateWhere_other; [done|].
  intros row Hrow. apply bool_decide_eq_true in Hrow. simpl.
  rewrite !bool_decide_eq_false_2 by congruence. done.
Qed.

Lemma patchStatus_accepted id text status db order :
  validStatus text = Some status →
  getPurchaseOrder id db = Some order →
  ∃ db',
    patchStatus id text db
    = (Updated (Some {| pd_row := setStatus status (po_receivedDate (pd_row order))
                                            (pd_row order);
                        pd_items := pd_items order |}), db') ∧
    getPurchaseOrder id db'
    = Some {| pd_row := setStatus status (po_receivedDate (pd_row order)) (pd_row order);
              pd_items := pd_items order |} ∧
    (∀ other, other ≠ id → getPurchaseOrder other db' = getPurchaseOrder other db) ∧
    purchaseOrderItems db' = purchaseOrderItems db ∧
    sameInventory db db'.
Proof.
  intros Hvalid Hget. unfold patchStatus. rewrite Hvalid, Hget.
  destruct (getPurchaseOrder_updated id status db order Hget) as [Hrun Hstored].
  destruct (updatePurchaseOrder_frame id status db) as (Hother & Hlines & Hrest).
  rewrite Hrun. eexists. split; [reflexivity|].
  split; [done|]. split; [done|]. by split.
Qed.

(** X16. The route that sets the status of a purchase order: a text that
    is not one of the five statuses is refused with 400 and an unknown id
    with 404, the store being left as it is. Otherwise the order is stored
    with the requested status, whatever its status was, and with the same
    receivedDate and the same lines; every other purchase order and the rest
    of the store are untouched. *)
Theorem patchStatus_sets_status_only id text db :
  (validStatus text = None → patchStatus id text db = (Failed 400 "Invalid status", db)) ∧
  (∀ status, validStatus text = Some status → getPurchaseOrder id db = None →
     patchStatus id text db = (Failed 404 "Purchase order not found", db)) ∧
  (∀ status order, validStatus text = Some status → getPurchaseOrder id db = Some order →
     ∃ db',
       patchStatus id text db
       = (Updated (Some {| pd_row := setStatus status (po_receivedDate (pd_row order))
                                               (pd_row order);
                           pd_items := pd_items order |}), db') ∧
       getPurchaseOrder id db'
       = Some {| pd_row := setStatus status (po_receivedDate (pd_row order)) (pd_row order);
                 pd_items := pd_items order |} ∧
       (∀ other, other ≠ id → getPurchaseOrder other db' = getPurchaseOrder other db) ∧
       purchaseOrderItems db' = purchaseOrderItems db ∧
       sameInventory db db').
Proof.
  split; [|split].
  - unfold patchStatus. by intros ->.
  - unfold patchStatus. by intros status -> ->.
  - intros status order. apply patchStatus_accepted.
Qed.

(** X17. The status route checks no transition, so it unlocks the
    deletion: once the status of a purchase order is set to cancelled,
    whatever it was and whatever has been received on it, the receive route
    refuses the order, and the delete route deletes it, leaving materials,
    variations and ledger (the stock received on it too) as they are. *)
Theorem cancelled_order_can_be_deleted id db order now items :
  getPurchaseOrder id db = Some order →
  let db1 := (patchStatus id "cancelled" db).2 in
  (∃ error, Receiving.receive now id items db1 = (Receiving.Failed 400 error, db1)) ∧
  ∃ db2,
    deleteOrder id db1 = (Deleted, db2) ∧
    getPurchaseOrder id db2 = None ∧
    sameInventory db db2.
Proof.
  intros Hget db1.
  destruct (patchStatus_accepted id "cancelled" cancelled db order eq_refl Hget)
    as (db' & Hrun & Hstored & _ & _ & Hrest).
  assert (Hdb1 : db1 = db') by (unfold db1; by rewrite Hrun).
  rewrite Hdb1. split.
  - unfold Receiving.receive. destruct (negb _); [eauto|]. rewrite Hstored. eauto.
  - assert (Hdelete : deleteOrder id db' = (Deleted, deletePurchaseOrder id db')).
    { unfold deleteOrder. rewrite Hstored. reflexivity. }
    exists (deletePurchaseOrder id db'). split; [done|].
    split; [apply getPurchaseOrder_deleted|].
    destruct Hrest as (? & ? & ? & ? & ?). by repeat split.
Qed.

Import Scenario Cases.

Lemma deleteOrder_guard_witness :
  deleteOrder 1 purchaseDB = (Failed 400 deleteError, purchaseDB) ∧
  deleteOrder 2 purchaseDB = (Failed 404 "Purchase order not found", purchaseDB) ∧
  ∃ db',
    deleteOrder 1 draftDB = (Deleted, db') ∧
    getPurchaseOrder 1 db' = None ∧
    rawMaterials db' = rawMaterials draftDB.
Proof.
  split; [|split].
  - apply (proj1 (deleteOrder_guard 1 purchaseDB)
             {| pd_row := {| po_id := 1; po_poNumber := "PO-2026-0001";
                             po_status := ordered; po_receivedDate := None |};
                pd_items := [lineOf20] |}); [reflexivity | discriminate | discriminate].
  - apply (proj1 (proj2 (deleteOrder_guard 2 purchaseDB))). reflexivity.
  - exists (deleteOrder 1 draftDB).2.
    destruct (proj2 (proj2 (deleteOrder_guard 1 draftDB)) (deleteOrder 1 draftDB).2)
      as (_ & Hgone & _ & _ & Hrest); [reflexivity|].
    split; [reflexivity|]. split; [exact Hgone|]. exact (proj1 Hrest).
Defined.

Lemma patchStatus_sets_status_only_witness :
  patchStatus 1 "shipped" purchaseDB = (Failed 400 "Invalid status", purchaseDB) ∧
  ∃ db',
    patchStatus 1 "received" purchaseDB
    = (Updated (Some {| pd_row := {| po_id := 1; po_poNumber := "PO-2026-0001";
                                     po_status := received; po_receivedDate := None |};
                        pd_items := [lineOf20] |}), db') ∧
    purchaseOrderItems db' = [lineOf20].
Proof.
  split.
  - apply (proj1 (patchStatus_sets_status_only 1 "shipped" purchaseDB)). reflexivity.
  - destruct (proj2 (proj2 (patchStatus_sets_status_only 1 "received" purchaseDB))
                received
                {| pd_row := {| po_id := 1; po_poNumber := "PO-2026-0001";
                                po_status := ordered; po_receivedDate := None |};
                   pd_items := [lineOf20] |} eq_refl eq_refl)
      as (db' & Hrun & _ & _ & Hlines & _).
    exists db'. split; [exact Hrun | exact Hlines].
Defined.

Lemma cancelled_order_can_be_deleted_witness :
  deleteOrder 1 receivedDB = (Failed 400 deleteError, receivedDB) ∧
  ∃ db2,
    deleteOrder 1 (patchStatus 1 "cancelled" receivedDB).2 = (Deleted, db2) ∧
    getPurchaseOrder 1 db2 = None ∧
    rm_stockQuantity <$> rawMaterials db2 = [Some 32].
Proof.
  split; [vm_compute; reflexivity|].
  destruct (getPurchaseOrder 1 receivedDB) as [order|] eqn:Hget;
    [|vm_compute in Hget; discriminate Hget].
  destruct (cancelled_order_can_be_deleted 1 receivedDB order 8 [] Hget)
    as [_ (db2 & Hdelete & Hgone & Hrest)].
  exists db2. split; [exact Hdelete|]. split; [exact Hgone|].
  rewrite (proj1 Hrest). vm_compute. reflexivity.
Defined.

End PurchaseOrderMaintenance.

(** ** Ledger listing and direct stock updates *)

Section LedgerListing.

Import LedgerListing.

Lemma take_full_snoc {A : Type} (n : nat) (l : list A) x :
  (n ≤ length (take n l))%nat → take n (l ++ [x]) = take n l.
Proof. rewrite length_take. intros Hfull. apply take_app_le. lia. Qed.

(** X18. Once the ledger listing (of all materials, or of one material)
    holds [limit] entries, an entry written later does not appear in it: the
    listing is the same before and after the write, because the listing
    takes the oldest entries first. In particular the listing of a request
    that names no material and no limit, which takes 100 entries, never
    shows a new entry once the ledger holds 100 entries or more. *)
Theorem getStockLedgerEntries_full_listing_hides_new_entries materialProductId limit
    entry db :
  (limit ≤ Z.of_nat (length (getStockLedgerEntries materialProductId limit db)) →
   getStockLedgerEntries materialProductId limit (createStockLedgerEntry entry db).2
   = getStockLedgerEntries materialProductId limit db) ∧
  ((100 ≤ length (stockLedger db))%nat →
   ledgerRoute None None (createStockLedgerEntry entry db).2 = ledgerRoute None None db).
Proof.
  unfold createStockLedgerEntry.
  destruct (ledgerAccepts entry); [|done].
  split.
  - unfold getStockLedgerEntries. simpl.
    destruct materialProductId as [id|]; [destruct (JS.truthy _)|];
      rewrite ?List.filter_app; intros Hfull; simpl;
      try (destruct (bool_decide _); [|by rewrite app_nil_r]);
      apply take_full_snoc; lia.
  - intros Hfull. unfold ledgerRoute, getStockLedgerEntries. simpl.
    apply take_app_le. lia.
Qed.

Import Scenario.

Lemma getStockLedgerEntries_full_listing_hides_new_entries_witness :
  2 ≤ Z.of_nat (length (getStockLedgerEntries None 2 cordDB)) ∧
  getStockLedgerEntries None 2
    (createStockLedgerEntry (sl_values (stockTake 3 1 None 4)) cordDB).2
  = [stockTake 1 1 None 10; stockTake 2 1 (Some 7) 5].
Proof.
  assert (Hfull : 2 ≤ Z.of_nat (length (getStockLedgerEntries None 2 cordDB)))
    by (vm_compute; discriminate).
  split; [exact Hfull|].
  rewrite (proj1 (getStockLedgerEntries_full_listing_hides_new_entries None 2
                    (sl_values (stockTake 3 1 None 4)) cordDB) Hfull).
  reflexivity.
Defined.

End LedgerListing.

Section DirectStockUpdates.

Import Ledger DirectStock.

(** A write of [stockQuantity] to a record that exists, with no ledger
    entry, and the ledger invariant. *)
Lemma writeStock_consistent_iff t stockQuantity db :
  consistent db →
  is_Some (stockOf db t) →
  (consistent (writeStock t stockQuantity db) ↔
   latestNewStock db t = None ∨ latestNewStock db t = Some (Some stockQuantity)).
Proof.
  intros Hconsistent [stock Hexists].
  assert (Hstock : stockOf (writeStock t stockQuantity db) t = Some (Some stockQuantity))
    by (by rewrite stockOf_writeStock_same, Hexists).
  assert (Hledger : stockLedger (writeStock t stockQuantity db) = stockLedger db)
    by (by destruct t).
  unfold latestNewStock. split.
  - intros Hafter. specialize (Hafter t). unfold consistentAt in Hafter.
    rewrite Hstock, Hledger in Hafter.
    destruct (lastEntry t (stockLedger db)) as [e|]; [|by left].
    right. apply bool_decide_eq_true in Hafter. simpl. by rewrite Hafter.
  - intros Hlatest t'. unfold consistentAt. rewrite Hledger.
    destruct (decide (t' = t)) as [->|Hne].
    + rewrite Hstock.
      destruct (lastEntry t (stockLedger db)) as [e|]; [|done].
      destruct Hlatest as [Hnone|Hsome]; [done|]. simpl in Hsome.
      injection Hsome as Hsome. by rewrite Hsome, bool_decide_eq_true_2.
    + rewrite stockOf_writeStock_other by done. apply Hconsistent.
Qed.

(** X19. The two routes that set the stock of a material or of a variation
    directly write no ledger entry. On a store whose ledger is consistent,
    an accepted call answers with the row carrying the requested quantity,
    and it leaves the ledger consistent exactly when the material or
    variation has no ledger entry or the quantity is the newStock of its
    most recent entry. *)
Theorem direct_stock_update_consistent_iff id stockQuantity db :
  consistent db →
  (∀ material db',
      patchStock id (Some stockQuantity) db = (Updated material, db') →
      stockLedger db' = stockLedger db ∧
      rm_stockQuantity material = Some stockQuantity ∧
      (consistent db' ↔
       latestNewStock db (Material id) = None ∨
       latestNewStock db (Material id) = Some (Some stockQuantity))) ∧
  (∀ variation db',
      patchVariationStock id (Some stockQuantity) db = (Updated variation, db') →
      stockLedger db' = stockLedger db ∧
      rv_stockQuantity variation = Some stockQuantity ∧
      (consistent db' ↔
       latestNewStock db (Variation id) = None ∨
       latestNewStock db (Variation id) = Some (Some stockQuantity))).
Proof.
  intros Hconsistent. split.
  - intros material db'. unfold patchStock, updateLocalRawMaterialStock.
    destruct (int4 id && int4 stockQuantity); [|done]. cbv zeta.
    destruct (head _) as [row|] eqn:Hrow; [|done]. intros [= <- <-].
    simpl in Hrow.
    rewrite (filter_updateWhere (λ m, bool_decide (rm_id m = id))) in Hrow by done.
    destruct (List.filter (λ m, bool_decide (rm_id m = id)) (rawMaterials db))
      as [|found rows] eqn:Hrows; [done|].
    simpl in Hrow. injection Hrow as <-.
    split; [done|]. split; [done|].
    apply (writeStock_consistent_iff (Material id)); [done|].
    simpl. rewrite Hrows. simpl. eauto.
  - intros variation db'.
    unfold patchVariationStock, updateLocalRawMaterialVariationStock.
    destruct (int4 id && int4 stockQuantity); [|done]. cbv zeta.
    destruct (getLocalRawMaterialVariation id _) as [row|] eqn:Hrow; [|done].
    intros [= <- <-]. unfold getLocalRawMaterialVariation in Hrow. simpl in Hrow.
    rewrite (filter_updateWhere (λ v, bool_decide (rv_id v = id))) in Hrow by done.
    destruct (List.filter (λ v, bool_decide (rv_id v = id)) (rawMaterialVariations db))
      as [|found rows] eqn:Hrows; [done|].
    simpl in Hrow. injection Hrow as <-.
    split; [done|]. split; [done|].
    apply (writeStock_consistent_iff (Variation id)); [done|].
    simpl. unfold getLocalRawMaterialVariation. rewrite Hrows. simpl. eauto.
Qed.

Import Scenario Cases.

Lemma direct_stock_update_consistent_iff_witness :
  consistent countedDB ∧
  consistent (patchStock 1 (Some 20) countedDB).2 ∧
  ¬ consistent (patchStock 1 (Some 25) countedDB).2 ∧
  consistent cordDB ∧
  ¬ consistent (patchVariationStock 7 (Some 6) cordDB).2.
Proof.
  assert (Hcounted : consistent countedDB)
    by (apply consistent_ledger; vm_compute; reflexivity).
  assert (Hcord : consistent cordDB)
    by (apply consistent_ledger; vm_compute; reflexivity).
  split; [exact Hcounted|]. split; [|split; [|split; [exact Hcord|]]].
  - destruct (proj1 (direct_stock_update_consistent_iff 1 20 countedDB Hcounted)
                (setMaterialStock 20 materialX) (patchStock 1 (Some 20) countedDB).2
                eq_refl) as (_ & _ & Hiff).
    apply Hiff. right. reflexivity.
  - destruct (proj1 (direct_stock_update_consistent_iff 1 25 countedDB Hcounted)
                (setMaterialStock 25 materialX) (patchStock 1 (Some 25) countedDB).2
                eq_refl) as (_ & _ & Hiff).
    intros Hafter. apply Hiff in Hafter as [Hnone|Hsome].
    + vm_compute in Hnone. discriminate Hnone.
    + vm_compute in Hsome. discriminate Hsome.
  - destruct (proj2 (direct_stock_update_consistent_iff 7 6 cordDB Hcord)
                (setVariationStock 6 cordBlack) (patchVariationStock 7 (Some 6) cordDB).2
                eq_refl) as (_ & _ & Hiff).
    intros Hafter. apply Hiff in Hafter as [Hnone|Hsome].
    + vm_compute in Hnone. discriminate Hnone.
    + vm_compute in Hsome. discriminate Hsome.
Defined.

End DirectStockUpdates.

(** ** The report of the fulfillment calculator *)

Section FulfillmentReport.

Import Fulfillment.

Variable localMaterials : list LocalRawMaterialWithVariations.
Variable allMappings : list MaterialProductMapping.
Variable processedOrdersList : list ProcessedOrder.

Local Abbreviation pool := (buildStockMap localMaterials).
Local Abbreviation step := (processOrder localMaterials allMappings processedOrdersList pool).
Local Abbreviation status :=
  (fulfillmentStatus localMaterials allMappings processedOrdersList).

Lemma checkStock_coherent (used : gmap Key Z) (materialsNeeded : list (Key * Needed)) :
  (checkStock pool used materialsNeeded).1 = true ↔
  (checkStock pool used materialsNeeded).2 = [].
Proof.
  unfold checkStock.
  apply (foldl_invariant
           (λ acc : bool * list MissingMaterial, acc.1 = true ↔ acc.2 = [])); [done|].
  intros [can missing] [key n] Hacc _. simpl in *.
  destruct (_ <? _); simpl; [|done]. split; [done|].
  intros Hnil. by destruct missing.
Qed.

(** The entry that the loop body files for an order. *)
Lemma processOrder_entry st order :
  ∃ entry,
    (step st order).2 = <[ord_id order := entry]> st.2 ∧
    (isProcessed entry = true ↔ ord_id order ∈ processedOrderIds processedOrdersList) ∧
    (isProcessed entry = true → entry = processedEntry) ∧
    (canFulfill entry = true ↔ missingMaterials entry = []) ∧
    (materialsNeededFor localMaterials allMappings order = [] →
     canFulfill entry = true ∧ missingMaterials entry = []).
Proof.
  destruct st as [used entries]. unfold processOrder. case_bool_decide as Hprocessed.
  - exists processedEntry. by repeat split.
  - pose proof (checkStock_coherent used
                  (materialsNeededFor localMaterials allMappings order)) as Hcoherent.
    destruct (checkStock pool used (materialsNeededFor localMaterials allMappings order))
      as [can missing] eqn:Hcheck.
    eexists. split; [reflexivity|]. simpl.
    split; [done|]. split; [done|]. split; [exact Hcoherent|].
    intros Hnone. rewrite Hnone in Hcheck. by injection Hcheck as <- <-.
Qed.

Lemma foldl_processOrder_domain (orders : list Order) st id :
  is_Some ((foldl step st orders).2 !! id) ↔
  is_Some (st.2 !! id) ∨ id ∈ ord_id <$> orders.
Proof.
  revert st. induction orders as [|order orders IH]; intros st.
  - simpl. split; [by left|]. intros [?|Hin]; [done|]. by apply elem_of_nil in Hin.
  - rewrite fmap_cons, elem_of_cons.
    change (foldl step st (order :: orders)) with (foldl step (step st order) orders).
    rewrite IH.
    destruct (processOrder_entry st order) as (entry & -> & _).
    destruct (decide (ord_id order = id)) as [<-|Hne].
    + rewrite lookup_insert_eq. split; [intros _; right; by left | eauto].
    + rewrite lookup_insert_ne by done. intuition congruence.
Qed.

Lemma sortedOrders_elem order (orders : list Order) :
  order ∈ sortedOrders orders ↔
  order ∈ orders ∧ ord_status order ∈ fulfillmentStatuses.
Proof.
  unfold sortedOrders. rewrite sortBy_Permutation. unfold relevantOrders.
  rewrite list_elem_of_In, List.filter_In, <- list_elem_of_In.
  by rewrite bool_decide_eq_true.
Qed.

(** X20. The fulfillment calculator reports on exactly the orders of the
    feed that are in one of the awaiting-fulfillment statuses (pending,
    order-received, production): an order id has an entry in the answer if
    and only if the feed holds an order with that id in such a status. *)
Theorem fulfillmentStatus_covers_awaiting_orders (orders : list Order) id :
  is_Some (status orders !! id) ↔
  ∃ order, order ∈ orders ∧ ord_id order = id ∧
           ord_status order ∈ fulfillmentStatuses.
Proof.
  unfold fulfillmentStatus, runFulfillment. rewrite foldl_processOrder_domain. simpl.
  rewrite lookup_empty, list_elem_of_fmap. split.
  - intros [Hnone|(order & -> & Horder)]; [by destruct Hnone|].
    apply sortedOrders_elem in Horder as [Hin Hstatus]. by exists order.
  - intros (order & Hin & <- & Hstatus). right. exists order.
    split; [done|]. by apply sortedOrders_elem.
Qed.

(** X21. Every entry of the calculator's answer is coherent: the order is
    reported fulfillable exactly when its list of missing materials is
    empty, and it is flagged as processed exactly when its id is among the
    processed orders, in which case it is reported fulfillable with nothing
    missing. *)
Theorem fulfillmentStatus_entries_coherent (orders : list Order) id entry :
  status orders !! id = Some entry →
  (canFulfill entry = true ↔ missingMaterials entry = []) ∧
  (isProcessed entry = true ↔ id ∈ processedOrderIds processedOrdersList) ∧
  (isProcessed entry = true → entry = processedEntry).
Proof.
  unfold fulfillmentStatus, runFulfillment. revert id entry.
  apply (foldl_invariant
           (λ st : gmap Key Z * gmap Z FulfillmentEntry,
              ∀ id entry, st.2 !! id = Some entry →
                (canFulfill entry = true ↔ missingMaterials entry = []) ∧
                (isProcessed entry = true ↔ id ∈ processedOrderIds processedOrdersList) ∧
                (isProcessed entry = true → entry = processedEntry))).
  - intros id entry Hentry. simpl in Hentry. by rewrite lookup_empty in Hentry.
  - intros st order Hst _ id entry.
    destruct (processOrder_entry st order)
      as (filed & -> & Hprocessed & Hentry & Hcoherent & _).
    destruct (decide (ord_id order = id)) as [<-|Hne].
    + rewrite lookup_insert_eq. by intros [= <-].
    + rewrite lookup_insert_ne by done. apply Hst.
Qed.

Lemma materialsNeededFor_unmapped order :
  (∀ item, item ∈ ord_line_items order → itemMappings allMappings item = []) →
  materialsNeededFor localMaterials allMappings order = [].
Proof.
  intros Hunmapped. unfold materialsNeededFor.
  apply (foldl_invariant (λ materialsNeeded : list (Key * Needed), materialsNeeded = []));
    [done|].
  intros materialsNeeded item -> Hitem. by rewrite (Hunmapped item Hitem).
Qed.

(** X22. An order none of whose line items has a mapping needs no material:
    the calculator reports it fulfillable, with no missing materials,
    whatever the stock levels and whatever the older orders have claimed. *)
Theorem order_without_mappings_is_fulfillable (orders : list Order) id entry :
  status orders !! id = Some entry →
  (∀ order item, order ∈ orders → ord_id order = id → item ∈ ord_line_items order →
                 itemMappings allMappings item = []) →
  canFulfill entry = true ∧ missingMaterials entry = [].
Proof.
  unfold fulfillmentStatus, runFulfillment. intros Hentry Hunmapped. revert entry Hentry.
  apply (foldl_invariant
           (λ st : gmap Key Z * gmap Z FulfillmentEntry,
              ∀ entry, st.2 !! id = Some entry →
                       canFulfill entry = true ∧ missingMaterials entry = [])).
  - intros entry Hentry. simpl in Hentry. by rewrite lookup_empty in Hentry.
  - intros st order Hst Horder entry.
    apply sortedOrders_elem in Horder as [Horder _].
    destruct (processOrder_entry st order) as (filed & -> & _ & _ & _ & Hnone).
    destruct (decide (ord_id order = id)) as [Hid|Hne].
    + rewrite <- Hid, lookup_insert_eq. intros [= <-]. apply Hnone.
      apply materialsNeededFor_unmapped. intros item Hitem.
      by apply (Hunmapped order item).
    + rewrite lookup_insert_ne by done. apply Hst.
Qed.

End FulfillmentReport.

Section FulfillmentReportWitnesses.

Import Fulfillment Scenario Cases.

Local Abbreviation feed := [orderA; orderB; orderC; orderU].

Lemma fulfillmentStatus_entries_coherent_witness :
  ∃ entry,
    fulfillmentStatus [materialM] [sixOfM] [] feed !! 12 = Some entry ∧
    (canFulfill entry = true ↔ missingMaterials entry = []) ∧
    canFulfill entry = false ∧
    isProcessed entry = false.
Proof.
  destruct (fulfillmentStatus [materialM] [sixOfM] [] feed !! 12) as [entry|] eqn:Hentry;
    [|vm_compute in Hentry; discriminate Hentry].
  destruct (fulfillmentStatus_entries_coherent [materialM] [sixOfM] [] feed 12 entry Hentry)
    as (Hcoherent & _ & _).
  exists entry. split; [reflexivity|]. split; [exact Hcoherent|].
  vm_compute in Hentry. injection Hentry as <-. split; reflexivity.
Defined.

Lemma order_without_mappings_is_fulfillable_witness :
  ∃ entry,
    fulfillmentStatus [materialM] [sixOfM] [] feed !! 14 = Some entry ∧
    canFulfill entry = true ∧ missingMaterials entry = [].
Proof.
  destruct (fulfillmentStatus [materialM] [sixOfM] [] feed !! 14) as [entry|] eqn:Hentry;
    [|vm_compute in Hentry; discriminate Hentry].
  exists entry. split; [reflexivity|].
  apply (order_without_mappings_is_fulfillable [materialM] [sixOfM] [] feed 14 entry Hentry).
  intros order item Horder Hid Hitem.
  repeat (apply elem_of_cons in Horder as [->|Horder]; [try discriminate Hid|]).
  - apply list_elem_of_singleton in Hitem as ->. reflexivity.
  - by apply elem_of_nil in Horder.
Defined.

End FulfillmentReportWitnesses.

(** ** The ledger as a chain *)

Section LedgerChain.

Import Ledger Reports.

Lemma chainedFrom_snoc earlier ledger e :
  chainedFrom earlier (ledger ++ [e])
  = chainedFrom earlier ledger &&
    match lastEntry (target (sl_values e)) (earlier ++ ledger) with
    | Some previous =>
        bool_decide (sl_previousStock (sl_values e) = sl_newStock (sl_values previous))
    | None => true
    end.
Proof.
  revert earlier. induction ledger as [|e' ledger IH]; intros earlier; simpl.
  - by rewrite app_nil_r, andb_true_r.
  - by rewrite IH, <- app_assoc, andb_assoc.
Qed.

Lemma stockOf_ledger db ledger t :
  stockOf (with_stockLedger ledger db) t = stockOf db t.
Proof. by destruct t. Qed.

Lemma stockOf_insertStockLedger entry db t :
  stockOf (insertStockLedger entry db).2 t = stockOf db t.
Proof. by destruct t. Qed.

(** A mutation that records as [previousStock] the stock it read from the
    target of its ledger entry extends the chain. *)
Lemma record_chained db db0 entry stock :
  consistent db →
  Forall balanced (stockLedger db) →
  chained (stockLedger db) →
  stockOf db (target entry) = Some stock →
  sl_previousStock entry = Some (JS.orZero stock) →
  stockLedger db0 = stockLedger db →
  chained (stockLedger (insertStockLedger entry db0).2).
Proof.
  intros Hconsistent Hbalanced Hchained Hstock Hprevious Hsame.
  unfold chained. simpl. rewrite Hsame, chainedFrom_snoc, Hchained. simpl.
  destruct (lastEntry (target entry) (stockLedger db)) as [previous|] eqn:Hlast; [|done].
  apply bool_decide_eq_true.
  specialize (Hconsistent (target entry)). unfold consistentAt in Hconsistent.
  rewrite Hlast, Hstock in Hconsistent. apply bool_decide_eq_true in Hconsistent.
  apply last_filter_elem in Hlast as [Hin _].
  rewrite Forall_forall in Hbalanced.
  destruct (Hbalanced previous Hin) as (p & n & _ & Hnew & _).
  rewrite Hprevious, Hconsistent, Hnew. simpl. done.
Qed.

Lemma getLocalRawMaterial_stockOf id db material :
  getLocalRawMaterial id db = Some material →
  stockOf db (Material id) = Some (lm_stockQuantity material).
Proof.
  unfold getLocalRawMaterial. simpl.
  destruct (head _) as [row|]; [|done]. by intros [= <-].
Qed.

Lemma lookupVariation_stockOf family materialId variationId db variation :
  StockAdjust.lookupVariation family materialId variationId db = inl variation →
  stockOf db (Variation variationId) = Some (rv_stockQuantity variation).
Proof.
  unfold StockAdjust.lookupVariation. simpl. destruct family.
  - destruct (getLocalRawMaterial materialId db); [|done].
    destruct (getLocalRawMaterialVariation variationId db) as [v|]; [|done].
    case_bool_decide; [|done]. by intros [= <-].
  - destruct (getLocalRawMaterialVariation variationId db) as [v|]; [|done].
    by intros [= <-].
Qed.

(** A manual adjustment that records the stock it read extends the chain,
    or writes no ledger entry at all. *)
Lemma adjustMaterial_chained id values previousStock quantityChange newStock db stock :
  consistent db →
  Forall balanced (stockLedger db) →
  chained (stockLedger db) →
  stockOf db (target values) = Some stock →
  sl_previousStock values = Some (JS.orZero stock) →
  chained (stockLedger
             (StockAdjust.adjustMaterial id values previousStock quantityChange newStock
                                         db).2).
Proof.
  intros Hconsistent Hbalanced Hchained Hstock Hprevious.
  destruct (adjustMaterial_cases id values previousStock quantityChange newStock db)
    as [[_ ->]|[(_ & _ & ->)|(_ & _ & ->)]]; [done | done |].
  by apply (record_chained db _ _ stock).
Qed.

Lemma adjustVariation_chained id values previousStock quantityChange newStock db stock :
  consistent db →
  Forall balanced (stockLedger db) →
  chained (stockLedger db) →
  stockOf db (target values) = Some stock →
  sl_previousStock values = Some (JS.orZero stock) →
  chained (stockLedger
             (StockAdjust.adjustVariation id values previousStock quantityChange newStock
                                          db).2).
Proof.
  intros Hconsistent Hbalanced Hchained Hstock Hprevious.
  destruct (adjustVariation_cases id values previousStock quantityChange newStock db)
    as [[_ ->]|[(_ & _ & ->)|(_ & _ & ->)]]; [done | done |].
  by apply (record_chained db _ _ stock).
Qed.

(** X23. The manual adjustment routes keep the ledger a chain. If the
    ledger is consistent with the stock, every entry satisfies
    newStock = previousStock + quantityChange, and the previousStock of
    every entry is the newStock of the most recent earlier entry of the same
    material or variation, then this last property still holds after a call
    of any of the four routes, in both families. *)
Theorem manual_adjustments_chained family id variationId amount notes db :
  consistent db →
  Forall balanced (stockLedger db) →
  chained (stockLedger db) →
  chained (stockLedger (StockAdjust.addStock family id amount notes db).2) ∧
  chained (stockLedger (StockAdjust.setStock family id amount notes db).2) ∧
  chained (stockLedger
             (StockAdjust.addVariationStock family id variationId amount notes db).2) ∧
  chained (stockLedger
             (StockAdjust.setVariationStock family id variationId amount notes db).2).
Proof.
  intros Hconsistent Hbalanced Hchained.
  unfold StockAdjust.addStock, StockAdjust.setStock, StockAdjust.addVariationStock,
    StockAdjust.setVariationStock.
  destruct (amount <=? 0), (amount <? 0);
    destruct (getLocalRawMaterial id db) as [material|] eqn:Hmaterial;
    destruct (StockAdjust.lookupVariation family id variationId db)
      as [variation|response] eqn:Hvariation;
    repeat split; try done;
    try (apply (adjustMaterial_chained _ _ _ _ _ db (lm_stockQuantity material));
         try done; by apply getLocalRawMaterial_stockOf);
    (apply (adjustVariation_chained _ _ _ _ _ db (rv_stockQuantity variation));
     try done; by apply (lookupVariation_stockOf family id)).
Qed.

Lemma is_Some_stockOf_writeStock db t t' newStock :
  is_Some (stockOf (writeStock t newStock db) t') ↔ is_Some (stockOf db t').
Proof.
  destruct (decide (t' = t)) as [->|Hne].
  - rewrite stockOf_writeStock_same. apply fmap_is_Some.
  - by rewrite stockOf_writeStock_other.
Qed.

Lemma receiveAll_chained order items db :
  (∀ line, line ∈ pd_items order → is_Some (stockOf db (lineTarget line))) →
  consistent db →
  Forall balanced (stockLedger db) →
  chained (stockLedger db) →
  chained (stockLedger
             (Receiving.run_db (JS.stateOf (Receiving.receiveAll order items db)))).
Proof.
  intros Hrows Hconsistent Hbalanced Hchained. unfold Receiving.receiveAll.
  apply (forOf_invariant
           (λ st, (consistent (Receiving.run_db st) ∧
                   Forall balanced (stockLedger (Receiving.run_db st)) ∧
                   (∀ t, is_Some (stockOf (Receiving.run_db st) t)
                         ↔ is_Some (stockOf db t))) ∧
                  chained (stockLedger (Receiving.run_db st)))).
  - done.
  - intros st receipt [(Hst & Hledger & Hsame) Hchain] _.
    destruct (receiveOne_cases order st receipt)
      as [->|[->|(line & result & db' & Hline & _ & _ & _ & Hin & ->)]]; [done..|].
    apply stockIn_Some in Hin
      as (entry & -> & Htarget & _ & _ & Hchange & Hprevious & Hnew & _).
    assert (Hstock : is_Some (stockOf (Receiving.run_db st) (lineTarget line)))
      by (apply Hsame, Hrows, Hline).
    destruct Hstock as [stock Hstock].
    assert (Hlevel : stockLevel (Receiving.run_db st) (lineTarget line) = JS.orZero stock)
      by (unfold stockLevel; by rewrite Hstock).
    rewrite Hlevel in Hprevious, Hnew |- *.
    cbn [Receiving.run_db JS.stateOf]. repeat split.
    + by apply record_consistent.
    + eapply created_balanced; [exact Hledger| |exact Hprevious|exact Hnew|lia].
      by destruct (lineTarget line).
    + rewrite stockOf_insertStockLedger, is_Some_stockOf_writeStock. apply Hsame.
    + rewrite stockOf_insertStockLedger, is_Some_stockOf_writeStock. apply Hsame.
    + apply (record_chained (Receiving.run_db st) _ _ stock); try done.
      * by rewrite Htarget.
      * by destruct (lineTarget line).
Qed.

(** X24. The receive route keeps the ledger a chain, on a store in which
    the material or variation of every line of the purchase order exists. If
    the ledger is consistent with the stock, every entry satisfies
    newStock = previousStock + quantityChange, and the previousStock of
    every entry is the newStock of the most recent earlier entry of the same
    material or variation, then this last property still holds after the
    call. *)
Theorem receive_chained now id items db :
  (∀ order line, getPurchaseOrder id db = Some order → line ∈ pd_items order →
                 is_Some (stockOf db (lineTarget line))) →
  consistent db →
  Forall balanced (stockLedger db) →
  chained (stockLedger db) →
  chained (stockLedger (Receiving.receive now id items db).2).
Proof.
  intros Hrows Hconsistent Hbalanced Hchained.
  destruct (receive_store now id items db)
    as [->|(order & Hget & [[_ ->]|(st & Hloop & -> & _)])]; [done|..];
    pose proof (receiveAll_chained order items db (λ line, Hrows order line Hget)
                  Hconsistent Hbalanced Hchained) as Hafter; [done|].
  rewrite Hloop in Hafter. simpl in Hafter.
  destruct (receivePurchaseOrderItems_store now id (Receiving.run_validatedReceipts st)
              (Receiving.run_db st)) as (_ & _ & _ & -> & _).
  done.
Qed.

Lemma head_filter_key {A : Type} (key : A → Z) (rows : list A) row :
  NoDup (key <$> rows) → row ∈ rows →
  head (List.filter (λ r, bool_decide (key r = key row)) rows) = Some row.
Proof.
  induction rows as [|r rows IH]; intros Hnodup Hin; [by apply elem_of_nil in Hin|].
  rewrite fmap_cons in Hnodup. apply NoDup_cons in Hnodup as [Hfresh Hnodup].
  simpl. apply elem_of_cons in Hin as [->|Hin].
  - by rewrite bool_decide_eq_true_2.
  - rewrite bool_decide_eq_false_2; [by apply IH|].
    intros Heq. apply Hfresh. rewrite Heq. by apply list_elem_of_fmap_2.
Qed.

(** The materials that the processor prefetches carry the stock of their
    rows. *)
Lemma start_mirror db id material :
  NoDup (rm_id <$> rawMaterials db) →
  OrderStock.run_materialsMap (OrderStock.start db) !! id = Some material →
  stockOf db (Material id) = Some (lm_stockQuantity material).
Proof.
  intros Hnodup Hlookup. unfold OrderStock.start in Hlookup. simpl in Hlookup.
  apply newMap_lookup_elem in Hlookup.
  apply list_elem_of_fmap in Hlookup as (m & Heq & Hm). inversion Heq; subst.
  unfold getLocalRawMaterials in Hm.
  apply list_elem_of_fmap in Hm as (row & -> & Hrow).
  apply list_elem_of_In, List.filter_In in Hrow as [Hrow _].
  apply list_elem_of_In in Hrow. simpl.
  change (lm_id _) with (rm_id row).
  by rewrite (head_filter_key rm_id (rawMaterials db) row Hnodup Hrow).
Qed.

Lemma processMapping_chained body item st mapping :
  mp_materialVariationId mapping = None →
  OrderStock.run_failedUpdates (OrderStock.processMapping body item st mapping)
  = OrderStock.run_failedUpdates st →
  (consistent (OrderStock.run_db st) ∧
   Forall balanced (stockLedger (OrderStock.run_db st)) ∧
   mirrored st) ∧
  chained (stockLedger (OrderStock.run_db st)) →
  (consistent (OrderStock.run_db (OrderStock.processMapping body item st mapping)) ∧
   Forall balanced
     (stockLedger (OrderStock.run_db (OrderStock.processMapping body item st mapping))) ∧
   mirrored (OrderStock.processMapping body item st mapping)) ∧
  chained (stockLedger (OrderStock.run_db (OrderStock.processMapping body item st mapping))).
Proof.
  intros Hnone Hfailed [(Hconsistent & Hbalanced & Hmirror) Hchained].
  revert Hfailed. unfold OrderStock.processMapping.
  destruct (OrderStock.run_materialsMap st !! mp_materialProductId mapping)
    as [material|] eqn:Hmaterial; [|done].
  unfold OrderStock.resolveVariation. rewrite Hnone.
  unfold OrderStock.effectiveManageStock, OrderStock.variationTarget. rewrite Hnone.
  destruct (negb _); [done|].
  unfold OrderStock.deduct.
  destruct (OrderStock.updateStock _ _ _ _ _) as [[db1 updated]|] eqn:Hupdate;
    [|simpl; intros Hfailed; by apply (f_equal length) in Hfailed;
      rewrite length_app in Hfailed; simpl in Hfailed; lia].
  apply updateStock_Some in Hupdate as [-> ->].
  unfold deductionTarget, OrderStock.variationTarget. rewrite Hnone.
  destruct (createStockLedgerEntry _ _) as [[ledgerEntry|] db2] eqn:Hinsert;
    [|simpl; intros Hfailed; by apply (f_equal length) in Hfailed;
      rewrite length_app in Hfailed; simpl in Hfailed; lia].
  apply createStockLedgerEntry_Some in Hinsert as (_ & -> & _). intros _.
  pose proof (Hmirror _ _ Hmaterial) as Hstock.
  unfold OrderStock.deductionValues. rewrite Hnone.
  cbn [OrderStock.run_db OrderStock.run_materialsMap]. repeat split.
  - by apply (record_consistent _ (Material (mp_materialProductId mapping))).
  - eapply created_balanced; [exact Hbalanced|done|done|done|simpl; lia].
  - intros id material'. cbn -[stockOf writeStock].
    rewrite stockOf_ledger.
    destruct (decide (mp_materialProductId mapping = id)) as [<-|Hne].
    + rewrite lookup_insert_eq, stockOf_writeStock_same, Hstock. by intros [= <-].
    + rewrite lookup_insert_ne by done.
      rewrite stockOf_writeStock_other by congruence. apply Hmirror.
  - by apply (record_chained (OrderStock.run_db st) _ _ (lm_stockQuantity material)).
Qed.

(** After the loop over the line items, on a store in which material ids are
    unique and no mapping names a material variation: if no update has
    failed, the ledger is still a chain. *)
Lemma processLineItems_chained body db :
  NoDup (rm_id <$> rawMaterials db) →
  (∀ mapping, mapping ∈ materialProductMappings db →
              mp_materialVariationId mapping = None) →
  consistent db →
  Forall balanced (stockLedger db) →
  chained (stockLedger db) →
  let st := JS.stateOf (OrderStock.processLineItems body db) in
  OrderStock.run_failedUpdates st = [] → chained (stockLedger (OrderStock.run_db st)).
Proof.
  intros Hnodup Hmappings Hconsistent Hbalanced Hchained.
  unfold OrderStock.processLineItems.
  set (kept st := (consistent (OrderStock.run_db st) ∧
                   Forall balanced (stockLedger (OrderStock.run_db st)) ∧
                   mirrored st) ∧
                  chained (stockLedger (OrderStock.run_db st))).
  cut (let st := JS.stateOf (JS.forOf (OrderStock.processLineItem body)
                                     (OrderStock.start db) (OrderStock.lineItems body)) in
       materialProductMappings (OrderStock.run_db st) = materialProductMappings db ∧
       (OrderStock.run_failedUpdates st = [] → kept st)).
  { intros [_ Hkept] Hfailed. by destruct (Hkept Hfailed). }
  apply (forOf_invariant
           (λ st, materialProductMappings (OrderStock.run_db st)
                  = materialProductMappings db ∧
                  (OrderStock.run_failedUpdates st = [] → kept st))).
  - split; [done|]. intros _. repeat split; try done.
    intros id material. by apply start_mirror.
  - intros st item [Hsame Hst] _. split.
    { destruct (processLineItem_sameOrders body st item) as (_ & Hmap & _). congruence. }
    unfold OrderStock.processLineItem. destruct (negb _); [done|].
    case_bool_decide; [done|]. simpl.
    assert (Hnone : ∀ mapping,
               mapping ∈ getMaterialMappingsForProduct (li_product_id item)
                           (li_variation_id item) (OrderStock.run_db st) →
               mp_materialVariationId mapping = None).
    { intros mapping Hin. apply Hmappings. rewrite <- Hsame.
      unfold getMaterialMappingsForProduct in Hin.
      destruct (JS.truthy _);
        apply list_elem_of_In, List.filter_In in Hin as [Hin _];
        by apply list_elem_of_In. }
    revert Hnone. generalize (getMaterialMappingsForProduct (li_product_id item)
                                (li_variation_id item) (OrderStock.run_db st)).
    intros mappings Hnone.
    apply (foldl_invariant (λ st', OrderStock.run_failedUpdates st' = [] → kept st'));
      [done|].
    intros st' mapping Hst' Hin Hfailed.
    destruct (processMapping_failedUpdates body item st' mapping) as [failures Hgrown].
    rewrite Hgrown in Hfailed. apply app_eq_nil in Hfailed as [Hbefore ->].
    rewrite app_nil_r in Hgrown.
    apply processMapping_chained; [by apply Hnone | done | by apply Hst'].
Qed.

(** X25. The order stock processor keeps the ledger a chain when it answers
    with its report and reports no failed update, on a store in which
    material ids are unique and no mapping names a material variation. If
    the ledger is consistent with the stock, every entry satisfies
    newStock = previousStock + quantityChange, and the previousStock of
    every entry is the newStock of the most recent earlier entry of the same
    material or variation, then this last property still holds after the
    call: the stock that a deduction starts from, taken from the materials
    fetched at the start of the invocation and updated in memory, is the
    stock of the store. (After a failed update the stock in memory may have
    moved without a ledger entry, and the next entry of that material then
    breaks the chain.) *)
Theorem processOrderStock_chained now body db report db' :
  NoDup (rm_id <$> rawMaterials db) →
  (∀ mapping, mapping ∈ materialProductMappings db →
              mp_materialVariationId mapping = None) →
  consistent db →
  Forall balanced (stockLedger db) →
  chained (stockLedger db) →
  OrderStock.processOrderStock now body db = (OrderStock.Success report, db') →
  OrderStock.failedUpdates report = [] →
  chained (stockLedger db').
Proof.
  intros Hnodup Hmappings Hconsistent Hbalanced Hchained Hrun Hfailed.
  apply processOrderStock_Success in Hrun as (st & _ & _ & Hloop & _ & -> & ->).
  pose proof (processLineItems_chained body db Hnodup Hmappings Hconsistent Hbalanced
                Hchained) as Hafter.
  rewrite Hloop in Hafter. simpl in Hafter, Hfailed. by apply Hafter.
Qed.

End LedgerChain.

Section LedgerChainWitnesses.

Import Ledger Reports Scenario Cases.

Lemma manual_adjustments_chained_witness :
  consistent cordDB ∧
  Forall balanced (stockLedger cordDB) ∧
  chained (stockLedger cordDB) ∧
  chained (stockLedger (StockAdjust.setStock StockAdjust.LocalMaterials 1 12 None
                          cordDB).2) ∧
  chained (stockLedger (StockAdjust.addVariationStock StockAdjust.RawMaterials 1 7 3 None
                          cordDB).2).
Proof.
  assert (Hbalanced : Forall balanced (stockLedger cordDB))
    by (simpl; repeat constructor; apply stockTake_balanced).
  assert (Hchained : chained (stockLedger cordDB)) by reflexivity.
  destruct (manual_adjustments_chained StockAdjust.LocalMaterials 1 7 12 None cordDB
              cordDB_consistent Hbalanced Hchained) as (_ & Hset & _ & _).
  destruct (manual_adjustments_chained StockAdjust.RawMaterials 1 7 3 None cordDB
              cordDB_consistent Hbalanced Hchained) as (_ & _ & Hadd & _).
  split; [exact cordDB_consistent|]. split; [exact Hbalanced|].
  split; [exact Hchained|]. split; [exact Hset | exact Hadd].
Defined.

Lemma receive_chained_witness :
  consistent countedPurchaseDB ∧
  chained (stockLedger countedPurchaseDB) ∧
  chained (stockLedger (Receiving.receive 7 1 [receipt 1 12] countedPurchaseDB).2) ∧
  length (stockLedger (Receiving.receive 7 1 [receipt 1 12] countedPurchaseDB).2) = 2%nat.
Proof.
  assert (Hbalanced : Forall balanced (stockLedger countedPurchaseDB))
    by (simpl; repeat constructor; apply stockTake_balanced).
  assert (Hchained : chained (stockLedger countedPurchaseDB)) by reflexivity.
  split; [exact countedPurchaseDB_consistent|]. split; [exact Hchained|]. split.
  - apply (receive_chained 7 1 [receipt 1 12] countedPurchaseDB);
      [|exact countedPurchaseDB_consistent|exact Hbalanced|exact Hchained].
    intros order line Hget Hline. vm_compute in Hget. injection Hget as <-.
    simpl in Hline. apply list_elem_of_singleton in Hline. rewrite Hline.
    exists (Some 20). reflexivity.
  - vm_compute. reflexivity.
Defined.

(** The trace in which a failed update breaks the chain: material 1 has
    stock 20 and its stock-take entry, and product 100 uses two units of it.
    For the first line of order #502 the stock update is taken
    (-2147483640) and the ledger entry, of -2147483660, is refused; the entry
    of the second line starts from the stock in memory. *)
Lemma failed_update_breaks_the_chain :
  chained (stockLedger countedDB) ∧
  (∃ report,
      (OrderStock.processOrderStock 1 order502 countedDB).1 = OrderStock.Success report ∧
      length (OrderStock.results report) = 1%nat ∧
      length (OrderStock.failedUpdates report) = 1%nat) ∧
  (λ e, (sl_previousStock (sl_values e), sl_newStock (sl_values e)))
    <$> stockLedger (OrderStock.processOrderStock 1 order502 countedDB).2
  = [(Some 0, Some 20); (Some (-2147483640), Some (-2147483642))] ∧
  ¬ chained (stockLedger (OrderStock.processOrderStock 1 order502 countedDB).2).
Proof.
  split; [reflexivity|]. split; [|split].
  - eexists. vm_compute. split; [reflexivity|]. split; reflexivity.
  - vm_compute. reflexivity.
  - intros Hchained. vm_compute in Hchained. discriminate Hchained.
Qed.

Lemma processOrderStock_chained_witness :
  ∃ report db',
    OrderStock.processOrderStock 1 order500 countedDB = (OrderStock.Success report, db') ∧
    consistent countedDB ∧
    chained (stockLedger countedDB) ∧
    chained (stockLedger db') ∧
    length (stockLedger db') = 2%nat.
Proof.
  assert (Hbalanced : Forall balanced (stockLedger countedDB))
    by (simpl; repeat constructor; apply stockTake_balanced).
  assert (Hchained : chained (stockLedger countedDB)) by reflexivity.
  destruct (OrderStock.processOrderStock 1 order500 countedDB) as [answer db'] eqn:Hrun.
  assert (Hanswer : ∃ report, answer = OrderStock.Success report ∧
                              OrderStock.failedUpdates report = []).
  { assert (Heq : answer = (OrderStock.processOrderStock 1 order500 countedDB).1)
      by (by rewrite Hrun).
    rewrite Heq. vm_compute. eauto. }
  destruct Hanswer as (report & -> & Hfailed).
  exists report, db'. split; [reflexivity|].
  split; [exact countedDB_consistent|]. split; [exact Hchained|]. split.
  - apply (processOrderStock_chained 1 order500 countedDB report db');
      [| |exact countedDB_consistent|exact Hbalanced|exact Hchained|exact Hrun
       |exact Hfailed].
    + simpl. apply NoDup_singleton.
    + intros mapping Hin. simpl in Hin. apply list_elem_of_singleton in Hin.
      rewrite Hin. reflexivity.
  - assert (Heq : db' = (OrderStock.processOrderStock 1 order500 countedDB).2)
      by (by rewrite Hrun).
    rewrite Heq. vm_compute. reflexivity.
Defined.

End LedgerChainWitnesses.

(** ** The calculator and the order of the feed *)

Section FeedOrder.

Import Fulfillment.

Context {A : Type} (key : A → Z).

Local Abbreviation before := (λ a b : A, key a ≤ key b).

Lemma filter_Permutation_list (p : A → bool) (l1 l2 : list A) :
  l1 ≡ₚ l2 → List.filter p l1 ≡ₚ List.filter p l2.
Proof.
  induction 1 as [|x l1 l2 Hperm IH|x y l|l1 l2 l3 H12 IH12 H23 IH23]; simpl.
  - done.
  - destruct (p x); [by constructor | done].
  - destruct (p x), (p y); try done. apply Permutation_swap.
  - by etransitivity.
Qed.

Lemma insertBy_sorted (x : A) (l : list A) :
  StronglySorted before l → StronglySorted before (JS.insertBy key x l).
Proof.
  induction 1 as [|y l Hsorted IH Hfirst]; simpl.
  - repeat constructor.
  - destruct (key x <=? key y) eqn:Hle.
    + apply Z.leb_le in Hle. constructor; [by constructor|].
      constructor; [done|]. eapply Forall_impl; [exact Hfirst|].
      simpl. intros z Hz. lia.
    + apply Z.leb_gt in Hle. constructor; [done|].
      rewrite insertBy_Permutation. constructor; [lia | done].
Qed.

Lemma sortBy_sorted (l : list A) : StronglySorted before (JS.sortBy key l).
Proof.
  unfold JS.sortBy. induction l as [|x l IH]; simpl; [constructor|].
  by apply insertBy_sorted.
Qed.

Lemma sorted_unique (l1 l2 : list A) :
  StronglySorted before l1 → StronglySorted before l2 →
  l1 ≡ₚ l2 → NoDup (key <$> l1) → l1 = l2.
Proof.
  intros Hsorted1. revert l2.
  induction Hsorted1 as [|x l1 Hsorted1 IH Hfirst1]; intros l2 Hsorted2 Hperm Hnodup.
  - by apply Permutation_nil_l in Hperm.
  - destruct Hsorted2 as [|y l2 Hsorted2 Hfirst2];
      [by apply Permutation_nil_r in Hperm|].
    rewrite fmap_cons in Hnodup. apply NoDup_cons in Hnodup as [Hfresh Hnodup].
    assert (Hxy : x = y).
    { assert (Hx : x ∈ y :: l2) by (rewrite <- Hperm; apply list_elem_of_here).
      assert (Hy : y ∈ x :: l1) by (rewrite Hperm; apply list_elem_of_here).
      apply elem_of_cons in Hx as [Hx|Hx]; [done|].
      apply elem_of_cons in Hy as [Hy|Hy]; [done|].
      rewrite Forall_forall in Hfirst1, Hfirst2.
      specialize (Hfirst1 y Hy). specialize (Hfirst2 x Hx). simpl in *.
      destruct Hfresh. replace (key x) with (key y) by lia.
      by apply list_elem_of_fmap_2. }
    subst y. f_equal. apply IH; [done| |done].
    by apply Permutation_cons_inv in Hperm.
Qed.

Lemma sortBy_Permutation_eq (l1 l2 : list A) :
  l1 ≡ₚ l2 → NoDup (key <$> l1) → JS.sortBy key l1 = JS.sortBy key l2.
Proof.
  intros Hperm Hnodup.
  apply sorted_unique; [apply sortBy_sorted | apply sortBy_sorted | |].
  - by rewrite !sortBy_Permutation.
  - by rewrite sortBy_Permutation.
Qed.

End FeedOrder.

Section FeedOrderTheorem.

Import Fulfillment.

(** X26. The answer of the fulfillment calculator does not depend on the
    order in which the feed lists the orders, as long as no two orders in an
    awaiting-fulfillment status were created at the same time: stock is
    allocated by creation time alone. *)
Theorem fulfillmentStatus_ignores_feed_order localMaterials allMappings
    processedOrdersList (orders orders' : list Order) :
  orders ≡ₚ orders' →
  NoDup (ord_date_created <$> relevantOrders orders) →
  fulfillmentStatus localMaterials allMappings processedOrdersList orders'
  = fulfillmentStatus localMaterials allMappings processedOrdersList orders.
Proof.
  intros Hperm Hnodup. unfold fulfillmentStatus, runFulfillment, sortedOrders.
  rewrite (sortBy_Permutation_eq ord_date_created (relevantOrders orders)
             (relevantOrders orders')); [done| |done].
  by apply filter_Permutation_list.
Qed.

Import Scenario Cases.

Lemma fulfillmentStatus_ignores_feed_order_witness :
  [orderA; orderB; orderC; orderU] ≡ₚ [orderU; orderC; orderB; orderA] ∧
  NoDup (ord_date_created <$> relevantOrders [orderA; orderB; orderC; orderU]) ∧
  fulfillmentStatus [materialM] [sixOfM] [] [orderU; orderC; orderB; orderA]
  = fulfillmentStatus [materialM] [sixOfM] [] [orderA; orderB; orderC; orderU].
Proof.
  assert (Hperm : [orderA; orderB; orderC; orderU] ≡ₚ [orderU; orderC; orderB; orderA]).
  { change [orderU; orderC; orderB; orderA]
      with (reverse [orderA; orderB; orderC; orderU]).
    symmetry. apply reverse_Permutation. }
  assert (Hnodup : NoDup (ord_date_created
                            <$> relevantOrders [orderA; orderB; orderC; orderU])).
  { apply (bool_decide_unpack _). vm_compute. exact I. }
  split; [exact Hperm|]. split; [exact Hnodup|].
  exact (fulfillmentStatus_ignores_feed_order [materialM] [sixOfM] [] _ _ Hperm Hnodup).
Defined.

End FeedOrderTheorem.

(** ** Conservation of stock *)

Section StockConservation.

Import Ledger Reports OrderStock.

Lemma deductedFrom_snoc id results r :
  deductedFrom id (results ++ [r])
  = deductedFrom id results
    + (if bool_decide (dr_materialId r = id) then dr_quantityDeducted r else 0).
Proof.
  unfold deductedFrom. rewrite List.filter_app. simpl.
  destruct (bool_decide (dr_materialId r = id)).
  - rewrite fmap_app. simpl.
    generalize (dr_quantityDeducted
                  <$> List.filter (λ r0, bool_decide (dr_materialId r0 = id)) results).
    intros l. induction l as [|x l IH]; simpl; lia.
  - rewrite app_nil_r. lia.
Qed.

Lemma processMapping_conserves body db item st mapping :
  mp_materialVariationId mapping = None →
  run_failedUpdates (processMapping body item st mapping) = run_failedUpdates st →
  mirrored st ∧
  (∀ id, stockLevel (run_db st) (Material id)
         = stockLevel db (Material id) - deductedFrom id (run_results st)) →
  mirrored (processMapping body item st mapping) ∧
  (∀ id, stockLevel (run_db (processMapping body item st mapping)) (Material id)
         = stockLevel db (Material id)
           - deductedFrom id (run_results (processMapping body item st mapping))).
Proof.
  intros Hnone Hfailed [Hmirror Hlevel]. revert Hfailed. unfold processMapping.
  destruct (run_materialsMap st !! mp_materialProductId mapping)
    as [material|] eqn:Hmaterial; [|done].
  unfold resolveVariation. rewrite Hnone.
  unfold effectiveManageStock, variationTarget. rewrite Hnone.
  destruct (negb _); [done|].
  unfold deduct.
  destruct (updateStock _ _ _ _ _) as [[db1 updated]|] eqn:Hupdate;
    [|simpl; intros Hfailed; by apply (f_equal length) in Hfailed;
      rewrite length_app in Hfailed; simpl in Hfailed; lia].
  apply updateStock_Some in Hupdate as [-> ->].
  unfold deductionTarget, variationTarget. rewrite Hnone.
  destruct (createStockLedgerEntry _ _) as [[ledgerEntry|] db2] eqn:Hinsert;
    [|simpl; intros Hfailed; by apply (f_equal length) in Hfailed;
      rewrite length_app in Hfailed; simpl in Hfailed; lia].
  apply createStockLedgerEntry_Some in Hinsert as (_ & -> & _). intros _.
  pose proof (Hmirror _ _ Hmaterial) as Hstock.
  split.
  - intros id material'. cbn -[stockOf writeStock].
    rewrite stockOf_ledger.
    destruct (decide (mp_materialProductId mapping = id)) as [<-|Hne].
    + rewrite lookup_insert_eq, stockOf_writeStock_same, Hstock. by intros [= <-].
    + rewrite lookup_insert_ne by done.
      rewrite stockOf_writeStock_other by congruence. apply Hmirror.
  - intros id. cbn -[stockOf writeStock stockLevel deductedFrom].
    rewrite deductedFrom_snoc. unfold stockLevel.
    rewrite stockOf_ledger. cbn [dr_materialId dr_quantityDeducted].
    specialize (Hlevel id). unfold stockLevel in Hlevel.
    case_bool_decide as Hid.
    + subst id. rewrite stockOf_writeStock_same, Hstock. simpl.
      rewrite Hstock in Hlevel. simpl in Hlevel. lia.
    + rewrite stockOf_writeStock_other by congruence. lia.
Qed.

(** After the loop over the line items, on a store in which material ids are
    unique and no mapping names a material variation: if no update has
    failed, the stock of every material is the stock before minus the
    deductions in [results]. *)
Lemma processLineItems_conserves body db :
  NoDup (rm_id <$> rawMaterials db) →
  (∀ mapping, mapping ∈ materialProductMappings db →
              mp_materialVariationId mapping = None) →
  let st := JS.stateOf (processLineItems body db) in
  run_failedUpdates st = [] →
  ∀ id, stockLevel (run_db st) (Material id)
        = stockLevel db (Material id) - deductedFrom id (run_results st).
Proof.
  intros Hnodup Hmappings. unfold processLineItems.
  set (kept st := mirrored st ∧
                  ∀ id, stockLevel (run_db st) (Material id)
                        = stockLevel db (Material id) - deductedFrom id (run_results st)).
  cut (let st := JS.stateOf (JS.forOf (processLineItem body) (start db)
                                     (lineItems body)) in
       materialProductMappings (run_db st) = materialProductMappings db ∧
       (run_failedUpdates st = [] → kept st)).
  { intros [_ Hkept] Hfailed. by destruct (Hkept Hfailed). }
  apply (forOf_invariant
           (λ st, materialProductMappings (run_db st) = materialProductMappings db ∧
                  (run_failedUpdates st = [] → kept st))).
  - split; [done|]. intros _. split.
    + intros id material. by apply start_mirror.
    + intros id. unfold deductedFrom. simpl. lia.
  - intros st item [Hsame Hst] _. split.
    { destruct (processLineItem_sameOrders body st item) as (_ & Hmap & _). congruence. }
    unfold processLineItem. destruct (negb _); [done|].
    case_bool_decide; [done|]. simpl.
    assert (Hnone : ∀ mapping,
               mapping ∈ getMaterialMappingsForProduct (li_product_id item)
                           (li_variation_id item) (run_db st) →
               mp_materialVariationId mapping = None).
    { intros mapping Hin. apply Hmappings. rewrite <- Hsame.
      unfold getMaterialMappingsForProduct in Hin.
      destruct (JS.truthy _);
        apply list_elem_of_In, List.filter_In in Hin as [Hin _];
        by apply list_elem_of_In. }
    revert Hnone. generalize (getMaterialMappingsForProduct (li_product_id item)
                                (li_variation_id item) (run_db st)).
    intros mappings Hnone.
    apply (foldl_invariant (λ st', run_failedUpdates st' = [] → kept st')); [done|].
    intros st' mapping Hst' Hin Hfailed.
    destruct (processMapping_failedUpdates body item st' mapping) as [failures Hgrown].
    rewrite Hgrown in Hfailed. apply app_eq_nil in Hfailed as [Hbefore ->].
    rewrite app_nil_r in Hgrown.
    apply processMapping_conserves; [by apply Hnone | done | by apply Hst'].
Qed.

(** X28. On a store in which material ids are unique and no mapping names a
    material variation, a process-order-stock call that answers with its
    report and reports no failed update conserves stock: for every material,
    the stock afterwards is the stock before minus the total of the
    deductions that the call reports for it. (A failed update may have
    written the new stock although the deduction is not among the
    results.) *)
Theorem processOrderStock_conserves_stock now body db report db' :
  NoDup (rm_id <$> rawMaterials db) →
  (∀ mapping, mapping ∈ materialProductMappings db →
              mp_materialVariationId mapping = None) →
  processOrderStock now body db = (Success report, db') →
  failedUpdates report = [] →
  ∀ id, stockLevel db' (Material id)
        = stockLevel db (Material id) - deductedFrom id (results report).
Proof.
  intros Hnodup Hmappings Hrun Hfailed.
  apply processOrderStock_Success in Hrun as (st & _ & _ & Hloop & _ & -> & ->).
  pose proof (processLineItems_conserves body db Hnodup Hmappings) as Hafter.
  rewrite Hloop in Hafter. simpl in Hafter, Hfailed. by apply Hafter.
Qed.

Import Scenario Cases.

(** The trace in which a failed update moves stock that no result reports:
    for the first line of order #502 the stock of material 1 is written
    (20 - 2147483660) and the ledger entry is refused, so the deduction is
    among the failed updates; the second line deducts 2. *)
Lemma failed_update_moves_unreported_stock :
  ∃ report,
    (processOrderStock 1 order502 countedDB).1 = Success report ∧
    length (failedUpdates report) = 1%nat ∧
    deductedFrom 1 (results report) = 2 ∧
    stockLevel countedDB (Material 1) = 20 ∧
    stockLevel (processOrderStock 1 order502 countedDB).2 (Material 1) = -2147483642.
Proof.
  eexists. split; [vm_compute; reflexivity|]. repeat split; vm_compute; reflexivity.
Qed.

Lemma processOrderStock_conserves_stock_witness :
  ∃ report db',
    processOrderStock 1 order500 countedDB = (Success report, db') ∧
    failedUpdates report = [] ∧
    deductedFrom 1 (results report) = 6 ∧
    stockLevel db' (Material 1) = 20 - 6.
Proof.
  destruct (processOrderStock 1 order500 countedDB) as [response db'] eqn:Hrun.
  destruct response as [report|status error processedAt|];
    [|vm_compute in Hrun; discriminate Hrun..].
  assert (Hreport : report
                    = match (processOrderStock 1 order500 countedDB).1 with
                      | Success report => report
                      | _ => {| results := []; unmappedItems := []; skippedItems := [];
                                failedUpdates := [] |}
                      end) by (rewrite Hrun; reflexivity).
  assert (Hfailed : failedUpdates report = [])
    by (rewrite Hreport; vm_compute; reflexivity).
  assert (Hdeducted : deductedFrom 1 (results report) = 6)
    by (rewrite Hreport; vm_compute; reflexivity).
  exists report, db'. split; [reflexivity|]. split; [exact Hfailed|].
  split; [exact Hdeducted|].
  rewrite (processOrderStock_conserves_stock 1 order500 countedDB report db');
    [rewrite Hdeducted; reflexivity| | |exact Hrun|exact Hfailed].
  - simpl. apply NoDup_singleton.
  - intros mapping Hin. simpl in Hin. apply list_elem_of_singleton in Hin.
    rewrite Hin. reflexivity.
Defined.

End StockConservation.

(** ** Receipts booked on the lines *)

Section ReceiptsOnLines.

Import Receiving Reports.

Lemma receiveMore_0 line : receiveMore 0 line = line.
Proof. unfold receiveMore, setQuantityReceived. rewrite Z.add_0_r. by destruct line. Qed.

Lemma receiveMore_twice a b line :
  receiveMore a (receiveMore b line) = receiveMore (b + a) line.
Proof. unfold receiveMore, setQuantityReceived. simpl. f_equal. lia. Qed.

Lemma sum_snoc (l : list Z) x : foldr Z.add 0 (l ++ [x]) = foldr Z.add 0 l + x.
Proof. induction l as [|y l IH]; simpl; lia. Qed.

Lemma receivedFor_snoc id results r :
  receivedFor id (results ++ [r])
  = receivedFor id results
    + (if bool_decide (rr_itemId r = id) then rr_quantityReceived r else 0).
Proof.
  unfold receivedFor. rewrite List.filter_app. simpl.
  destruct (bool_decide (rr_itemId r = id)).
  - rewrite fmap_app. apply sum_snoc.
  - rewrite app_nil_r. lia.
Qed.

Lemma receiptsFor_snoc id receipts r :
  receiptsFor id (receipts ++ [r])
  = receiptsFor id receipts
    + (if bool_decide (rc_itemId r = id) then rc_quantityReceived r else 0).
Proof.
  unfold receiptsFor. rewrite List.filter_app. simpl.
  destruct (bool_decide (rc_itemId r = id)).
  - rewrite fmap_app. apply sum_snoc.
  - rewrite app_nil_r. lia.
Qed.

Lemma applyReceipt_lines db receipt db' :
  NoDup (poi_id <$> purchaseOrderItems db) →
  0 < rc_quantityReceived receipt →
  applyReceipt db receipt = JS.Normal db' →
  purchaseOrderItems db'
  = map (λ line, receiveMore (if bool_decide (poi_id line = rc_itemId receipt)
                              then rc_quantityReceived receipt else 0) line)
        (purchaseOrderItems db).
Proof.
  intros Hkeys Hpositive. unfold applyReceipt.
  destruct (head (List.filter _ (purchaseOrderItems db))) as [item|] eqn:Hitem.
  - apply Z.ltb_lt in Hpositive. rewrite Hpositive.
    destruct (int4 _ && int4 _); [|done]. intros [= <-]. simpl. unfold updateWhere.
    apply map_ext_in. intros line Hline. apply list_elem_of_In in Hline.
    case_bool_decide as Hmatch; [|by rewrite receiveMore_0].
    apply head_filter_Some in Hitem as [Hin Hid]. apply bool_decide_eq_true in Hid.
    pose proof (head_filter_unique _ line (rc_itemId receipt) Hkeys Hline Hmatch) as H1.
    pose proof (head_filter_unique _ item (rc_itemId receipt) Hkeys Hin Hid) as H2.
    assert (line = item) as -> by congruence. done.
  - intros [= <-]. rewrite <- (map_id (purchaseOrderItems db)) at 1.
    apply map_ext_in. intros line Hline. apply list_elem_of_In in Hline.
    rewrite head_filter_None in Hitem. rewrite (Hitem line Hline).
    by rewrite receiveMore_0.
Qed.

Lemma receiveMore_ids (f : PurchaseOrderItem → Z) (rows : list PurchaseOrderItem) :
  poi_id <$> map (λ line, receiveMore (f line) line) rows = poi_id <$> rows.
Proof.
  induction rows as [|row rows IH]; [done|].
  change (poi_id <$> map (λ line, receiveMore (f line) line) (row :: rows))
    with (poi_id (receiveMore (f row) row)
          :: (poi_id <$> map (λ line, receiveMore (f line) line) rows)).
  by rewrite IH.
Qed.

Lemma applyReceipts_lines (receipts : list ItemReceipt) (db db' : DB) :
  NoDup (poi_id <$> purchaseOrderItems db) →
  Forall (λ receipt, 0 < rc_quantityReceived receipt) receipts →
  JS.forOf applyReceipt db receipts = JS.Normal db' →
  purchaseOrderItems db'
  = map (λ line, receiveMore (receiptsFor (poi_id line) receipts) line)
        (purchaseOrderItems db).
Proof.
  revert db. induction receipts as [|receipt receipts IH]; intros db Hkeys Hpositive.
  - simpl. intros [= <-]. rewrite <- (map_id (purchaseOrderItems db)) at 1.
    apply map_ext. intros line. unfold receiptsFor. simpl. by rewrite receiveMore_0.
  - apply Forall_cons in Hpositive as [Hfirst Hrest]. simpl.
    destruct (applyReceipt db receipt) as [db1|db1] eqn:Hstep; [|done].
    pose proof (applyReceipt_lines db receipt db1 Hkeys Hfirst Hstep) as Hlines.
    intros Hloop.
    rewrite (IH db1); [|by rewrite Hlines, receiveMore_ids|done|done].
    rewrite Hlines, map_map.
    apply map_ext. intros line. rewrite receiveMore_twice. f_equal.
    unfold receiptsFor. simpl. unfold receiveMore. simpl.
    by destruct (bool_decide (rc_itemId receipt = poi_id line)) eqn:Heq;
      [rewrite bool_decide_eq_true_2 by (by apply bool_decide_eq_true in Heq)
      |rewrite bool_decide_eq_false_2
          by (apply bool_decide_eq_false in Heq; congruence)].
Qed.

(** The pairs passed on to the storage function carry what the results
    report, line by line, and each carries a positive quantity. *)
Lemma receiveAll_passes_results order items db :
  let st := JS.stateOf (receiveAll order items db) in
  (∀ id, receiptsFor id (run_validatedReceipts st) = receivedFor id (run_results st)) ∧
  Forall (λ receipt, 0 < rc_quantityReceived receipt) (run_validatedReceipts st).
Proof.
  unfold receiveAll.
  apply (forOf_invariant
           (λ st, (∀ id, receiptsFor id (run_validatedReceipts st)
                         = receivedFor id (run_results st)) ∧
                  Forall (λ receipt, 0 < rc_quantityReceived receipt)
                         (run_validatedReceipts st))).
  - split; [done | constructor].
  - intros st receipt [Hsame Hpositive] _.
    destruct (receiveOne_cases order st receipt)
      as [->|[->|(line & result & db' & _ & Hid & _ & Hmin & Hin & ->)]]; [done..|].
    destruct (stockIn_recorded order line _ (run_db st) result db' Hin)
      as (e & _ & _ & Hitem & Hquantity).
    simpl in *. split.
    + intros id. rewrite receiptsFor_snoc, receivedFor_snoc, Hsame. simpl.
      by rewrite Hitem, Hquantity, Hid.
    + apply Forall_app. split; [done|]. by apply Forall_singleton.
Qed.

(** An accepted call: the lines of the table afterwards, and the order that
    is answered. *)
Lemma receive_lines now id items db updated results db' :
  NoDup (poi_id <$> purchaseOrderItems db) →
  receive now id items db = (Received updated results, db') →
  purchaseOrderItems db'
  = map (λ line, receiveMore (receivedFor (poi_id line) results) line)
        (purchaseOrderItems db) ∧
  getPurchaseOrder id db' = Some updated.
Proof.
  intros Hkeys Hrun.
  apply receive_Received in Hrun
    as (order & st & _ & Hget & _ & Hopen & Hloop & -> & Hstore).
  destruct (receiveAll_tables order items db) as [Hrows Hitems].
  destruct (receiveAll_passes_results order items db) as [Hsame Hpositive].
  rewrite Hloop in Hrows, Hitems, Hsame, Hpositive.
  simpl in Hrows, Hitems, Hsame, Hpositive.
  assert (Hfetched : getPurchaseOrder id (run_db st) = Some order)
    by (unfold getPurchaseOrder in *; by rewrite Hrows, Hitems).
  destruct (receivePurchaseOrderItems_status now id (run_validatedReceipts st)
              (run_db st) order updated db' Hfetched Hopen Hstore)
    as (db1 & po & Hbooked & _ & _ & Hstored & _).
  split; [|done].
  destruct (receivePurchaseOrderItems_store now id (run_validatedReceipts st)
              (run_db st)) as (Hafter & _).
  rewrite Hstore, Hbooked in Hafter. simpl in Hafter. rewrite Hafter.
  rewrite (applyReceipts_lines _ (run_db st) db1) by (by rewrite ?Hitems).
  rewrite Hitems. apply map_ext. intros line. by rewrite Hsame.
Qed.

(** X29. On a store where item ids are unique, an accepted receive call
    books on the purchase order lines exactly what it reports: for every
    line of the table before the call, the table holds afterwards that line
    with its quantityReceived raised by the total of the reported receipts
    for it and nothing else changed, and it holds no other line. The order
    that the call answers with is the order as stored, and its lines are the
    lines of this purchase order as they are afterwards. The lines are
    compared as collections: nothing is said of the order in which the store
    lists them. *)
Theorem receive_books_receipts_on_lines now id items db updated results db' :
  NoDup (poi_id <$> purchaseOrderItems db) →
  receive now id items db = (Received updated results, db') →
  let booked line := receiveMore (receivedFor (poi_id line) results) line in
  purchaseOrderItems db' ≡ₚ map booked (purchaseOrderItems db) ∧
  (∀ line, line ∈ purchaseOrderItems db → booked line ∈ purchaseOrderItems db') ∧
  (∀ line', line' ∈ purchaseOrderItems db' →
            ∃ line, line ∈ purchaseOrderItems db ∧ line' = booked line) ∧
  (∃ stored, getPurchaseOrder id db' = Some stored ∧
             pd_row stored = pd_row updated ∧
             pd_items stored ≡ₚ pd_items updated) ∧
  pd_items updated
  ≡ₚ List.filter (λ line, bool_decide (poi_purchaseOrderId line = id))
       (map booked (purchaseOrderItems db)).
Proof.
  intros Hkeys Hrun booked.
  destruct (receive_lines now id items db updated results db' Hkeys Hrun)
    as [Hlines Hstored].
  fold booked in Hlines. split; [by rewrite Hlines|]. split; [|split; [|split]].
  - intros line Hline. rewrite Hlines. apply list_elem_of_In, in_map.
    by apply list_elem_of_In.
  - intros line' Hline'. rewrite Hlines in Hline'.
    apply list_elem_of_In, in_map_iff in Hline' as (line & <- & Hline).
    exists line. split; [by apply list_elem_of_In | done].
  - by exists updated.
  - unfold getPurchaseOrder in Hstored. destruct (head _) as [row|]; [|done].
    injection Hstored as <-. simpl. by rewrite Hlines.
Qed.

Lemma receivedFor_absent id (results : list ReceiptResult) :
  (∀ r, r ∈ results → rr_itemId r ≠ id) → receivedFor id results = 0.
Proof.
  intros Habsent. unfold receivedFor.
  assert (Hnone : List.filter (λ r, bool_decide (rr_itemId r = id)) results = []).
  { induction results as [|r results IH]; simpl; [done|].
    rewrite bool_decide_eq_false_2 by (apply Habsent, list_elem_of_here).
    apply IH. intros r' Hr'. by apply Habsent, list_elem_of_further. }
  by rewrite Hnone.
Qed.

Lemma filter_map_fixed {A : Type} (p : A → bool) (g : A → A) (rows : list A) :
  (∀ row, row ∈ rows → p (g row) = p row) →
  (∀ row, row ∈ rows → p row = true → g row = row) →
  List.filter p (map g rows) = List.filter p rows.
Proof.
  induction rows as [|row rows IH]; intros Hp Hfixed; simpl; [done|].
  rewrite (Hp row) by apply list_elem_of_here.
  rewrite IH.
  - destruct (p row) eqn:Hrow; [|done].
    by rewrite (Hfixed row) by (done || apply list_elem_of_here).
  - intros r Hr. by apply Hp, list_elem_of_further.
  - intros r Hr. by apply Hfixed, list_elem_of_further.
Qed.

Lemma receivePurchaseOrderItems_purchaseOrders now id receipts db other :
  other ≠ id →
  List.filter (λ po, bool_decide (po_id po = other))
              (purchaseOrders (receivePurchaseOrderItems now id receipts db).2)
  = List.filter (λ po, bool_decide (po_id po = other)) (purchaseOrders db).
Proof.
  intros Hother. unfold receivePurchaseOrderItems.
  destruct (applyReceipts_tables receipts db) as (Hfold & _).
  destruct (JS.forOf applyReceipt db receipts) as [db1|db1]; simpl in Hfold;
    [|simpl; by rewrite Hfold].
  destruct (getPurchaseOrder id db1) as [po|]; simpl; [|by rewrite Hfold].
  case_bool_decide; simpl; [|by rewrite Hfold].
  rewrite Hfold. apply filter_updateWhere_other.
  intros row Hrow. apply bool_decide_eq_true in Hrow. simpl.
  rewrite !bool_decide_eq_false_2 by congruence. done.
Qed.

Lemma receive_purchaseOrders now id items db other :
  other ≠ id →
  List.filter (λ po, bool_decide (po_id po = other))
              (purchaseOrders (receive now id items db).2)
  = List.filter (λ po, bool_decide (po_id po = other)) (purchaseOrders db).
Proof.
  intros Hother.
  destruct (receive_store now id items db)
    as [->|(order & Hget & [[_ ->]|(st & Hloop & -> & _)])]; [done|..];
    destruct (receiveAll_tables order items db) as [Hrows _]; [by rewrite Hrows|].
  rewrite Hloop in Hrows. simpl in Hrows.
  by rewrite receivePurchaseOrderItems_purchaseOrders, Hrows.
Qed.

(** X30. On a store where item ids are unique, an accepted receive call on
    one purchase order leaves every other purchase order as it is: its row,
    its status and its lines are fetched as before. *)
Theorem receive_leaves_other_orders now id items db updated results db' other :
  NoDup (poi_id <$> purchaseOrderItems db) →
  receive now id items db = (Received updated results, db') →
  other ≠ id →
  getPurchaseOrder other db' = getPurchaseOrder other db.
Proof.
  intros Hkeys Hrun Hother.
  pose proof (receive_purchaseOrders now id items db other Hother) as Hrows.
  rewrite Hrun in Hrows. simpl in Hrows.
  destruct (receive_lines now id items db updated results db' Hkeys Hrun)
    as [Hlines _].
  assert (Hreported : ∃ order,
             getPurchaseOrder id db = Some order ∧
             Forall (receiptClamped order items) results).
  { clear Hrows Hlines.
    apply receive_Received in Hrun as (order & st & _ & Hget & _ & _ & Hloop & -> & _).
    destruct (receiveAll_recorded order items db) as [_ Hclamped].
    rewrite Hloop in Hclamped. by exists order. }
  destruct Hreported as (order & Hget & Hclamped).
  unfold getPurchaseOrder. rewrite Hrows, Hlines.
  rewrite filter_map_fixed; [done|done|].
  intros line Hline Hmatch. apply bool_decide_eq_true in Hmatch.
  rewrite receivedFor_absent; [apply receiveMore_0|].
  intros r Hr Hid. rewrite Forall_forall in Hclamped.
  destruct (Hclamped r Hr) as (receipt & line' & _ & Hline' & _ & Hid' & _).
  unfold getPurchaseOrder in Hget. destruct (head _); [|done].
  injection Hget as <-. simpl in Hline'.
  apply list_elem_of_In, List.filter_In in Hline' as [Hline' Howner].
  apply bool_decide_eq_true in Howner. apply list_elem_of_In in Hline'.
  pose proof (head_filter_unique _ line (poi_id line) Hkeys Hline eq_refl) as H1.
  pose proof (head_filter_unique _ line' (poi_id line) Hkeys Hline'
                ltac:(congruence)) as H2.
  assert (line = line') by congruence.
  congruence.
Qed.

Import Scenario.

Lemma receive_books_receipts_on_lines_witness :
  ∃ updated results db' stored,
    receive 7 1 [receipt 1 12] purchaseDB = (Received updated results, db') ∧
    receivedFor 1 results = 12 ∧
    purchaseOrderItems db' ≡ₚ [receiveMore 12 lineOf20] ∧
    getPurchaseOrder 1 db' = Some stored ∧
    pd_row stored = pd_row updated.
Proof.
  destruct (receive 7 1 [receipt 1 12] purchaseDB) as [response db'] eqn:Hrun.
  destruct response as [updated results|status error|];
    [|vm_compute in Hrun; discriminate Hrun..].
  assert (Hkeys : NoDup (poi_id <$> purchaseOrderItems purchaseDB))
    by (simpl; apply NoDup_singleton).
  destruct (receive_books_receipts_on_lines 7 1 [receipt 1 12] purchaseDB
              updated results db' Hkeys Hrun)
    as (Hlines & _ & _ & (stored & Hstored & Hrow & _) & _).
  assert (Hreceived : receivedFor 1 results = 12).
  { assert (Hresults : results
                       = match (receive 7 1 [receipt 1 12] purchaseDB).1 with
                         | Received _ results => results
                         | _ => []
                         end) by (rewrite Hrun; reflexivity).
    rewrite Hresults. vm_compute. reflexivity. }
  exists updated, results, db', stored. split; [reflexivity|].
  split; [exact Hreceived|]. split; [|split; [exact Hstored | exact Hrow]].
  rewrite Hlines. simpl. change (poi_id lineOf20) with 1. by rewrite Hreceived.
Defined.

Lemma receive_leaves_other_orders_witness :
  ∃ updated results db',
    receive 7 1 [receipt 1 12] purchaseDB = (Received updated results, db') ∧
    getPurchaseOrder 2 db' = getPurchaseOrder 2 purchaseDB.
Proof.
  destruct (receive 7 1 [receipt 1 12] purchaseDB) as [response db'] eqn:Hrun.
  destruct response as [updated results|status error|];
    [|vm_compute in Hrun; discriminate Hrun..].
  exists updated, results, db'. split; [reflexivity|].
  apply (receive_leaves_other_orders 7 1 [receipt 1 12] purchaseDB updated results db' 2);
    [simpl; apply NoDup_singleton | exact Hrun | discriminate].
Defined.

End ReceiptsOnLines.

